(** * The job-posting field detector of the Airtable browser extension

    A shallow embedding of [JobDetector] (the content script's detection
    engine) and of the popup's confidence indicator, with the properties
    of the specification stated over it; then of what surrounds the
    detector: the form page, the drafts and their keys, the retries of
    the service worker and the check of the options page.

    Conventions of the embedding.
    - A JavaScript string is a [string]; each [ascii] is one code unit in
      the range 0..255.  Code units above 255 are outside the model.
    - An abrupt completion is explicit: a function that can throw returns
      a [completion], and [try]/[catch] is a case analysis on it.
    - [results] is mutated in place by the source; here every layer takes
      the record and returns the updated one.
    - The page is read through a [Document] record that holds what the
      detector observes of the DOM. *)

From Stdlib Require Import String Ascii List ZArith QArith Bool Lia.
From Stdlib Require Import DecimalString.
Import ListNotations.

Local Open Scope string_scope.
Local Open Scope list_scope.
Local Open Scope Z_scope.

Set Implicit Arguments.
Set Warnings "-register-all".

(** ** Completions: normal results and thrown errors *)

Inductive exception : Type :=
| TypeError
| SyntaxError.

Inductive completion (A : Type) : Type :=
| Normal (a : A)
| Throws (e : exception).

Arguments Normal {A} a.
Arguments Throws {A} e.

Definition bind {A B : Type} (c : completion A) (k : A -> completion B)
  : completion B :=
  match c with
  | Normal a => k a
  | Throws e => Throws e
  end.

Notation "x <- c ;; k" := (bind c (fun x => k))
  (at level 61, c at next level, right associativity).

(** ** JavaScript strings *)

Module JsString.

Definition code (c : ascii) : N := N_of_ascii c.

Definition inRange (lo hi : N) (c : ascii) : bool :=
  ((lo <=? code c) && (code c <=? hi))%N.

(** [\s] of a regular expression and the characters removed by
    [String.prototype.trim]: WhiteSpace and LineTerminator, of which
    TAB, LF, VT, FF, CR, SP and NBSP lie below 256. *)
Definition isWhiteSpace (c : ascii) : bool :=
  inRange 9 13 c || (code c =? 32)%N || (code c =? 160)%N.

Definition isUpper (c : ascii) : bool := inRange 65 90 c.
Definition isLower (c : ascii) : bool := inRange 97 122 c.
Definition isDigit (c : ascii) : bool := inRange 48 57 c.

(** [\w]: the word characters that [\b] looks at. *)
Definition isWordChar (c : ascii) : bool :=
  isUpper c || isLower c || isDigit c || (code c =? 95)%N.

Definition shift (c : ascii) (delta : Z) : ascii :=
  ascii_of_N (Z.to_N (Z.of_N (code c) + delta)).

(** [toLowerCase] on one code unit: A-Z and the Latin-1 capitals
    (U+00C0..U+00DE without the multiplication sign) move up by 32. *)
Definition lowerChar (c : ascii) : ascii :=
  if isUpper c then shift c 32
  else if (inRange 192 222 c && negb (code c =? 215)%N) then shift c 32
  else c.

(** [toUpperCase] on one ASCII code unit; it is applied to the first
    character of a host name, which the URL parser serialises in ASCII. *)
Definition upperChar (c : ascii) : ascii :=
  if isLower c then shift c (-32) else c.

Fixpoint toLowerCase (s : string) : string :=
  match s with
  | EmptyString => EmptyString
  | String c t => String (lowerChar c) (toLowerCase t)
  end.

Fixpoint trimStart (s : string) : string :=
  match s with
  | EmptyString => EmptyString
  | String c t => if isWhiteSpace c then trimStart t else s
  end.

Fixpoint trimEnd (s : string) : string :=
  match s with
  | EmptyString => EmptyString
  | String c t =>
      match trimEnd t with
      | EmptyString => if isWhiteSpace c then EmptyString else String c EmptyString
      | r => String c r
      end
  end.

Definition trim (s : string) : string := trimEnd (trimStart s).

(** [s.replace(/\s+/g, ' ')]: every maximal run of white space becomes
    one space; [inRun] tells that the previous character was white space
    of the run being replaced. *)
Fixpoint replaceRuns (inRun : bool) (s : string) : string :=
  match s with
  | EmptyString => EmptyString
  | String c t =>
      if isWhiteSpace c
      then if inRun then replaceRuns true t
           else String " " (replaceRuns true t)
      else String c (replaceRuns false t)
  end.

Definition collapseWhiteSpace (s : string) : string := replaceRuns false s.

(** [hay.includes(needle)] *)
Fixpoint includes (hay needle : string) : bool :=
  if prefix needle hay then true
  else match hay with
       | EmptyString => false
       | String _ t => includes t needle
       end.

(** [s.split(sep)] for a one-character separator. *)
Fixpoint split (sep : ascii) (s : string) : list string :=
  match s with
  | EmptyString => [EmptyString]
  | String c t =>
      if Ascii.eqb c sep then EmptyString :: split sep t
      else match split sep t with
           | w :: ws => String c w :: ws
           | [] => [String c EmptyString]
           end
  end.

(** [s.charAt(0).toUpperCase() + s.slice(1)] *)
Definition capitalize (s : string) : string :=
  match s with
  | EmptyString => EmptyString
  | String c t => String (upperChar c) t
  end.

Definition isEmpty (s : string) : bool :=
  match s with EmptyString => true | _ => false end.

(** The value is empty or holds white space only. *)
Definition isBlank (s : string) : bool := isEmpty (trim s).

(** The reading of "trim and collapse" in words: cut the text at every
    white-space character, drop the empty pieces, and join the rest
    with single spaces. *)
Fixpoint pieces (s : string) : list string :=
  match s with
  | EmptyString => [EmptyString]
  | String c t =>
      if isWhiteSpace c then EmptyString :: pieces t
      else match pieces t with
           | w :: ws => String c w :: ws
           | [] => [String c EmptyString]
           end
  end.

Definition words (s : string) : list string :=
  filter (fun w => negb (isEmpty w)) (pieces s).

Definition unwords (ws : list string) : string := String.concat " " ws.

(** The word in progress at the start of [s] (empty when [s] starts with
    white space) and the words after it. *)
Definition firstPiece (s : string) : string := hd EmptyString (pieces s).

Definition laterWords (s : string) : list string :=
  filter (fun w => negb (isEmpty w)) (tl (pieces s)).

(** The words after the first one as they are printed: each with a
    space before it. *)
Definition spaced (ws : list string) : string :=
  match ws with
  | [] => EmptyString
  | _ => String " " (unwords ws)
  end.

End JsString.

(** ** Regular expressions

    The backtracking matcher of ECMAScript, for the constructs the
    detector's patterns use.  A pattern is matched against a continuation,
    so that a later failure re-enters the choices made earlier (the other
    branch of an alternative, one repetition less or more).  None of the
    detector's patterns has a capture group under a quantifier, so the
    resetting of captures between repetitions is not modelled. *)

Module Regex.
Import JsString.

Inductive regex : Type :=
| Empty
| Char (p : ascii -> bool)
| Seq (r1 r2 : regex)
| Alt (r1 r2 : regex)
| Repeat (greedy : bool) (min : nat) (max : option nat) (r : regex)
| Group (n : nat) (r : regex)
| Bol
| Eol
| WordBoundary.

(** The matcher's state: the character before the current position,
    the position, the input from there on, and the captures so far as
    (group, (start, end)). *)
Record mstate : Type := MState {
  prev : option ascii;
  pos : nat;
  rest : string;
  caps : list (nat * (nat * nat))
}.

Definition next (st : mstate) : option ascii :=
  match rest st with
  | EmptyString => None
  | String c _ => Some c
  end.

Definition isWordAt (o : option ascii) : bool :=
  match o with
  | Some c => isWordChar c
  | None => false
  end.

Definition capture (n from : nat) (st : mstate) : mstate :=
  MState (prev st) (pos st) (rest st) ((n, (from, pos st)) :: caps st).

(** RepeatMatcher, over the matcher [m] of the repeated pattern: [mn]
    repetitions are required, [mx] allowed ([None]: no bound), and once
    the required ones are done a repetition that consumes nothing is
    refused.  A run makes at most [mn] repetitions of the first phase
    and one per consumed character afterwards, so with the fuel that
    [run] gives it the loop never stops for lack of fuel. *)
Fixpoint repeatMatcher (m : mstate -> (mstate -> option mstate) -> option mstate)
  (greedy : bool) (fuel mn : nat) (mx : option nat) (st : mstate)
  (k : mstate -> option mstate) {struct fuel} : option mstate :=
  match fuel with
  | O => None
  | S fuel' =>
      let iterate (mustAdvance : bool) :=
        m st (fun st' =>
                if mustAdvance && (pos st' =? pos st)%nat then None
                else repeatMatcher m greedy fuel' (Nat.pred mn)
                       (option_map Nat.pred mx) st' k) in
      match mx with
      | Some O => k st
      | _ =>
          match mn with
          | S _ => iterate false
          | O =>
              if greedy
              then match iterate true with
                   | Some x => Some x
                   | None => k st
                   end
              else match k st with
                   | Some x => Some x
                   | None => iterate true
                   end
          end
      end
  end.

Fixpoint run (r : regex) (st : mstate) (k : mstate -> option mstate)
  {struct r} : option mstate :=
  match r with
  | Empty => k st
  | Char p =>
      match rest st with
      | String c t =>
          if p c then k (MState (Some c) (S (pos st)) t (caps st)) else None
      | EmptyString => None
      end
  | Seq r1 r2 => run r1 st (fun st' => run r2 st' k)
  | Alt r1 r2 =>
      match run r1 st k with
      | Some x => Some x
      | None => run r2 st k
      end
  | Group n r1 => run r1 st (fun st' => k (capture n (pos st) st'))
  | Bol => match prev st with None => k st | Some _ => None end
  | Eol => match rest st with EmptyString => k st | _ => None end
  | WordBoundary =>
      if xorb (isWordAt (prev st)) (isWordAt (next st)) then k st else None
  | Repeat greedy mn mx r1 =>
      repeatMatcher (run r1) greedy (mn + String.length (rest st) + 1)%nat
        mn mx st k
  end.

(** A matcher that only ever answers with what its continuation
    returned. *)
Definition answers (m : mstate -> (mstate -> option mstate) -> option mstate)
  : Prop :=
  forall st k x, m st k = Some x -> exists st', k st' = Some x.

(** A successful match: where it starts and the final matcher state. *)
Record found : Type := Found {
  input : string;
  index : nat;
  final : mstate
}.

(** [regex.exec(text)] on a fresh pattern ([lastIndex] 0): the match at
    the leftmost position that has one. *)
Fixpoint execFrom (r : regex) (text : string) (before : option ascii)
  (i : nat) (s : string) : option found :=
  match run r (MState before i s []) (fun st => Some st) with
  | Some st => Some (Found text i st)
  | None =>
      match s with
      | EmptyString => None
      | String c t => execFrom r text (Some c) (S i) t
      end
  end.

Definition exec (r : regex) (text : string) : option found :=
  execFrom r text None 0%nat text.

Definition test (r : regex) (text : string) : bool :=
  match exec r text with Some _ => true | None => false end.

(** [match[0]] *)
Definition whole (m : found) : string :=
  substring (index m) (pos (final m) - index m) (input m).

Fixpoint lookup (n : nat) (l : list (nat * (nat * nat))) : option (nat * nat) :=
  match l with
  | [] => None
  | (g, span) :: t => if (g =? n)%nat then Some span else lookup n t
  end.

(** [match[n]]: [None] is [undefined], a group that took no part. *)
Definition group (n : nat) (m : found) : option string :=
  match lookup n (caps (final m)) with
  | Some (a, b) => Some (substring a (b - a) (input m))
  | None => None
  end.

(** *** Pattern syntax *)

Definition only (c : ascii) : ascii -> bool := fun x => Ascii.eqb x c.

Definition oneOf (chars : string) : ascii -> bool :=
  fun x => existsb (Ascii.eqb x) (list_ascii_of_string chars).

Definition orClass (p q : ascii -> bool) : ascii -> bool :=
  fun x => p x || q x.

Definition notClass (p : ascii -> bool) : ascii -> bool :=
  fun x => negb (p x).

(** The [i] flag on a class: a character matches when it or its partner
    of the other case is in the class.  The classes of the detector's
    case-insensitive patterns hold ASCII characters and [\s] only. *)
Definition ignoreCase (p : ascii -> bool) : ascii -> bool :=
  fun x => p x || p (upperChar x) || p (lowerChar x).

Fixpoint seqs (l : list regex) : regex :=
  match l with
  | [] => Empty
  | [r] => r
  | r :: t => Seq r (seqs t)
  end.

Fixpoint alts (l : list regex) : regex :=
  match l with
  | [] => Empty
  | [r] => r
  | r :: t => Alt r (alts t)
  end.

Fixpoint lit (s : string) : regex :=
  match s with
  | EmptyString => Empty
  | String c EmptyString => Char (only c)
  | String c t => Seq (Char (only c)) (lit t)
  end.

Fixpoint litI (s : string) : regex :=
  match s with
  | EmptyString => Empty
  | String c EmptyString => Char (ignoreCase (only c))
  | String c t => Seq (Char (ignoreCase (only c))) (litI t)
  end.

Definition star (r : regex) : regex := Repeat true 0 None r.
Definition plus (r : regex) : regex := Repeat true 1 None r.
Definition opt (r : regex) : regex := Repeat true 0 (Some 1%nat) r.

(** [text.replace(r, replacement)] for a pattern without the [g] flag: the
    leftmost match is replaced. *)
Definition replace (r : regex) (replacement : string) (text : string)
  : string :=
  match exec r text with
  | Some m =>
      (substring 0 (index m) text ++ replacement
         ++ substring (pos (final m)) (String.length text - pos (final m)) text)%string
  | None => text
  end.

(** A group inside a template literal. *)
Definition interpolate (g : option string) : string :=
  match g with
  | Some s => s
  | None => "undefined"
  end.

Definition space : regex := Char isWhiteSpace.
Definition upper : regex := Char isUpper.
Definition lower : regex := Char isLower.

End Regex.

(** ** Values read from structured data

    What [JSON.parse] returns.  A number is kept as the two things the
    detector can observe of it: whether it is truthy (not zero) and the
    text [ToString] gives it.  An object is the list of its own members,
    looked up by key. *)

Module Json.
Import JsString.

Inductive json : Type :=
| JNull
| JBool (b : bool)
| JNum (nonzero : bool) (text : string)
| JStr (s : string)
| JArr (items : list json)
| JObj (members : list (string * json)).

(** ToBoolean *)
Definition truthy (v : json) : bool :=
  match v with
  | JNull => false
  | JBool b => b
  | JNum nonzero _ => nonzero
  | JStr s => negb (isEmpty s)
  | JArr _ => true
  | JObj _ => true
  end.

Fixpoint member (key : string) (members : list (string * json)) : option json :=
  match members with
  | [] => None
  | (k, v) :: t => if String.eqb k key then Some v else member key t
  end.

Definition hasMember (key : string) (members : list (string * json)) : bool :=
  match member key members with Some _ => true | None => false end.

(** [v.key], for the property names the detector reads ([@type],
    [hiringOrganization], [name], [title], [jobLocation], [description],
    [address], [addressLocality], [addressRegion], [addressCountry]):
    none of them is defined on a prototype, so only an object's own
    member answers; reading a property of [null] throws.  [None] is
    [undefined]. *)
Definition get (v : json) (key : string) : completion (option json) :=
  match v with
  | JNull => Throws TypeError
  | JObj members => Normal (member key members)
  | _ => Normal None
  end.

(** [typeof v === 'string'] *)
Definition isString (v : json) : bool :=
  match v with JStr _ => true | _ => false end.

(** [v === text] *)
Definition strictEqString (v : option json) (text : string) : bool :=
  match v with
  | Some (JStr s) => String.eqb s text
  | _ => false
  end.

(** ToString.  An array prints its elements joined by commas, [null]
    among them as nothing.  A parsed object prints as
    [[object Object]] through [Object.prototype.toString], unless a
    member of its own named [toString] hides that method: a member is
    never callable, and the conversion then throws. *)
Fixpoint toString (v : json) : completion string :=
  match v with
  | JNull => Normal "null"
  | JBool true => Normal "true"
  | JBool false => Normal "false"
  | JNum _ text => Normal text
  | JStr s => Normal s
  | JArr items =>
      (fix joinItems (l : list json) : completion string :=
         match l with
         | [] => Normal ""
         | x :: t =>
             s <- match x with JNull => Normal "" | _ => toString x end ;;
             match t with
             | [] => Normal s
             | _ => r <- joinItems t ;; Normal (s ++ "," ++ r)%string
             end
         end) items
  | JObj members =>
      if hasMember "toString" members then Throws TypeError
      else Normal "[object Object]"
  end.

(** [parts.join(sep)] *)
Fixpoint join (sep : string) (parts : list json) : completion string :=
  match parts with
  | [] => Normal ""
  | x :: t =>
      s <- match x with JNull => Normal "" | _ => toString x end ;;
      match t with
      | [] => Normal s
      | _ => r <- join sep t ;; Normal (s ++ sep ++ r)%string
      end
  end.

(** [if (v) ...] on a value that may be [undefined]. *)
Definition whenTruthy {A : Type} (v : option json)
  (body : json -> completion A) (otherwise : A) : completion A :=
  match v with
  | Some x => if truthy x then body x else Normal otherwise
  | None => Normal otherwise
  end.

End Json.

(** ** The page as the detector reads it *)

Module Dom.
Import Json.

(** [document.querySelector(selector)]: an element (of which the
    detector reads [textContent]), [null], or a thrown error for a
    selector the engine rejects. *)
Inductive queried : Type :=
| Element (textContent : string)
| NoElement
| InvalidSelector.

(** A [meta] element: its [property], [name] and [content] attributes,
    [None] when absent. *)
Record Meta : Type := {
  property : option string;
  name : option string;
  content : option string
}.

Inductive tag : Type := H1 | H2 | H3.

(** A heading: [textContent], and
    [parseFloat(getComputedStyle(h).fontSize)] as an exact rational,
    [None] for NaN. *)
Record Heading : Type := {
  tagName : tag;
  headingText : string;
  fontSize : option Q
}.

(** An element that carries an [aria-label] attribute. *)
Record Labelled : Type := {
  ariaLabel : string;
  labelledText : string
}.

Record Document : Type := {
  (** [JSON.parse(script.textContent)] for every
      [script[type="application/ld+json"]], in document order *)
  ldJson : list (completion json);
  (** the [meta] elements, in document order *)
  metas : list Meta;
  (** [document.title] *)
  title : string;
  (** [window.location.hostname] *)
  hostname : string;
  querySelector : string -> queried;
  (** [document.querySelectorAll('[aria-label]')] *)
  ariaLabelled : list Labelled;
  (** [document.querySelectorAll('h1, h2, h3')] *)
  headings : list Heading;
  (** [document.body.innerText]; [None] when the document has no body *)
  bodyText : option string
}.

Definition isH1 (h : Heading) : bool :=
  match tagName h with H1 => true | _ => false end.

(** [document.querySelectorAll('h1')] *)
Definition h1Elements (d : Document) : list Heading :=
  filter isH1 (headings d).

Definition hasValue (attribute : option string) (v : string) : bool :=
  match attribute with
  | Some a => String.eqb a v
  | None => false
  end.

(** [fontSize > bound] and [fontSize < bound]; both are false on NaN. *)
Definition above (size : option Q) (bound : Q) : bool :=
  match size with
  | Some q => negb (Qle_bool q bound)
  | None => false
  end.

Definition below (size : option Q) (bound : Q) : bool :=
  match size with
  | Some q => negb (Qle_bool bound q)
  | None => false
  end.

End Dom.

(** ** The detector *)

Module JobDetector.
Import JsString Regex Json Dom.

Inductive Field : Type := Company | JobTitle | Location | Description.

Record FieldResult : Type := {
  value : string;
  confidence : Z;
  source : string
}.

(** One entry for each of the four fields: the shape of [results] and
    of the three parts of the returned object. *)
Record PerField (A : Type) : Type := {
  company : A;
  jobTitle : A;
  location : A;
  description : A
}.

Definition Results : Type := PerField FieldResult.

(** [results[field]] *)
Definition at_ {A : Type} (r : PerField A) (field : Field) : A :=
  match field with
  | Company => company r
  | JobTitle => jobTitle r
  | Location => location r
  | Description => description r
  end.

(** [results[field] = x] *)
Definition assign {A : Type} (r : PerField A) (field : Field) (x : A)
  : PerField A :=
  match field with
  | Company => Build_PerField x (jobTitle r) (location r) (description r)
  | JobTitle => Build_PerField (company r) x (location r) (description r)
  | Location => Build_PerField (company r) (jobTitle r) x (description r)
  | Description => Build_PerField (company r) (jobTitle r) (location r) x
  end.

Definition undetected : FieldResult :=
  {| value := ""; confidence := 0; source := "" |}.

Definition initial : Results :=
  Build_PerField undetected undetected undetected undetected.

(** What [detect] returns: the values, and the [confidence] and
    [sources] objects. *)
Record DetectionOutput : Type := {
  values : PerField string;
  confidences : PerField Z;
  sources : PerField string
}.

Definition output (r : Results) : DetectionOutput :=
  {| values := Build_PerField (value (company r)) (value (jobTitle r))
                 (value (location r)) (value (description r));
     confidences := Build_PerField (confidence (company r))
                      (confidence (jobTitle r)) (confidence (location r))
                      (confidence (description r));
     sources := Build_PerField (source (company r)) (source (jobTitle r))
                  (source (location r)) (source (description r)) |}.

(** *** updateField *)

Definition cleanValue (v : string) : string := collapseWhiteSpace (trim v).

Definition updateField (results : Results) (field : Field) (v : json)
  (conf : Z) (src : string) : completion Results :=
  if negb (truthy v) then Normal results
  else
    match v with
    | JStr s =>
        if (String.length (trim s) =? 0)%nat then Normal results
        else if conf >? confidence (at_ results field)
             then Normal (assign results field
                            {| value := cleanValue s;
                               confidence := conf;
                               source := src |})
             else Normal results
    | _ => Throws TypeError  (* [value.trim] is not a function *)
    end.

(** *** Structured data *)

Fixpoint firstJobPosting (items : list json) : completion (option json) :=
  match items with
  | [] => Normal None
  | item :: more =>
      type <- get item "@type" ;;
      if strictEqString type "JobPosting" then Normal (Some item)
      else firstJobPosting more
  end.

(** [Array.isArray(data) ? data : [data]] *)
Definition itemsOf (data : json) : list json :=
  match data with
  | JArr items => items
  | _ => [data]
  end.

Fixpoint findJobPostingIn (scripts : list (completion json)) : option json :=
  match scripts with
  | [] => None
  | script :: more =>
      match (data <- script ;; firstJobPosting (itemsOf data)) with
      | Normal (Some item) => Some item
      | Normal None => findJobPostingIn more
      | Throws _ => findJobPostingIn more
      end
  end.

Definition findJobPostingSchema (d : Document) : option json :=
  findJobPostingIn (ldJson d).

(** The result is a string, any other value found under
    [addressCountry], or [JNull] for [null]. *)
Definition parseJobLocation (jobLocation : json) : completion json :=
  if isString jobLocation then Normal jobLocation
  else
    address <- get jobLocation "address" ;;
    whenTruthy address
      (fun addr =>
         if isString addr then Normal addr
         else
           locality <- get addr "addressLocality" ;;
           region <- get addr "addressRegion" ;;
           let parts :=
             (match locality with
              | Some l => if truthy l then [l] else []
              | None => []
              end ++
              match region with
              | Some r => if truthy r then [r] else []
              | None => []
              end)%list in
           if (0 <? List.length parts)%nat
           then joined <- join ", " parts ;; Normal (JStr joined)
           else
             country <- get addr "addressCountry" ;;
             whenTruthy country (fun c => Normal c) JNull)
      JNull.

Definition getMetaContent (d : Document) (p : string) : option string :=
  match find (fun m => hasValue (property m) p || hasValue (name m) p)
             (metas d) with
  | Some m => content m
  | None => None
  end.

(** Truthiness of a string that may be [null]. *)
Definition present (o : option string) : bool :=
  match o with
  | Some s => negb (isEmpty s)
  | None => false
  end.

Definition text (o : option string) : json :=
  match o with
  | Some s => JStr s
  | None => JNull
  end.

Record OpenGraph : Type := {
  ogTitle : option string;
  ogSiteName : option string;
  ogDescription : option string
}.

Definition extractFromOpenGraph (d : Document) : OpenGraph :=
  {| ogTitle := getMetaContent d "og:title";
     ogSiteName := getMetaContent d "og:site_name";
     ogDescription :=
       if present (getMetaContent d "og:description")
       then getMetaContent d "og:description"
       else getMetaContent d "description" |}.

Definition detectFromStructuredData (d : Document) (results : Results)
  : completion Results :=
  results <-
    match findJobPostingSchema d with
    | Some jsonLdData =>
        results <-
          (org <- get jsonLdData "hiringOrganization" ;;
           whenTruthy org
             (fun o =>
                orgName <- get o "name" ;;
                whenTruthy orgName
                  (fun n => updateField results Company n 95 "JSON-LD Schema")
                  results)
             results) ;;
        results <-
          (t <- get jsonLdData "title" ;;
           whenTruthy t
             (fun t => updateField results JobTitle t 95 "JSON-LD Schema")
             results) ;;
        results <-
          (jobLocation <- get jsonLdData "jobLocation" ;;
           whenTruthy jobLocation
             (fun jl =>
                loc <- parseJobLocation jl ;;
                if truthy loc
                then updateField results Location loc 95 "JSON-LD Schema"
                else Normal results)
             results) ;;
        desc <- get jsonLdData "description" ;;
        whenTruthy desc
          (fun t => updateField results Description t 95 "JSON-LD Schema")
          results
    | None => Normal results
    end ;;
  let ogData := extractFromOpenGraph d in
  results <-
    (if present (ogTitle ogData) && (confidence (jobTitle results) <? 85)
     then updateField results JobTitle (text (ogTitle ogData)) 85
            "OpenGraph Meta"
     else Normal results) ;;
  results <-
    (if present (ogSiteName ogData) && (confidence (company results) <? 85)
     then updateField results Company (text (ogSiteName ogData)) 85
            "OpenGraph Meta"
     else Normal results) ;;
  if present (ogDescription ogData)
     && (confidence (description results) <? 85)
  then updateField results Description (text (ogDescription ogData)) 85
         "OpenGraph Meta"
  else Normal results.

(** *** Semantic HTML *)

Record SitePattern : Type := {
  companySelectors : string;
  jobTitleSelectors : string;
  locationSelectors : string;
  descriptionSelectors : string
}.

(** The double quote, for the attribute selectors. *)
Definition dq : string := String (ascii_of_nat 34) EmptyString.

Definition linkedin : SitePattern :=
  {| companySelectors :=
       ".topcard__org-name-link, .top-card-layout__card .topcard__flavor--black-link";
     jobTitleSelectors := ".topcard__title, .top-card-layout__title";
     locationSelectors :=
       ".topcard__flavor--bullet, .top-card-layout__second-subline";
     descriptionSelectors :=
       ".show-more-less-html__markup, .description__text" |}.

Definition indeed : SitePattern :=
  {| companySelectors :=
       "[data-company-name], .jobsearch-InlineCompanyRating-companyHeader, .icl-u-lg-mr--sm";
     jobTitleSelectors :=
       ".jobsearch-JobInfoHeader-title, h1.icl-u-xs-mb--xs";
     locationSelectors :=
       "[data-testid=" ++ dq ++ "job-location" ++ dq
         ++ "], .jobsearch-JobInfoHeader-subtitle";
     descriptionSelectors :=
       "#jobDescriptionText, .jobsearch-jobDescriptionText" |}%string.

Definition glassdoor : SitePattern :=
  {| companySelectors :=
       "[data-test=" ++ dq ++ "employer-name" ++ dq
         ++ "], .EmployerProfile_employerName__QvlPJ";
     jobTitleSelectors :=
       "[data-test=" ++ dq ++ "job-title" ++ dq
         ++ "], .JobDetails_jobTitle__cNuIa";
     locationSelectors :=
       "[data-test=" ++ dq ++ "location" ++ dq
         ++ "], .JobDetails_location__MbnUM";
     descriptionSelectors :=
       "[data-test=" ++ dq ++ "job-description" ++ dq
         ++ "], .JobDetails_jobDescription__uW_fK" |}%string.

Definition genericCompany : string :=
  ".company-name, [data-company], .hiring-company, .employer-name".
Definition genericJobTitle : string :=
  (".job-title, [data-job-title], .position-title, h1[class*="
     ++ dq ++ "title" ++ dq ++ "]")%string.
Definition genericLocation : string :=
  ".location, [data-location], .job-location, .work-location".
Definition genericDescription : string :=
  (".job-description, [data-description], .description, .job-details, [class*="
     ++ dq ++ "description" ++ dq ++ "]")%string.

(** The loop of [trySelectors]; an error thrown inside the [try] block
    goes on with the next selector. *)
Fixpoint trySelectorList (d : Document) (results : Results) (field : Field)
  (selectorList : list string) (conf : Z) (src : string) : Results :=
  match selectorList with
  | [] => results
  | selector :: more =>
      match querySelector d selector with
      | InvalidSelector => trySelectorList d results field more conf src
      | NoElement => trySelectorList d results field more conf src
      | Element content =>
          if isEmpty (trim content)
          then trySelectorList d results field more conf src
          else
            match updateField results field (JStr (trim content)) conf src with
            | Throws _ => trySelectorList d results field more conf src
            | Normal results' =>
                if confidence (at_ results' field) >=? conf then results'
                else trySelectorList d results' field more conf src
            end
      end
  end.

Definition trySelectors (d : Document) (results : Results) (field : Field)
  (selectors : string) (conf : Z) (src : string) : Results :=
  if confidence (at_ results field) >=? conf then results
  else trySelectorList d results field
         (map trim (split "," selectors)) conf src.

Fixpoint tryAriaElements (elements : list Labelled) (results : Results)
  : completion Results :=
  match elements with
  | [] => Normal results
  | el :: more =>
      let label := toLowerCase (ariaLabel el) in
      let content := trim (labelledText el) in
      if isEmpty content then tryAriaElements more results
      else
        results <-
          (if (includes label "company" || includes label "employer")
              && (confidence (company results) <? 70)
           then updateField results Company (JStr content) 70 "ARIA Label"
           else Normal results) ;;
        results <-
          (if (includes label "job" || includes label "title"
               || includes label "position")
              && (confidence (jobTitle results) <? 70)
           then updateField results JobTitle (JStr content) 70 "ARIA Label"
           else Normal results) ;;
        results <-
          (if includes label "location"
              && (confidence (location results) <? 70)
           then updateField results Location (JStr content) 70 "ARIA Label"
           else Normal results) ;;
        tryAriaElements more results
  end.

Definition tryAriaLabels (d : Document) (results : Results)
  : completion Results :=
  tryAriaElements (ariaLabelled d) results.

(** The branch on the host name: the first site that matches. *)
Definition sitePatternOf (d : Document) : option SitePattern :=
  let host := toLowerCase (hostname d) in
  if includes host "linkedin.com" then Some linkedin
  else if includes host "indeed.com" then Some indeed
  else if includes host "glassdoor.com" then Some glassdoor
  else None.

Definition detectFromSemanticHTML (d : Document) (results : Results)
  : completion Results :=
  let results :=
    match sitePatternOf d with
    | Some sitePattern =>
        let results := trySelectors d results Company
                         (companySelectors sitePattern) 80 "Known Site Pattern" in
        let results := trySelectors d results JobTitle
                         (jobTitleSelectors sitePattern) 80 "Known Site Pattern" in
        let results := trySelectors d results Location
                         (locationSelectors sitePattern) 80 "Known Site Pattern" in
        if isEmpty (descriptionSelectors sitePattern) then results
        else trySelectors d results Description
               (descriptionSelectors sitePattern) 80 "Known Site Pattern"
    | None => results
    end in
  let results := trySelectors d results Company genericCompany 75 "Semantic HTML" in
  let results := trySelectors d results JobTitle genericJobTitle 75 "Semantic HTML" in
  let results := trySelectors d results Location genericLocation 75 "Semantic HTML" in
  let results := trySelectors d results Description genericDescription 70
                   "Semantic HTML" in
  tryAriaLabels d results.

(** *** Text analysis *)

(** [[A-Za-z0-9\s&.,-]] *)
Definition companyChar : ascii -> bool :=
  orClass isUpper (orClass isLower (orClass isDigit
    (orClass isWhiteSpace (oneOf "&.,-")))).

(** [/(?:at|@)\s+([A-Z][A-Za-z0-9\s&.,-]{2,50})(?:\.|,|\s|$)/g] *)
Definition atPattern : regex :=
  seqs [alts [lit "at"; lit "@"];
        plus space;
        Group 1 (seqs [upper; Repeat true 2 (Some 50%nat) (Char companyChar)]);
        alts [lit "."; lit ","; space; Eol]].

(** [(Inc\.?|LLC|Ltd\.?|Corp\.?|Corporation|Company)], with or without
    the [i] flag. *)
Definition companySuffix (caseless : bool) : regex :=
  let word := if caseless then litI else lit in
  alts [seqs [word "Inc"; opt (lit ".")];
        word "LLC";
        seqs [word "Ltd"; opt (lit ".")];
        seqs [word "Corp"; opt (lit ".")];
        word "Corporation";
        word "Company"].

(** [/\b([A-Z][A-Za-z0-9\s&.,-]{2,50}?)\s+(Inc\.?|...|Company)\b/g] *)
Definition suffixPattern : regex :=
  seqs [WordBoundary;
        Group 1 (seqs [upper; Repeat false 2 (Some 50%nat) (Char companyChar)]);
        plus space;
        Group 2 (companySuffix false);
        WordBoundary].

(** [name.trim().replace(/\s+/g, ' ').replace(/[,.]$/, '')] *)
Definition cleanCompanyName (n : string) : string :=
  replace (seqs [Char (oneOf ",."); Eol]) "" (collapseWhiteSpace (trim n)).

Definition looksLikeCompanyName (t : string) : bool :=
  if (String.length t <? 2)%nat || (50 <? String.length t)%nat then false
  else if test (seqs [WordBoundary; Group 1 (companySuffix true); WordBoundary]) t
  then true
  else if test (seqs [Bol; upper]) t
          && negb (test (seqs [space;
                               Group 1 (alts [litI "the"; litI "a"; litI "an";
                                              litI "is"; litI "are"; litI "was";
                                              litI "were"]);
                               space]) t)
  then true
  else false.

Fixpoint companyHeading (hs : list Heading) : option string :=
  match hs with
  | [] => None
  | heading :: more =>
      let content := trim (headingText heading) in
      if (3 <? String.length content)%nat && (String.length content <? 50)%nat
         && (above (fontSize heading) (14 # 1)
             && below (fontSize heading) (24 # 1))
         && looksLikeCompanyName content
      then Some content
      else companyHeading more
  end.

Definition companyAfterAt (body : string) : option string :=
  match exec atPattern body with
  | Some m =>
      if present (group 1 m)
      then Some (cleanCompanyName (interpolate (group 1 m)))
      else None
  | None => None
  end.

Definition companyWithSuffix (body : string) : option string :=
  match exec suffixPattern body with
  | Some m => Some (cleanCompanyName (whole m))
  | None => None
  end.

Definition findCompanyName (body : string) (hs : list Heading)
  : option string :=
  match companyAfterAt body with
  | Some found => Some found
  | None =>
      match companyWithSuffix body with
      | Some found => Some found
      | None => companyHeading hs
      end
  end.

Definition jobKeywords : list string :=
  ["engineer"; "developer"; "designer"; "manager"; "analyst"; "specialist";
   "director"; "coordinator"; "consultant"; "architect"; "lead"; "senior";
   "junior"; "intern"; "associate"; "administrator"; "technician"; "officer"].

Definition containsJobKeyword (t : string) (keywords : list string) : bool :=
  let textLower := toLowerCase t in
  existsb (fun keyword => includes textLower keyword) keywords.

Fixpoint titleAmongH1 (h1s : list Heading) : option string :=
  match h1s with
  | [] => None
  | h1 :: more =>
      let content := trim (headingText h1) in
      if containsJobKeyword content jobKeywords then Some content
      else titleAmongH1 more
  end.

Fixpoint titleAmongHeadings (hs : list Heading) : option string :=
  match hs with
  | [] => None
  | heading :: more =>
      let content := trim (headingText heading) in
      if (5 <? String.length content)%nat && (String.length content <? 100)%nat
         && containsJobKeyword content jobKeywords
         && above (fontSize heading) (18 # 1)
      then Some content
      else titleAmongHeadings more
  end.

(** The second argument of the source, the body text, is not used. *)
Definition findJobTitle (d : Document) (hs : list Heading) : option string :=
  match titleAmongH1 (h1Elements d) with
  | Some t => Some t
  | None => titleAmongHeadings hs
  end.

(** The city and state pattern of [findLocation], with the [g] flag:
    [\b], group 1 made of [[A-Z][a-z]+] and any number of
    [\s[A-Z][a-z]+] after it, then [,\s*], group 2 [[A-Z]{2}], [\b]. *)
Definition cityStatePattern : regex :=
  seqs [WordBoundary;
        Group 1 (seqs [upper; plus lower;
                       star (seqs [space; upper; plus lower])]);
        lit ",";
        star space;
        Group 2 (Repeat true 2 (Some 2%nat) upper);
        WordBoundary].

(** [/\b(remote|work from home|wfh)\b/i] *)
Definition remotePattern : regex :=
  seqs [WordBoundary;
        Group 1 (alts [litI "remote"; litI "work from home"; litI "wfh"]);
        WordBoundary].

(** [/location:?\s*([A-Z][a-zA-Z\s,.-]+(?:,\s*[A-Z]{2})?)/i] *)
Definition locationPattern : regex :=
  seqs [litI "location";
        opt (lit ":");
        star space;
        Group 1
          (seqs [Char (ignoreCase isUpper);
                 plus (Char (ignoreCase
                         (orClass isLower (orClass isUpper
                            (orClass isWhiteSpace (oneOf ",.-"))))));
                 opt (seqs [lit ","; star space;
                            Repeat true 2 (Some 2%nat)
                              (Char (ignoreCase isUpper))])])].

Definition states : list string :=
  ["California"; "New York"; "Texas"; "Florida"; "Illinois"; "Pennsylvania";
   "Ohio"; "Georgia"; "North Carolina"; "Michigan"; "Massachusetts";
   "Washington"].

(** [new RegExp(`\\b${state}\\b`, 'i')] *)
Definition stateRegex (state : string) : regex :=
  seqs [WordBoundary; litI state; WordBoundary].

Definition labelledLocation (body : string) : option string :=
  match exec locationPattern body with
  | Some m => if present (group 1 m) then Some (trim (interpolate (group 1 m)))
              else None
  | None => None
  end.

Definition findLocation (body : string) : option string :=
  match exec cityStatePattern body with
  | Some m =>
      Some (interpolate (group 1 m) ++ ", " ++ interpolate (group 2 m))%string
  | None =>
      if test remotePattern body then Some "Remote"
      else
        match labelledLocation body with
        | Some found => Some found
        | None => find (fun state => test (stateRegex state) body) states
        end
  end.

Definition detectFromTextAnalysis (d : Document) (results : Results)
  : completion Results :=
  match bodyText d with
  | None => Throws TypeError  (* [document.body] is [null] *)
  | Some body =>
      let hs := headings d in
      results <-
        (if confidence (company results) <? 60
         then let found := findCompanyName body hs in
              if present found
              then updateField results Company (text found) 60 "Text Analysis"
              else Normal results
         else Normal results) ;;
      results <-
        (if confidence (jobTitle results) <? 60
         then let found := findJobTitle d hs in
              if present found
              then updateField results JobTitle (text found) 60 "Text Analysis"
              else Normal results
         else Normal results) ;;
      if confidence (location results) <? 60
      then let found := findLocation body in
           if present found
           then updateField results Location (text found) 60 "Text Analysis"
           else Normal results
      else Normal results
  end.

(** *** Fallbacks *)

(** [/^([^-|]+)/] *)
Definition titlePattern : regex :=
  seqs [Bol; Group 1 (plus (Char (notClass (oneOf "-|"))))].

(** [hostname.replace(/^www\./, '').split('.')[0]], capitalised. *)
Definition companyFromHost (host : string) : string :=
  let label := hd "" (split "." (replace (seqs [Bol; lit "www."]) "" host)) in
  capitalize label.

Definition applyFallbacks (d : Document) (results : Results)
  : completion Results :=
  results <-
    (if confidence (jobTitle results) <? 40
     then match exec titlePattern (title d) with
          | Some titleMatch =>
              match group 1 titleMatch with
              | Some g =>
                  if isEmpty (trim g) then Normal results
                  else updateField results JobTitle (JStr (trim g)) 40 "Page Title"
              | None => Throws TypeError
              end
          | None => Normal results
          end
     else Normal results) ;;
  results <-
    (if confidence (company results) <? 40
     then updateField results Company (JStr (companyFromHost (hostname d))) 35
            "Domain Name"
     else Normal results) ;;
  if confidence (jobTitle results) <? 40
  then match h1Elements d with
       | firstH1 :: _ =>
           if isEmpty (trim (headingText firstH1)) then Normal results
           else updateField results JobTitle (JStr (trim (headingText firstH1)))
                  35 "First H1"
       | [] => Normal results
       end
  else Normal results.

(** *** detect *)

Definition detect (d : Document) : completion DetectionOutput :=
  results <- detectFromStructuredData d initial ;;
  results <- detectFromSemanticHTML d results ;;
  results <- detectFromTextAnalysis d results ;;
  results <- applyFallbacks d results ;;
  Normal (output results).

End JobDetector.

(** ** The popup's confidence indicator *)

Module Form.

Inductive indicator : Type :=
| ConfidenceHigh
| ConfidenceMedium
| ConfidenceLow
| ConfidenceNone.

(** The class that [setConfidenceIndicator] adds to the indicator. *)
Definition setConfidenceIndicator (confidence : Z) : indicator :=
  if confidence >=? 70 then ConfidenceHigh
  else if confidence >=? 40 then ConfidenceMedium
  else if confidence >? 0 then ConfidenceLow
  else ConfidenceNone.

End Form.

(** ** The priority merge of the specification

    The specification describes the outcome of detection for one field
    as a reduction over the ordered list of what the layers found for it:
    the highest confidence wins, and of two finds with the same
    confidence the earlier one.  [candidates] lists, layer by layer and
    without looking at any confidence reached so far, the non-empty
    finds of a document; [winner] picks the result in those words. *)

Module Resolution.
Import JsString Regex Json Dom JobDetector.

Fixpoint allWhiteSpace (s : string) : bool :=
  match s with
  | EmptyString => true
  | String c t => isWhiteSpace c && allWhiteSpace t
  end.

(** A find: nothing for an empty or white-space-only text, else the text
    in normal form with the confidence and label of the layer. *)
Definition matched (raw : string) (conf : Z) (src : string) : list FieldResult :=
  if allWhiteSpace raw then []
  else [{| value := unwords (words raw); confidence := conf; source := src |}].

Definition matchedIf (raw : option string) (conf : Z) (src : string)
  : list FieldResult :=
  match raw with
  | Some s => matched s conf src
  | None => []
  end.

Definition maxConfidence (finds : list FieldResult) : Z :=
  fold_right Z.max 0 (map confidence finds).

(** The first find that has the highest confidence; [undetected] when
    there is none. *)
Definition winner (finds : list FieldResult) : FieldResult :=
  match find (fun c => confidence c =? maxConfidence finds) finds with
  | Some c => c
  | None => undetected
  end.

(** The reducer: a find replaces the current result when its confidence
    is strictly greater. *)
Definition better (current find : FieldResult) : FieldResult :=
  if confidence find >? confidence current then find else current.

Definition resolve (finds : list FieldResult) : FieldResult :=
  fold_left better finds undetected.

(** [results] after the finds of a layer, given per field, have gone
    through the reducer. *)
Definition merge (r : Results) (finds : Field -> list FieldResult) : Results :=
  {| company := fold_left better (finds Company) (company r);
     jobTitle := fold_left better (finds JobTitle) (jobTitle r);
     location := fold_left better (finds Location) (location r);
     description := fold_left better (finds Description) (description r) |}.

Definition sameField (f g : Field) : bool :=
  match f, g with
  | Company, Company => true
  | JobTitle, JobTitle => true
  | Location, Location => true
  | Description, Description => true
  | _, _ => false
  end.

(** Finds for one field only. *)
Definition only (f : Field) (finds : list FieldResult) : Field -> list FieldResult :=
  fun g => if sameField f g then finds else [].

(** *** What each layer finds *)

Definition prop (v : json) (key : string) : option json :=
  match get v key with
  | Normal o => o
  | Throws _ => None
  end.

Definition asText (v : option json) : option string :=
  match v with
  | Some (JStr s) => Some s
  | _ => None
  end.

Definition schemaText (d : Document) (field : Field) : option string :=
  match findJobPostingSchema d with
  | None => None
  | Some data =>
      match field with
      | Company =>
          match prop data "hiringOrganization" with
          | Some org => asText (prop org "name")
          | None => None
          end
      | JobTitle => asText (prop data "title")
      | Location =>
          match prop data "jobLocation" with
          | Some jobLocation =>
              match parseJobLocation jobLocation with
              | Normal found => asText (Some found)
              | Throws _ => None
              end
          | None => None
          end
      | Description => asText (prop data "description")
      end
  end.

Definition openGraphText (d : Document) (field : Field) : option string :=
  match field with
  | Company => ogSiteName (extractFromOpenGraph d)
  | JobTitle => ogTitle (extractFromOpenGraph d)
  | Location => None
  | Description => ogDescription (extractFromOpenGraph d)
  end.

Definition selectorFinds (d : Document) (conf : Z) (src : string)
  (selector : string) : list FieldResult :=
  match querySelector d selector with
  | Element content => matched content conf src
  | _ => []
  end.

Definition selectorMatches (d : Document) (selectors : string) (conf : Z)
  (src : string) : list FieldResult :=
  flat_map (selectorFinds d conf src) (map trim (split "," selectors)).

Definition siteSelectors (p : SitePattern) (field : Field) : string :=
  match field with
  | Company => companySelectors p
  | JobTitle => jobTitleSelectors p
  | Location => locationSelectors p
  | Description => descriptionSelectors p
  end.

Definition siteMatches (d : Document) (field : Field) : list FieldResult :=
  match sitePatternOf d with
  | Some p => selectorMatches d (siteSelectors p field) 80 "Known Site Pattern"
  | None => []
  end.

Definition genericMatches (d : Document) (field : Field) : list FieldResult :=
  match field with
  | Company => selectorMatches d genericCompany 75 "Semantic HTML"
  | JobTitle => selectorMatches d genericJobTitle 75 "Semantic HTML"
  | Location => selectorMatches d genericLocation 75 "Semantic HTML"
  | Description => selectorMatches d genericDescription 70 "Semantic HTML"
  end.

Definition labelNames (field : Field) (label : string) : bool :=
  match field with
  | Company => includes label "company" || includes label "employer"
  | JobTitle =>
      includes label "job" || includes label "title" || includes label "position"
  | Location => includes label "location"
  | Description => false
  end.

Definition ariaFinds (field : Field) (el : Labelled) : list FieldResult :=
  if labelNames field (toLowerCase (ariaLabel el))
  then matched (labelledText el) 70 "ARIA Label"
  else [].

Definition ariaMatches (d : Document) (field : Field) : list FieldResult :=
  flat_map (ariaFinds field) (ariaLabelled d).

Definition textMatches (d : Document) (field : Field) : list FieldResult :=
  match bodyText d with
  | None => []
  | Some body =>
      match field with
      | Company => matchedIf (findCompanyName body (headings d)) 60 "Text Analysis"
      | JobTitle => matchedIf (findJobTitle d (headings d)) 60 "Text Analysis"
      | Location => matchedIf (findLocation body) 60 "Text Analysis"
      | Description => []
      end
  end.

Definition pageTitleText (d : Document) : option string :=
  match exec titlePattern (title d) with
  | Some m => group 1 m
  | None => None
  end.

Definition firstH1Text (d : Document) : option string :=
  match h1Elements d with
  | firstH1 :: _ => Some (headingText firstH1)
  | [] => None
  end.

Definition fallbackMatches (d : Document) (field : Field) : list FieldResult :=
  match field with
  | Company => matched (companyFromHost (hostname d)) 35 "Domain Name"
  | JobTitle =>
      matchedIf (pageTitleText d) 40 "Page Title"
        ++ matchedIf (firstH1Text d) 35 "First H1"
  | Location => []
  | Description => []
  end.

Definition structuredFinds (d : Document) (field : Field) : list FieldResult :=
  matchedIf (schemaText d field) 95 "JSON-LD Schema"
    ++ matchedIf (openGraphText d field) 85 "OpenGraph Meta".

(** The finds for a field, in the order in which the layers run. *)
Definition candidates (d : Document) (field : Field) : list FieldResult :=
  matchedIf (schemaText d field) 95 "JSON-LD Schema"
    ++ matchedIf (openGraphText d field) 85 "OpenGraph Meta"
    ++ siteMatches d field
    ++ genericMatches d field
    ++ ariaMatches d field
    ++ textMatches d field
    ++ fallbackMatches d field.

(** Nothing in the markup: no structured data, no [meta] element, no
    element for any selector, no labelled element. *)
Definition silentMarkup (d : Document) : Prop :=
  ldJson d = [] /\ metas d = []
  /\ (forall selector, querySelector d selector = NoElement)
  /\ ariaLabelled d = [].

(** The entries of the blocks that parse, in document order, and the
    test for a posting. *)
Definition entries (scripts : list (completion json)) : list json :=
  flat_map (fun script =>
              match script with
              | Normal data => itemsOf data
              | Throws _ => []
              end) scripts.

Definition isJobPosting (item : json) : bool :=
  strictEqString (prop item "@type") "JobPosting".

Definition isNull (item : json) : bool :=
  match item with JNull => true | _ => false end.

(** The job-title search in the words of the specification: the first
    [h1] that names a keyword, else the first other heading that names a
    keyword and is rendered above 18px. *)
Definition namesKeyword (h : Heading) : bool :=
  containsJobKeyword (trim (headingText h)) jobKeywords.

Definition titleAsClaimed (d : Document) : option string :=
  match find namesKeyword (h1Elements d) with
  | Some h => Some (trim (headingText h))
  | None =>
      match find (fun h => negb (isH1 h) && namesKeyword h
                           && above (fontSize h) (18 # 1))
                 (headings d) with
      | Some h => Some (trim (headingText h))
      | None => None
      end
  end.

(** The length test of the second scan of [findJobTitle]. *)
Definition titleLength (h : Heading) : bool :=
  (5 <? String.length (trim (headingText h)))%nat
  && (String.length (trim (headingText h)) <? 100)%nat.

(** The confidence values that a layer can assert. *)
Definition ceilings : list Z := [35; 40; 60; 70; 75; 80; 85; 95].

(** *** When detection throws *)

(** The value is a string or is falsy: what [updateField] accepts
    without calling a method that the value does not have. *)
Definition textLike (v : option json) : bool :=
  match v with
  | Some (JStr _) => true
  | Some x => negb (truthy x)
  | None => true
  end.

(** The properties of the chosen posting that reach [updateField] are
    strings (or absent, or falsy), and its location can be parsed. *)
Definition schemaIsText (data : json) : bool :=
  match prop data "hiringOrganization" with
  | Some org => negb (truthy org) || textLike (prop org "name")
  | None => true
  end
  && textLike (prop data "title")
  && match prop data "jobLocation" with
     | Some jobLocation =>
         negb (truthy jobLocation)
         || match parseJobLocation jobLocation with
            | Normal found => textLike (Some found)
            | Throws _ => false
            end
     | None => true
     end
  && textLike (prop data "description").

Definition schemaOk (d : Document) : bool :=
  match findJobPostingSchema d with
  | Some data => schemaIsText data
  | None => true
  end.

(** The documents on which detection runs to its end: the posting is
    text where text is expected, and the document has a body. *)
Definition wellTyped (d : Document) : bool :=
  schemaOk d
  && match bodyText d with Some _ => true | None => false end.

(** Truthiness of a property that may be missing. *)
Definition isTruthy (v : option json) : bool :=
  match v with
  | Some x => truthy x
  | None => false
  end.

(** The document with its failures taken out: blocks that do not parse
    removed, and a selector that the engine rejects answered by [null]. *)
Definition withoutFailures (d : Document) : Document :=
  {| ldJson := filter (fun s => match s with Normal _ => true | Throws _ => false end)
                 (ldJson d);
     metas := metas d;
     title := title d;
     hostname := hostname d;
     querySelector := fun selector =>
                        match querySelector d selector with
                        | InvalidSelector => NoElement
                        | found => found
                        end;
     ariaLabelled := ariaLabelled d;
     headings := headings d;
     bodyText := bodyText d |}.

End Resolution.

(** ** Example pages *)

Module Pages.
Import JsString Regex Json Dom JobDetector Resolution.

Definition newline : string := String (ascii_of_nat 10) EmptyString.

(** A page with a body and nothing on it. *)
Definition emptyPage : Document :=
  {| ldJson := [];
     metas := [];
     title := "";
     hostname := "";
     querySelector := fun _ => NoElement;
     ariaLabelled := [];
     headings := [];
     bodyText := Some "" |}.

Definition withTitleAndHost (pageTitle host : string) : Document :=
  {| ldJson := [];
     metas := [];
     title := pageTitle;
     hostname := host;
     querySelector := fun _ => NoElement;
     ariaLabelled := [];
     headings := [];
     bodyText := Some "" |}.

Definition devOpsPage : Document :=
  withTitleAndHost "DevOps Lead - Acme Careers" "jobs.acme.com".

Definition withStructuredData (blocks : list (completion json)) : Document :=
  {| ldJson := blocks;
     metas := [];
     title := "";
     hostname := "";
     querySelector := fun _ => NoElement;
     ariaLabelled := [];
     headings := [];
     bodyText := Some "" |}.

Definition seniorEngineerPosting : json :=
  JObj [("@type", JStr "JobPosting");
        ("title", JStr "Senior Engineer");
        ("hiringOrganization", JObj [("name", JStr "Acme Corp")]);
        ("jobLocation",
         JObj [("address",
                JObj [("addressLocality", JStr "Austin");
                      ("addressRegion", JStr "TX")])])].

Definition postingPage : Document :=
  withStructuredData [Normal seniorEngineerPosting].

(** A block that is an array with [null] ahead of the posting. *)
Definition nullFirstPage : Document :=
  withStructuredData [Normal (JArr [JNull; seniorEngineerPosting])].

(** A posting whose title is a number. *)
Definition numericTitlePage : Document :=
  withStructuredData
    [Normal (JObj [("@type", JStr "JobPosting"); ("title", JNum true "42")])].

Definition withBody (body : string) : Document :=
  {| ldJson := [];
     metas := [];
     title := "";
     hostname := "";
     querySelector := fun _ => NoElement;
     ariaLabelled := [];
     headings := [];
     bodyText := Some body |}.

Definition joinAcme : string :=
  "Join Acme Inc as a Senior Engineer in Austin, TX".

Definition joinAcmePage : Document := withBody joinAcme.

(** The same sentence after another one that names a city and state. *)
Definition afterBostonPage : Document :=
  withBody ("Offices in Boston, MA. " ++ joinAcme)%string.

Definition withHeadings (hs : list Heading) : Document :=
  {| ldJson := [];
     metas := [];
     title := "";
     hostname := "";
     querySelector := fun _ => NoElement;
     ariaLabelled := [];
     headings := hs;
     bodyText := Some "" |}.

(** Two second-level headings at 20px, the first only four characters
    long. *)
Definition shortHeadingPage : Document :=
  withHeadings
    [{| tagName := H2; headingText := "Lead"; fontSize := Some (20 # 1)%Q |};
     {| tagName := H2; headingText := "Senior Engineer";
        fontSize := Some (20 # 1)%Q |}].

(** A page on which several layers find something. *)
Definition busyPage : Document :=
  {| ldJson := [Throws SyntaxError;
                Normal (JObj [("@type", JStr "Organization");
                              ("name", JStr "Elsewhere Ltd")]);
                Normal (JObj [("@type", JStr "JobPosting");
                              ("title", JStr "  Staff   Engineer ")])];
     metas := [{| property := Some "og:title"; name := None;
                  content := Some "Staff Engineer at Acme | Careers" |};
               {| property := Some "og:site_name"; name := None;
                  content := Some "Acme Careers" |}];
     title := "Staff Engineer - Acme";
     hostname := "careers.acme.example";
     querySelector := fun selector =>
                        if String.eqb selector ".company-name"
                        then Element "Acme Robotics"
                        else if String.eqb selector ".location"
                        then InvalidSelector
                        else NoElement;
     ariaLabelled := [{| ariaLabel := "Job location";
                         labelledText := " Austin, TX " |}];
     headings := [{| tagName := H1; headingText := "Staff Engineer";
                     fontSize := Some (32 # 1)%Q |}];
     bodyText := Some "Staff Engineer. Acme Robotics Inc builds robots in Austin, TX." |}.

End Pages.

(** ** Views of a page *)

Module Views.
Import JsString Regex Json Dom JobDetector Resolution.

(** The separate selectors of a selector string, as [trySelectors] cuts
    it. *)
Definition selectorList (selectors : string) : list string :=
  map trim (split "," selectors).

(** The selector finds an element that has text other than white space. *)
Definition hasText (d : Document) (selector : string) : bool :=
  match querySelector d selector with
  | Element content => negb (allWhiteSpace content)
  | _ => false
  end.

Definition elementText (d : Document) (selector : string) : string :=
  match querySelector d selector with
  | Element content => content
  | _ => EmptyString
  end.

(** A text as a field result. *)
Definition asResult (content : string) (conf : Z) (src : string) : FieldResult :=
  {| value := unwords (words content); confidence := conf; source := src |}.

(** The longest prefix of [s] whose characters all satisfy [p], and
    what follows it. *)
Fixpoint leading (p : ascii -> bool) (s : string) : string :=
  match s with
  | EmptyString => EmptyString
  | String c t => if p c then String c (leading p t) else EmptyString
  end.

Fixpoint after (p : ascii -> bool) (s : string) : string :=
  match s with
  | EmptyString => EmptyString
  | String c t => if p c then after p t else s
  end.

(** The character before the rest of [s] once the leading characters
    that satisfy [p] are read, [before] being the one before [s]. *)
Fixpoint lastRead (p : ascii -> bool) (before : option ascii) (s : string)
  : option ascii :=
  match s with
  | EmptyString => before
  | String c t => if p c then lastRead p (Some c) t else before
  end.

(** The characters that a title's first part is made of: any but the
    hyphen and the bar. *)
Definition titleChar : ascii -> bool := notClass (oneOf "-|").

Definition notDot (c : ascii) : bool := negb (Ascii.eqb c ".").

(** A host name without a leading ["www."]. *)
Definition withoutWww (host : string) : string :=
  if prefix "www." host then substring 4 (String.length host - 4) host
  else host.

(** The source labels that a field can carry, each with the confidence
    that goes with it. *)
Definition layerStamps (f : Field) : list (string * Z) :=
  match f with
  | Company =>
      [("JSON-LD Schema", 95); ("OpenGraph Meta", 85);
       ("Known Site Pattern", 80); ("Semantic HTML", 75); ("ARIA Label", 70);
       ("Text Analysis", 60); ("Domain Name", 35)]
  | JobTitle =>
      [("JSON-LD Schema", 95); ("OpenGraph Meta", 85);
       ("Known Site Pattern", 80); ("Semantic HTML", 75); ("ARIA Label", 70);
       ("Text Analysis", 60); ("Page Title", 40); ("First H1", 35)]
  | Location =>
      [("JSON-LD Schema", 95); ("Known Site Pattern", 80);
       ("Semantic HTML", 75); ("ARIA Label", 70); ("Text Analysis", 60)]
  | Description =>
      [("JSON-LD Schema", 95); ("OpenGraph Meta", 85);
       ("Known Site Pattern", 80); ("Semantic HTML", 70)]
  end.

(** A word: not empty and free of white space. *)
Fixpoint noWhiteSpace (w : string) : bool :=
  match w with
  | EmptyString => true
  | String c t => negb (isWhiteSpace c) && noWhiteSpace t
  end.

Definition isWord (w : string) : bool := negb (isEmpty w) && noWhiteSpace w.

(** The labelled element names the field and has text. *)
Definition labelled (field : Field) (el : Labelled) : bool :=
  labelNames field (toLowerCase (ariaLabel el))
  && negb (allWhiteSpace (labelledText el)).

End Views.

(** ** Numbers in text *)

Module JsNumber.

(** [String(n)], and [n] inside a template literal, for an integer
    [n >= 0]. *)
Definition decimal (n : nat) : string :=
  NilZero.string_of_uint (Nat.to_uint n).

End JsNumber.

(** ** The service worker

    [parseErrorMessage], [isRetryableError] and [retryWithBackoff] of
    [service-worker.js].  The body of a response is the value that
    [response.json()] gave, the status the integer of [response.status]. *)

Module ServiceWorker.
Import JsString Json.

(** The status inside a template literal. *)
Definition statusText (status : nat) : string := JsNumber.decimal status.

(** The value returned is a string, or whatever truthy value the body
    holds under [error.message]; reading [data.error] throws when the
    body is [null]. *)
Definition parseErrorMessage (data : json) (status : nat) : completion json :=
  if (status =? 401)%nat
  then Normal (JStr "Invalid API key. Please check your settings.")
  else if (status =? 404)%nat
  then Normal (JStr "Base or table not found. Please verify your Base ID and Table Name in settings.")
  else if (status =? 403)%nat
  then Normal (JStr "Access denied. Your API key may not have permission to access this base.")
  else if (status =? 422)%nat
  then
    error <- get data "error" ;;
    invalidBody <-
      whenTruthy error
        (fun e => type <- get e "type" ;;
                  Normal (strictEqString type "INVALID_REQUEST_BODY"))
        false ;;
    if invalidBody
    then Normal (JStr "Invalid field names. Ensure your table has these exact fields: Company, Job Title, Location (case-sensitive).")
    else Normal (JStr "Invalid request. Please check your table structure in settings.")
  else if (status =? 429)%nat
  then Normal (JStr "Rate limit exceeded. Please wait a moment and try again.")
  else
    error <- get data "error" ;;
    message <- whenTruthy error (fun e => get e "message") None ;;
    match message with
    | Some m =>
        if truthy m then Normal m
        else Normal (JStr ("Request failed with status " ++ statusText status))
    | None => Normal (JStr ("Request failed with status " ++ statusText status))
    end.

Definition retryablePatterns : list string :=
  ["network error"; "timeout"; "rate limit"; "ECONNRESET"; "ETIMEDOUT"].

(** [error] is [result.error]: [None] when the result has no such
    member.  A truthy value that is not a string has no [toLowerCase],
    and the call throws. *)
Definition isRetryableError (error : option json) : completion bool :=
  match error with
  | None => Normal false
  | Some v =>
      if negb (truthy v) then Normal false
      else match v with
           | JStr s =>
               let errorLower := toLowerCase s in
               Normal (existsb (fun pattern => includes errorLower pattern)
                         retryablePatterns)
           | _ => Throws TypeError
           end
  end.

(** Truthiness of a member that may be missing. *)
Definition isSet (v : option json) : bool :=
  match v with
  | Some x => truthy x
  | None => false
  end.

(** How a call of [fn] ends: with a result, or with an error thrown (a
    promise rejected), of which the loop reads the [message]. *)
Inductive settled : Type :=
| Resolved (result : json)
| Rejected (message : option json).

(** What one turn of the loop decides. *)
Inductive verdict : Type :=
| Return (result : json)
| Retry (lastError : json).

(** [{ success: false, error: message }] *)
Definition failure (message : option json) : json :=
  JObj (("success", JBool false)
          :: match message with
             | Some m => [("error", m)]
             | None => []
             end).

Section Retrying.

(** The message of the [TypeError] that the engine raises inside the
    [try] block, on a result that is [null] or on an [error] that has no
    [toLowerCase]. *)
Variable typeErrorMessage : string.

(** The [n]-th call of [fn], counted from 0: the loop calls [fn]
    without arguments, once per attempt. *)
Variable fn : nat -> settled.

(** The [try] block and its [catch]. *)
Definition attemptOnce (outcome : settled) : verdict :=
  match outcome with
  | Rejected message => Retry (failure message)
  | Resolved result =>
      match (success <- get result "success" ;;
             if isSet success then Normal true
             else error <- get result "error" ;;
                  retryable <- isRetryableError error ;;
                  Normal (negb retryable)) with
      | Normal true => Return result
      | Normal false => Retry result
      | Throws _ => Retry (failure (Some (JStr typeErrorMessage)))
      end
  end.

(** The loop from [attempt] on, with [remaining] turns to go; the
    result comes with the waits made, in milliseconds.  [None] is
    [undefined], the [lastError] that was never assigned. *)
Fixpoint attemptsFrom (maxRetries : nat) (remaining attempt : nat)
  (lastError : option json) (waits : list Z) : option json * list Z :=
  match remaining with
  | O => (lastError, waits)
  | S later =>
      match attemptOnce (fn attempt) with
      | Return result => (Some result, waits)
      | Retry failed =>
          let waits :=
            if Z.of_nat attempt <? Z.of_nat maxRetries - 1
            then waits ++ [2 ^ Z.of_nat attempt * 1000]
            else waits in
          attemptsFrom maxRetries later (S attempt) (Some failed) waits
      end
  end.

Definition retryWithBackoff (maxRetries : nat) : option json * list Z :=
  attemptsFrom maxRetries maxRetries 0 None [].

End Retrying.

End ServiceWorker.

(** ** Draft storage

    [_simpleHash] of [draft-storage.js], on the code units of the
    string. *)

Module DraftStorage.
Import JsString.

(** ToInt32 *)
Definition toInt32 (z : Z) : Z := (z + 2 ^ 31) mod 2 ^ 32 - 2 ^ 31.

(** [a << n] for [0 <= n < 32] *)
Definition shiftLeft (a n : Z) : Z := toInt32 (Z.shiftl (toInt32 a) n).

(** [a & b] *)
Definition bitAnd (a b : Z) : Z := Z.land (toInt32 a) (toInt32 b).

Fixpoint hashFrom (hash : Z) (str : string) : Z :=
  match str with
  | EmptyString => hash
  | String c t =>
      let char := Z.of_N (code c) in
      let hash := (shiftLeft hash 5 - hash) + char in
      let hash := bitAnd hash hash in
      hashFrom hash t
  end.

(** A digit of [toString(36)]: [0-9] then [a-z]. *)
Definition digit36 (d : Z) : ascii :=
  if d <? 10 then ascii_of_N (Z.to_N (48 + d)) else ascii_of_N (Z.to_N (87 + d)).

Fixpoint digits36 (fuel : nat) (n : Z) (printed : string) : string :=
  match fuel with
  | O => printed
  | S fuel =>
      let printed := String (digit36 (n mod 36)) printed in
      if n / 36 =? 0 then printed else digits36 fuel (n / 36) printed
  end.

(** [n.toString(36)] for an integer [n >= 0]; a number has no more
    digits in base 36 than it has bits. *)
Definition toString36 (n : Z) : string :=
  digits36 (S (Z.to_nat (Z.log2 n))) n "".

(** The number that a numeral of base 36 denotes, as [parseInt(s, 36)]
    reads the digits [0-9] and [a-z]. *)
Definition digitValue (c : ascii) : Z :=
  if isDigit c then Z.of_N (code c) - 48 else Z.of_N (code c) - 87.

Fixpoint numberFrom (read : Z) (s : string) : Z :=
  match s with
  | EmptyString => read
  | String c t => numberFrom (read * 36 + digitValue c) t
  end.

Definition _simpleHash (str : string) : string :=
  toString36 (Z.abs (hashFrom 0 str)).

(** [_getStorageKey], from the address that [_normalizeUrl] returned. *)
Definition _getStorageKey (normalized : string) : string :=
  "draft_" ++ _simpleHash normalized.

End DraftStorage.

(** ** The form page

    [showForm] and [handleSubmit] of [form.js]: what the form holds
    once the detected data are shown, and what is sent from it. *)

Module FormPage.
Import JsString Json JobDetector.

(** [value || ''] on a string *)
Definition orEmpty (value : string) : string :=
  if isEmpty value then "" else value.

(** The four inputs as [showForm] fills them. *)
Definition showForm (data : DetectionOutput) : PerField string :=
  {| company := orEmpty (company (values data));
     jobTitle := orEmpty (jobTitle (values data));
     location := orEmpty (location (values data));
     description := orEmpty (description (values data)) |}.

(** [s.padStart(target, fill)] for a one-character [fill] *)
Definition padStart (target : nat) (fill : ascii) (s : string) : string :=
  string_of_list_ascii (repeat fill (target - String.length s)) ++ s.

(** What [handleSubmit] reads of [new Date()]: [getFullYear()],
    [getMonth()] (from 0), [getDate()], [getHours()], [getMinutes()] and
    [getSeconds()]. *)
Record Clock : Type := {
  fullYear : nat;
  month : nat;
  date : nat;
  hours : nat;
  minutes : nat;
  seconds : nat
}.

Definition lastUpdated (now : Clock) : string :=
  let year := JsNumber.decimal (fullYear now) in
  let month := padStart 2 "0" (JsNumber.decimal (month now + 1)) in
  let day := padStart 2 "0" (JsNumber.decimal (date now)) in
  let hours := padStart 2 "0" (JsNumber.decimal (hours now)) in
  let minutes := padStart 2 "0" (JsNumber.decimal (minutes now)) in
  let seconds := padStart 2 "0" (JsNumber.decimal (seconds now)) in
  year ++ "-" ++ month ++ "-" ++ day ++ " " ++ hours ++ ":" ++ minutes
    ++ ":" ++ seconds.

(** The two digits of a number below 100. *)
Definition twoDigits (n : nat) : string :=
  String (ascii_of_nat (48 + n / 10))
    (String (ascii_of_nat (48 + n mod 10)) EmptyString).

(** What a submission comes to: the status shown when a required field
    is missing, or the record sent to the service worker. *)
Inductive submitted : Type :=
| Refused (status : string)
| Sent (data : json).

(** [jobId] is what [crypto.randomUUID()] returned, [currentUrl] the
    address of the active tab, or the empty string without one. *)
Definition handleSubmit (jobId : string) (now : Clock) (currentUrl : string)
  (form : PerField string) : submitted :=
  let company := trim (company form) in
  let jobTitle := trim (jobTitle form) in
  let location := trim (location form) in
  let description := trim (description form) in
  if isEmpty company || isEmpty jobTitle || isEmpty location
  then Refused "Please fill in required fields"
  else
    let data :=
      [("JobID", JStr jobId);
       ("Company", JStr company);
       ("Title", JStr jobTitle);
       ("Location", JStr location);
       ("Status", JStr "New");
       ("Last Updated", JStr (lastUpdated now));
       ("Score", JNum false "0");
       ("Source", JStr "Browser");
       ("Link", JStr currentUrl)] in
    Sent (JObj (if isEmpty description then data
                else data ++ [("Summary", JStr description)])).

End FormPage.

(** ** The options page

    [saveSettings] of [options.js], up to the call that stores the
    settings. *)

Module Options.
Import JsString Regex JobDetector.

(** [/^app[a-zA-Z0-9]{14}$/] *)
Definition baseIdPattern : regex :=
  seqs [Bol; lit "app";
        Repeat true 14 (Some 14%nat)
          (Char (orClass (orClass isLower isUpper) isDigit));
        Eol].

(** A character of [[a-zA-Z0-9]]. *)
Definition isAlnum : ascii -> bool := orClass (orClass isLower isUpper) isDigit.

(** What is left of [s] after exactly [n] characters of the class [p],
    with the last character read. *)
Fixpoint counted (p : ascii -> bool) (n : nat) (before : option ascii)
  (s : string) : option (option ascii * string) :=
  match n with
  | O => Some (before, s)
  | S n' =>
      match s with
      | String c t => if p c then counted p n' (Some c) t else None
      | EmptyString => None
      end
  end.

(** The status shown for an input that is refused, or the settings
    handed to [StorageHelper.saveSettings]. *)
Inductive saving : Type :=
| Invalid (status : string)
| Store (apiKey baseId tableName : string).

Definition saveSettings (apiKeyInput baseIdInput tableNameInput : string)
  : saving :=
  let apiKey := trim apiKeyInput in
  let baseId := trim baseIdInput in
  let tableName := trim tableNameInput in
  if isEmpty apiKey || isEmpty baseId || isEmpty tableName
  then Invalid "Please fill in all fields"
  else if negb (test baseIdPattern baseId)
  then Invalid ("Invalid Base ID format. Should start with " ++ dq ++ "app"
                  ++ dq ++ " followed by 14 characters")
  else Store apiKey baseId tableName.

End Options.

(** ** A page of a known site *)

Module SitePages.
Import JsString Json Dom JobDetector.

(** A LinkedIn posting with a title in the top card and nothing else. *)
Definition linkedinPage : Document :=
  {| ldJson := [];
     metas := [];
     title := "";
     hostname := "www.LinkedIn.com";
     querySelector := fun selector =>
                        if String.eqb selector ".topcard__title"
                        then Element " Data  Engineer "
                        else NoElement;
     ariaLabelled := [];
     headings := [];
     bodyText := Some "" |}.

End SitePages.

Set Implicit Arguments.

(** ** Drafts

    The drafts of [draft-storage.js] and their use in [form.js], over
    the local storage of the extension as a map from keys to stored
    values.  A call of the storage that is rejected is caught by the
    source, [saveDraft] and [clearDraft] then answering [false] and
    [getDraft] answering [null]; [accepted] tells whether the call a
    function makes goes through. *)

Module Drafts.
Import JsString Json JobDetector DraftStorage FormPage.

Definition Storage : Type := string -> option json.

(** [chrome.storage.local.set({ [key]: value })] *)
Definition set (key : string) (v : json) (stored : Storage) : Storage :=
  fun k => if String.eqb k key then Some v else stored k.

(** [chrome.storage.local.remove(key)] *)
Definition remove (key : string) (stored : Storage) : Storage :=
  fun k => if String.eqb k key then None else stored k.

(** [chrome.storage.local.remove(keys)] for the keys that [drop]
    selects. *)
Definition removeAll (drop : string -> bool) (stored : Storage) : Storage :=
  fun k => if drop k then None else stored k.

(** [{ company, jobTitle, location, description }] *)
Definition formObject (form : PerField string) : json :=
  JObj [("company", JStr (company form));
        ("jobTitle", JStr (jobTitle form));
        ("location", JStr (location form));
        ("description", JStr (description form))].

Section Addresses.

(** [_normalizeUrl]: the address without query and fragment, as the
    [URL] of the browser parses it, or the address itself when it does
    not parse. *)
Variable _normalizeUrl : string -> string.

Definition keyOf (url : string) : string :=
  _getStorageKey (_normalizeUrl url).

(** [timestamp] is [new Date().toISOString()]. *)
Definition saveDraft (accepted : bool) (timestamp : string) (url : string)
  (formData confidence : json) (stored : Storage) : bool * Storage :=
  let key := keyOf url in
  let draft := JObj [("url", JStr url);
                     ("timestamp", JStr timestamp);
                     ("formData", formData);
                     ("confidence", confidence)] in
  if accepted then (true, set key draft stored) else (false, stored).

(** [None] is [null]. *)
Definition getDraft (accepted : bool) (url : string) (stored : Storage)
  : option json :=
  let key := keyOf url in
  if accepted
  then match stored key with
       | Some v => if truthy v then Some v else None
       | None => None
       end
  else None.

Definition clearDraft (accepted : bool) (url : string) (stored : Storage)
  : bool * Storage :=
  let key := keyOf url in
  if accepted then (true, remove key stored) else (false, stored).

Definition clearAllDrafts (accepted : bool) (stored : Storage)
  : bool * Storage :=
  if accepted then (true, removeAll (prefix "draft_") stored)
  else (false, stored).

(** [saveCurrentDraft] of the form page: [currentUrl] is [None] for
    [null]; [confidence] is [detectedData?.confidence], [JNull] when
    there is none. *)
Definition saveCurrentDraft (accepted : bool) (timestamp : string)
  (currentUrl : option string) (form : PerField string) (confidence : json)
  (stored : Storage) : Storage :=
  match currentUrl with
  | None => stored
  | Some url =>
      if isEmpty url then stored
      else
        let hasData :=
          existsb (fun val => negb (isEmpty (trim val)))
            [company form; jobTitle form; location form; description form] in
        if hasData
        then snd (saveDraft accepted timestamp url (formObject form)
                    confidence stored)
        else stored
  end.

(** A member of the stored form, as [restoreDraft] writes it into an
    input: [formData.field || ''].  A stored form holds strings. *)
Definition restored (formData : json) (field : string) : completion string :=
  value <- get formData field ;;
  match value with
  | Some (JStr s) => Normal (orEmpty s)
  | Some v => if truthy v then s <- toString v ;; Normal s else Normal ""
  | None => Normal ""
  end.

(** [restoreDraft]: the inputs it fills, or [None] when it leaves the
    form as it is. *)
Definition restoreDraft (accepted : bool) (currentUrl : option string)
  (stored : Storage) : completion (option (PerField string)) :=
  match currentUrl with
  | None => Normal None
  | Some url =>
      if isEmpty url then Normal None
      else
        match getDraft accepted url stored with
        | None => Normal None
        | Some draft =>
            formData <- get draft "formData" ;;
            match formData with
            | None => Normal None
            | Some data =>
                if truthy data
                then
                  company <- restored data "company" ;;
                  jobTitle <- restored data "jobTitle" ;;
                  location <- restored data "location" ;;
                  description <- restored data "description" ;;
                  Normal (Some (Build_PerField company jobTitle location
                                  description))
                else Normal None
            end
        end
  end.

End Addresses.

End Drafts.

(** * Properties *)

Import JsString Regex Json Dom JobDetector Resolution Pages Views.

Unset Implicit Arguments.

(** ** White space *)


Lemma trimEnd_empty (s : string) :
  trimEnd s = EmptyString <-> allWhiteSpace s = true.
Proof.
  induction s as [|c t IH]; simpl.
  - tauto.
  - destruct (trimEnd t) eqn:E.
    + destruct (isWhiteSpace c); simpl.
      * tauto.
      * split; discriminate.
    + split; [discriminate|].
      rewrite andb_true_iff. intros [_ H]. apply IH in H. discriminate.
Qed.

Lemma trimEnd_cons (c : ascii) (t : string) :
  trimEnd (String c t) =
  if isWhiteSpace c && allWhiteSpace t then EmptyString
  else String c (trimEnd t).
Proof.
  simpl. destruct (allWhiteSpace t) eqn:W.
  - apply trimEnd_empty in W. rewrite W, andb_true_r.
    destruct (isWhiteSpace c); reflexivity.
  - rewrite andb_false_r. destruct (trimEnd t) eqn:E; [|reflexivity].
    apply trimEnd_empty in E. congruence.
Qed.

Lemma allWhiteSpace_trimStart (s : string) :
  allWhiteSpace (trimStart s) = allWhiteSpace s.
Proof.
  induction s as [|c t IH]; simpl; [reflexivity|].
  destruct (isWhiteSpace c) eqn:W; simpl; [assumption|].
  rewrite W. reflexivity.
Qed.

Lemma allWhiteSpace_trimEnd (s : string) :
  allWhiteSpace (trimEnd s) = allWhiteSpace s.
Proof.
  induction s as [|c t IH]; [reflexivity|].
  rewrite trimEnd_cons. simpl.
  destruct (isWhiteSpace c) eqn:W; simpl.
  - destruct (allWhiteSpace t) eqn:A; simpl; [reflexivity|].
    rewrite W. simpl. rewrite IH. reflexivity.
  - rewrite W. reflexivity.
Qed.

Lemma isBlank_allWhiteSpace (s : string) : isBlank s = allWhiteSpace s.
Proof.
  unfold isBlank, trim.
  rewrite <- allWhiteSpace_trimStart.
  destruct (allWhiteSpace (trimStart s)) eqn:A.
  - apply trimEnd_empty in A. rewrite A. reflexivity.
  - destruct (trimEnd (trimStart s)) eqn:E; [|reflexivity].
    apply trimEnd_empty in E. congruence.
Qed.

Lemma pieces_not_nil (s : string) : pieces s <> [].
Proof.
  induction s as [|c t IH]; simpl; [discriminate|].
  destruct (isWhiteSpace c); [discriminate|].
  destruct (pieces t); discriminate.
Qed.

Lemma pieces_split (s : string) : pieces s = firstPiece s :: tl (pieces s).
Proof.
  unfold firstPiece. destruct (pieces s) eqn:E; [|reflexivity].
  exfalso. exact (pieces_not_nil s E).
Qed.

Lemma words_split (s : string) :
  words s = if isEmpty (firstPiece s) then laterWords s
            else firstPiece s :: laterWords s.
Proof.
  unfold words, laterWords. rewrite pieces_split at 1. simpl.
  destruct (isEmpty (firstPiece s)); reflexivity.
Qed.

Lemma firstPiece_cons (c : ascii) (t : string) :
  firstPiece (String c t) =
  if isWhiteSpace c then EmptyString else String c (firstPiece t).
Proof.
  unfold firstPiece. simpl. destruct (isWhiteSpace c); [reflexivity|].
  rewrite (pieces_split t). reflexivity.
Qed.

Lemma laterWords_cons (c : ascii) (t : string) :
  laterWords (String c t) = if isWhiteSpace c then words t else laterWords t.
Proof.
  unfold laterWords, words. simpl. destruct (isWhiteSpace c); [reflexivity|].
  rewrite (pieces_split t). reflexivity.
Qed.

Lemma words_allWhiteSpace (s : string) :
  allWhiteSpace s = true -> words s = [].
Proof.
  induction s as [|c t IH]; [reflexivity|].
  simpl. rewrite andb_true_iff. intros [W A].
  rewrite words_split, firstPiece_cons, laterWords_cons, W. simpl. auto.
Qed.

Lemma words_not_allWhiteSpace (s : string) :
  allWhiteSpace s = false -> words s <> [].
Proof.
  induction s as [|c t IH]; [discriminate|].
  simpl. rewrite words_split, firstPiece_cons, laterWords_cons.
  destruct (isWhiteSpace c); simpl; [assumption|discriminate].
Qed.

Lemma unwords_cons (w : string) (ws : list string) :
  unwords (w :: ws) = (w ++ spaced ws)%string.
Proof.
  unfold unwords, spaced. destruct ws; simpl.
  - induction w; simpl; congruence.
  - reflexivity.
Qed.

Lemma replaceRuns_trimEnd (s : string) :
  replaceRuns true (trimEnd s) = unwords (words s)
  /\ replaceRuns false (trimEnd s) = (firstPiece s ++ spaced (laterWords s))%string.
Proof.
  induction s as [|c t [IHt IHf]]; [split; reflexivity|].
  rewrite trimEnd_cons, words_split, firstPiece_cons, laterWords_cons.
  destruct (isWhiteSpace c) eqn:W; simpl.
  - destruct (allWhiteSpace t) eqn:A; simpl.
    + rewrite (words_allWhiteSpace t A). split; reflexivity.
    + rewrite W. split; [assumption|].
      rewrite IHt. unfold spaced.
      destruct (words t) eqn:E; [|reflexivity].
      exfalso. exact (words_not_allWhiteSpace t A E).
  - rewrite W, IHf, unwords_cons. simpl. split; reflexivity.
Qed.

Lemma replaceRuns_trim (s : string) :
  replaceRuns false (trimEnd (trimStart s)) = replaceRuns true (trimEnd s).
Proof.
  induction s as [|c t IH]; [reflexivity|].
  cbn [trimStart]. destruct (isWhiteSpace c) eqn:W.
  - rewrite IH, trimEnd_cons, W. destruct (allWhiteSpace t) eqn:A.
    + apply trimEnd_empty in A. rewrite A. reflexivity.
    + cbn [andb replaceRuns]. rewrite W. reflexivity.
  - rewrite trimEnd_cons, W. cbn [andb replaceRuns]. rewrite W. reflexivity.
Qed.

(** Trimming and collapsing is cutting into words and joining them. *)
Lemma cleanValue_words (s : string) : cleanValue s = unwords (words s).
Proof.
  unfold cleanValue, collapseWhiteSpace, trim.
  rewrite replaceRuns_trim. apply replaceRuns_trimEnd.
Qed.

Lemma words_trimStart (s : string) : words (trimStart s) = words s.
Proof.
  induction s as [|c t IH]; [reflexivity|].
  simpl trimStart. destruct (isWhiteSpace c) eqn:W; [|reflexivity].
  rewrite IH, (words_split (String c t)), firstPiece_cons, laterWords_cons, W.
  reflexivity.
Qed.

Lemma words_trimEnd (s : string) : words (trimEnd s) = words s.
Proof.
  rewrite !words_split.
  assert (H : firstPiece (trimEnd s) = firstPiece s
              /\ laterWords (trimEnd s) = laterWords s).
  { induction s as [|c t [IH1 IH2]]; [split; reflexivity|].
    rewrite trimEnd_cons.
    destruct (isWhiteSpace c) eqn:W; simpl.
    - destruct (allWhiteSpace t) eqn:A; simpl.
      + rewrite firstPiece_cons, laterWords_cons, W.
        rewrite (words_allWhiteSpace t A). split; reflexivity.
      + rewrite !firstPiece_cons, !laterWords_cons, W.
        split; [reflexivity|].
        rewrite !words_split, IH1, IH2. reflexivity.
    - rewrite !firstPiece_cons, !laterWords_cons, W, IH1, IH2.
      split; reflexivity. }
  destruct H as [-> ->]. reflexivity.
Qed.

Lemma words_trim (s : string) : words (trim s) = words s.
Proof. unfold trim. rewrite words_trimEnd. apply words_trimStart. Qed.

Lemma allWhiteSpace_trim (s : string) : allWhiteSpace (trim s) = allWhiteSpace s.
Proof.
  unfold trim. rewrite allWhiteSpace_trimEnd. apply allWhiteSpace_trimStart.
Qed.

Lemma isEmpty_length (s : string) : (String.length s =? 0)%nat = isEmpty s.
Proof. destruct s; reflexivity. Qed.

Lemma isEmpty_trim (s : string) : isEmpty (trim s) = allWhiteSpace s.
Proof. exact (isBlank_allWhiteSpace s). Qed.

(** ** The reducer *)

Lemma better_confidence (cur c : FieldResult) :
  confidence (better cur c) = Z.max (confidence cur) (confidence c).
Proof.
  unfold better. destruct (Z.gtb_spec (confidence c) (confidence cur)); lia.
Qed.

Lemma max_fold_shift (x a : Z) (l : list Z) :
  fold_right Z.max (Z.max x a) l = Z.max a (fold_right Z.max x l).
Proof. induction l as [|b l IH]; simpl; lia. Qed.

Lemma fold_better_confidence (finds : list FieldResult) (cur : FieldResult) :
  confidence (fold_left better finds cur)
  = fold_right Z.max (confidence cur) (map confidence finds).
Proof.
  revert cur. induction finds as [|a l IH]; intros cur; simpl; [reflexivity|].
  rewrite IH, better_confidence. apply max_fold_shift.
Qed.

Lemma fold_max_ge (b : Z) (l : list Z) : b <= fold_right Z.max b l.
Proof. induction l; simpl; lia. Qed.

Lemma fold_better_monotone (finds : list FieldResult) (cur : FieldResult) :
  confidence cur <= confidence (fold_left better finds cur).
Proof. rewrite fold_better_confidence. apply fold_max_ge. Qed.

Lemma fold_better_keep (finds : list FieldResult) (cur : FieldResult) :
  (forall c, In c finds -> confidence c <= confidence cur) ->
  fold_left better finds cur = cur.
Proof.
  induction finds as [|a l IH]; intros H; simpl; [reflexivity|].
  assert (E : better cur a = cur).
  { unfold better. specialize (H a (or_introl eq_refl)).
    destruct (Z.gtb_spec (confidence a) (confidence cur)); [lia|reflexivity]. }
  rewrite E. apply IH. intros c Hc. apply H. right. exact Hc.
Qed.

Lemma fold_better_in (finds : list FieldResult) (cur : FieldResult) :
  fold_left better finds cur = cur \/ In (fold_left better finds cur) finds.
Proof.
  revert cur. induction finds as [|a l IH]; intros cur; simpl; [left; reflexivity|].
  destruct (IH (better cur a)) as [E|E].
  - rewrite E. unfold better.
    destruct (confidence a >? confidence cur); [right; left|left]; reflexivity.
  - right. right. exact E.
Qed.

Lemma max_attained (b : Z) (l : list FieldResult) :
  fold_right Z.max b (map confidence l) = b
  \/ exists c, In c l /\ confidence c = fold_right Z.max b (map confidence l).
Proof.
  induction l as [|a l IH]; simpl; [left; reflexivity|].
  destruct (Z.max_spec (confidence a) (fold_right Z.max b (map confidence l)))
    as [[_ E]|[_ E]]; rewrite E.
  - destruct IH as [IH|[c [Hc Ec]]]; [left; exact IH|].
    right. exists c. split; [right; exact Hc|exact Ec].
  - right. exists a. split; [left; reflexivity|reflexivity].
Qed.

Lemma find_max_some (b : Z) (l : list FieldResult) :
  fold_right Z.max b (map confidence l) <> b ->
  find (fun c => confidence c =? fold_right Z.max b (map confidence l)) l <> None.
Proof.
  intros H E. destruct (max_attained b l) as [A|[c [Hc Ec]]]; [congruence|].
  apply (find_none _ _ E) in Hc. simpl in Hc. lia.
Qed.

(** The reducer returns the current result when nothing exceeds it, and
    otherwise the first find of the highest confidence. *)
Lemma fold_better_first (finds : list FieldResult) (cur : FieldResult) :
  fold_left better finds cur =
  let m := fold_right Z.max (confidence cur) (map confidence finds) in
  if confidence cur =? m then cur
  else match find (fun c => confidence c =? m) finds with
       | Some c => c
       | None => cur
       end.
Proof.
  revert cur. induction finds as [|a l IH]; intros cur.
  - simpl. rewrite Z.eqb_refl. reflexivity.
  - cbn [fold_left]. rewrite IH. cbn zeta.
    rewrite better_confidence, max_fold_shift.
    cbn [map fold_right find].
    set (m := Z.max (confidence a) (fold_right Z.max (confidence cur) (map confidence l))).
    assert (Hge := fold_max_ge (confidence cur) (map confidence l)).
    unfold better at 1 2.
    assert (F := find_max_some (confidence cur) l).
    destruct (Z.gtb_spec (confidence a) (confidence cur)) as [Hgt|Hle];
      destruct (Z.eqb_spec (Z.max (confidence cur) (confidence a)) m);
      destruct (Z.eqb_spec (confidence cur) m);
      destruct (Z.eqb_spec (confidence a) m);
      try lia; try reflexivity.
    assert (Hm : m = fold_right Z.max (confidence cur) (map confidence l)) by lia.
    rewrite <- Hm in F.
    destruct (find (fun c => confidence c =? m) l); [reflexivity|].
    exfalso. apply F; [lia|reflexivity].
Qed.

Lemma resolve_confidence (finds : list FieldResult) :
  confidence (resolve finds) = maxConfidence finds.
Proof. unfold resolve. rewrite fold_better_confidence. reflexivity. Qed.

Lemma resolve_winner (finds : list FieldResult) :
  (forall c, In c finds -> 0 < confidence c) ->
  resolve finds = winner finds.
Proof.
  intros Hpos. unfold resolve, winner, maxConfidence.
  rewrite fold_better_first. cbn zeta. change (confidence undetected) with 0.
  destruct (Z.eqb_spec 0 (fold_right Z.max 0 (map confidence finds))) as [E|N].
  - rewrite <- E.
    destruct (find (fun c => confidence c =? 0) finds) as [c|] eqn:F; [|reflexivity].
    apply find_some in F. destruct F as [Hc Ec]. apply Hpos in Hc. lia.
  - reflexivity.
Qed.

(** ** Results, field by field *)

Lemma at_merge (r : Results) (finds : Field -> list FieldResult) (f : Field) :
  at_ (merge r finds) f = fold_left better (finds f) (at_ r f).
Proof. destruct f; reflexivity. Qed.

Lemma merge_ext (r : Results) (g h : Field -> list FieldResult) :
  (forall f, g f = h f) -> merge r g = merge r h.
Proof. intros E. unfold merge. rewrite !E. reflexivity. Qed.

Lemma merge_merge (r : Results) (g h : Field -> list FieldResult) :
  merge (merge r g) h = merge r (fun f => g f ++ h f).
Proof. unfold merge. simpl. rewrite !fold_left_app. reflexivity. Qed.

Lemma merge_nothing (r : Results) : merge r (fun _ => []) = r.
Proof. destruct r; reflexivity. Qed.

Lemma merge_only_nothing (r : Results) (f : Field) : merge r (only f []) = r.
Proof. destruct r, f; reflexivity. Qed.

Lemma assign_merge (r : Results) (f : Field) (c : FieldResult) :
  assign r f (better (at_ r f) c) = merge r (only f [c]).
Proof. destruct r, f; reflexivity. Qed.

(** ** updateField *)

Lemma matched_blank (s : string) (c : Z) (src : string) :
  allWhiteSpace s = true -> matched s c src = [].
Proof. unfold matched. intros ->. reflexivity. Qed.

Lemma matched_trim (s : string) (c : Z) (src : string) :
  matched (trim s) c src = matched s c src.
Proof. unfold matched. rewrite allWhiteSpace_trim, words_trim. reflexivity. Qed.

Lemma updateField_text (r : Results) (f : Field) (s : string) (c : Z) (src : string) :
  updateField r f (JStr s) c src = Normal (merge r (only f (matched s c src))).
Proof.
  unfold updateField, matched. simpl truthy. rewrite negb_involutive.
  destruct s as [|a t] eqn:Es.
  - simpl. rewrite merge_only_nothing. reflexivity.
  - rewrite <- Es. replace (isEmpty s) with false by (subst; reflexivity).
    rewrite isEmpty_length, isEmpty_trim.
    destruct (allWhiteSpace s); [rewrite merge_only_nothing; reflexivity|].
    rewrite cleanValue_words, <- assign_merge. unfold better. simpl confidence.
    destruct (c >? confidence (at_ r f)); [reflexivity|].
    destruct r, f; reflexivity.
Qed.

Lemma matched_confidence (s : string) (c : Z) (src : string) (x : FieldResult) :
  In x (matched s c src) -> confidence x = c.
Proof.
  unfold matched. destruct (allWhiteSpace s); simpl; [tauto|].
  intros [<-|[]]. reflexivity.
Qed.

Lemma matchedIf_confidence (o : option string) (c : Z) (src : string) (x : FieldResult) :
  In x (matchedIf o c src) -> confidence x = c.
Proof. destruct o; simpl; [apply matched_confidence|tauto]. Qed.

Lemma merge_only_keep (r : Results) (f : Field) (finds : list FieldResult) :
  (forall x, In x finds -> confidence x <= confidence (at_ r f)) ->
  merge r (only f finds) = r.
Proof.
  intros H. destruct r, f; unfold merge, only; simpl in *;
    rewrite (fold_better_keep _ _ H); reflexivity.
Qed.

(** An update behind a gate [confidence < g] is the update itself when
    the gate is not below the confidence asserted. *)
Lemma gated_update (r : Results) (f : Field) (s : string) (c g : Z) (src : string) :
  c <= g ->
  (if confidence (at_ r f) <? g then updateField r f (JStr s) c src else Normal r)
  = Normal (merge r (only f (matched s c src))).
Proof.
  intros Hg. rewrite updateField_text.
  destruct (Z.ltb_spec (confidence (at_ r f)) g) as [_|Hge]; [reflexivity|].
  rewrite merge_only_keep; [reflexivity|].
  intros x Hx. apply matched_confidence in Hx. lia.
Qed.

Lemma only_app (f : Field) (a b : list FieldResult) (g : Field) :
  only f a g ++ only f b g = only f (a ++ b) g.
Proof. unfold only. destruct (sameField f g); reflexivity. Qed.

Lemma merge_only_app (r : Results) (f : Field) (a b : list FieldResult) :
  merge r (only f (a ++ b)) = merge (merge r (only f a)) (only f b).
Proof.
  rewrite merge_merge. apply merge_ext. intros g. symmetry. apply only_app.
Qed.

Lemma at_merge_only (r : Results) (f : Field) (finds : list FieldResult) :
  at_ (merge r (only f finds)) f = fold_left better finds (at_ r f).
Proof. rewrite at_merge. unfold only. destruct f; reflexivity. Qed.

(** ** Selectors *)

Lemma selectorFinds_confidence d c src l x :
  In x (flat_map (selectorFinds d c src) l) -> confidence x = c.
Proof.
  rewrite in_flat_map. intros [s [_ H]]. unfold selectorFinds in H.
  destruct (querySelector d s); simpl in H; try tauto.
  exact (matched_confidence _ _ _ _ H).
Qed.

Lemma trySelectorList_merge d r f l c src :
  confidence (at_ r f) < c ->
  trySelectorList d r f l c src
  = merge r (only f (flat_map (selectorFinds d c src) l)).
Proof.
  intros Hlt. induction l as [|s l IH]; simpl.
  - rewrite merge_only_nothing. reflexivity.
  - unfold selectorFinds at 1.
    destruct (querySelector d s) as [content| |]; simpl; try exact IH.
    rewrite isEmpty_trim, updateField_text, matched_trim.
    destruct (allWhiteSpace content) eqn:W.
    { rewrite (matched_blank _ _ _ W). exact IH. }
    set (x := {| value := unwords (words content); confidence := c; source := src |}).
    assert (M : matched content c src = [x])
      by (unfold matched; rewrite W; reflexivity).
    rewrite M.
    assert (E : at_ (merge r (only f [x])) f = x).
    { rewrite at_merge_only. simpl. unfold better. simpl.
      destruct (Z.gtb_spec c (confidence (at_ r f))); [reflexivity|lia]. }
    rewrite E. simpl confidence.
    destruct (Z.geb_spec c c); [|lia].
    rewrite merge_only_app. symmetry. apply merge_only_keep.
    intros y Hy. rewrite E. apply selectorFinds_confidence in Hy. simpl. lia.
Qed.

Lemma trySelectors_merge d r f selectors c src :
  trySelectors d r f selectors c src
  = merge r (only f (selectorMatches d selectors c src)).
Proof.
  unfold trySelectors, selectorMatches.
  destruct (Z.geb_spec (confidence (at_ r f)) c) as [Hge|Hlt].
  - symmetry. apply merge_only_keep. intros x Hx.
    apply selectorFinds_confidence in Hx. lia.
  - apply trySelectorList_merge. exact Hlt.
Qed.

(** ** ARIA labels *)

Lemma gated_update_if (r : Results) (f : Field) (s : string) (c : Z)
  (src : string) (cond : bool) :
  (if cond && (confidence (at_ r f) <? c)
   then updateField r f (JStr s) c src else Normal r)
  = Normal (merge r (only f (if cond then matched s c src else []))).
Proof.
  destruct cond; simpl.
  - apply gated_update. lia.
  - rewrite merge_only_nothing. reflexivity.
Qed.

Ltac gate :=
  match goal with
  | |- context [?cond && (confidence (at_ ?r ?f) <? ?c)] =>
      match goal with
      | |- context [updateField r f (JStr ?s) c ?src] =>
          let G := fresh in
          pose proof (gated_update_if r f s c src cond) as G;
          rewrite G; clear G
      end
  end.

Lemma tryAriaElements_merge (els : list Labelled) (r : Results) :
  tryAriaElements els r
  = Normal (merge r (fun f => flat_map (ariaFinds f) els)).
Proof.
  revert r. induction els as [|el els IH]; intros r; simpl.
  - rewrite merge_nothing. reflexivity.
  - rewrite isEmpty_trim.
    destruct (allWhiteSpace (labelledText el)) eqn:W.
    + rewrite IH. f_equal. apply merge_ext. intros f. unfold ariaFinds at 2.
      rewrite (matched_blank _ _ _ W).
      destruct (labelNames f _); reflexivity.
    + change (confidence (company r)) with (confidence (at_ r Company)).
      gate. cbv beta iota delta [bind].
      set (r1 := merge r _).
      change (confidence (jobTitle r1)) with (confidence (at_ r1 JobTitle)).
      gate. cbv beta iota delta [bind].
      set (r2 := merge r1 _).
      change (confidence (location r2)) with (confidence (at_ r2 Location)).
      gate. cbv beta iota delta [bind].
      rewrite IH. subst r2 r1. rewrite !merge_merge. f_equal.
      apply merge_ext. intros f. rewrite !matched_trim.
      destruct f; unfold ariaFinds, labelNames, only; simpl;
        rewrite ?app_nil_r; reflexivity.
Qed.

Lemma sitePattern_description d p :
  sitePatternOf d = Some p -> isEmpty (descriptionSelectors p) = false.
Proof.
  unfold sitePatternOf.
  destruct (includes _ "linkedin.com"); [intros [= <-]; reflexivity|].
  destruct (includes _ "indeed.com"); [intros [= <-]; reflexivity|].
  destruct (includes _ "glassdoor.com"); [intros [= <-]; reflexivity|].
  discriminate.
Qed.

Lemma only_same (f : Field) (a : list FieldResult) : only f a f = a.
Proof. destruct f; reflexivity. Qed.

Lemma only_other (f g : Field) (a : list FieldResult) :
  sameField f g = false -> only f a g = [].
Proof. unfold only. intros ->. reflexivity. Qed.

Lemma ariaMatches_flat (d : Document) (f : Field) :
  flat_map (ariaFinds f) (ariaLabelled d) = ariaMatches d f.
Proof. reflexivity. Qed.

Ltac pointwise :=
  repeat (rewrite only_same
          || (rewrite only_other by reflexivity)
          || rewrite app_nil_r
          || rewrite app_nil_l);
  rewrite ?ariaMatches_flat, <- ?app_assoc.

Lemma semantic_finds d r (p : SitePattern) :
  merge
    (merge
       (merge
          (merge
             (merge
                (merge
                   (merge
                      (merge r (only Company (selectorMatches d (companySelectors p) 80 "Known Site Pattern")))
                      (only JobTitle (selectorMatches d (jobTitleSelectors p) 80 "Known Site Pattern")))
                   (only Location (selectorMatches d (locationSelectors p) 80 "Known Site Pattern")))
                (only Description (selectorMatches d (descriptionSelectors p) 80 "Known Site Pattern")))
             (only Company (selectorMatches d genericCompany 75 "Semantic HTML")))
          (only JobTitle (selectorMatches d genericJobTitle 75 "Semantic HTML")))
       (only Location (selectorMatches d genericLocation 75 "Semantic HTML")))
    (only Description (selectorMatches d genericDescription 70 "Semantic HTML"))
  = merge r (fun f => selectorMatches d (siteSelectors p f) 80 "Known Site Pattern"
                      ++ genericMatches d f).
Proof.
  rewrite !merge_merge. apply merge_ext. intros f.
  destruct f; pointwise; unfold genericMatches, siteSelectors; reflexivity.
Qed.

Lemma detectFromSemanticHTML_merge d r :
  detectFromSemanticHTML d r
  = Normal (merge r (fun f => siteMatches d f ++ genericMatches d f
                              ++ ariaMatches d f)).
Proof.
  unfold detectFromSemanticHTML, tryAriaLabels, siteMatches.
  destruct (sitePatternOf d) as [p|] eqn:S.
  - rewrite (sitePattern_description d p S).
    rewrite !trySelectors_merge, tryAriaElements_merge, semantic_finds, merge_merge.
    apply f_equal. apply merge_ext. intros f.
    rewrite ariaMatches_flat, <- app_assoc. reflexivity.
  - rewrite !trySelectors_merge, tryAriaElements_merge, !merge_merge.
    apply f_equal. apply merge_ext. intros f.
    destruct f; pointwise; unfold genericMatches; reflexivity.
Qed.

(** ** Structured data *)

Lemma firstJobPosting_object (items : list json) (item : json) :
  firstJobPosting items = Normal (Some item) ->
  exists members, item = JObj members
                  /\ member "@type" members = Some (JStr "JobPosting").
Proof.
  induction items as [|x l IH]; simpl; [discriminate|].
  destruct x as [| b | nz t | s | xs | members]; simpl; try exact IH;
    try discriminate.
  destruct (member "@type" members) as [[| | | s | |]|] eqn:M; simpl;
    try exact IH.
  destruct (String.eqb_spec s "JobPosting") as [->|_]; [|exact IH].
  intros [= <-]. exists members. split; [reflexivity|exact M].
Qed.

Lemma findJobPostingIn_object (scripts : list (completion json)) (item : json) :
  findJobPostingIn scripts = Some item ->
  exists members, item = JObj members
                  /\ member "@type" members = Some (JStr "JobPosting").
Proof.
  induction scripts as [|s l IH]; simpl; [discriminate|].
  destruct s as [data|e]; simpl; [|exact IH].
  destruct (firstJobPosting (itemsOf data)) as [[x|]|e] eqn:F; try exact IH.
  intros [= <-]. exact (firstJobPosting_object _ _ F).
Qed.

Lemma update_value (v : option json) (r : Results) (f : Field) (c : Z) (src : string) :
  whenTruthy v (fun x => updateField r f x c src) r
  = if textLike v
    then Normal (merge r (only f (matchedIf (asText v) c src)))
    else Throws TypeError.
Proof.
  destruct v as [x|]; simpl.
  - destruct x as [| b | nz t | s | xs | members]; simpl;
      rewrite ?merge_only_nothing; try reflexivity.
    + destruct b; reflexivity.
    + destruct nz; reflexivity.
    + destruct s as [|a t]; simpl.
      * rewrite merge_only_nothing. reflexivity.
      * apply updateField_text.
  - rewrite merge_only_nothing. reflexivity.
Qed.

Lemma get_truthy (v : json) (key : string) :
  truthy v = true -> get v key = Normal (prop v key).
Proof. destruct v; simpl; try discriminate; reflexivity. Qed.

Lemma update_company (org : option json) (r : Results) :
  whenTruthy org
    (fun o => orgName <- get o "name" ;;
              whenTruthy orgName
                (fun n => updateField r Company n 95 "JSON-LD Schema") r) r
  = if match org with
       | Some o => negb (truthy o) || textLike (prop o "name")
       | None => true
       end
    then Normal (merge r (only Company
                            (matchedIf
                               match org with
                               | Some o => asText (prop o "name")
                               | None => None
                               end 95 "JSON-LD Schema")))
    else Throws TypeError.
Proof.
  destruct org as [o|]; [|simpl; rewrite merge_only_nothing; reflexivity].
  unfold whenTruthy at 1. destruct (truthy o) eqn:T.
  - rewrite (get_truthy o "name" T). cbn [bind negb orb].
    apply update_value.
  - cbn [negb orb].
    replace (prop o "name") with (@None json)
      by (destruct o as [| [] | [] ? | [] | |]; try discriminate; reflexivity).
    simpl. rewrite merge_only_nothing. reflexivity.
Qed.

(** Converting a parsed value to text raises type errors only. *)
Lemma json_elements_ind (P : json -> Prop) :
  P JNull -> (forall b, P (JBool b)) -> (forall nz t, P (JNum nz t)) ->
  (forall s, P (JStr s)) -> (forall l, Forall P l -> P (JArr l)) ->
  (forall m, P (JObj m)) -> forall v, P v.
Proof.
  intros Hnull Hbool Hnum Hstr Harr Hobj. fix IH 1.
  intros [| b | nz t | s | l | m];
    [exact Hnull | apply Hbool | apply Hnum | apply Hstr | | apply Hobj].
  apply Harr. induction l as [|x l IHl]; constructor; [apply IH|exact IHl].
Qed.

Lemma toString_array (l : list json) : toString (JArr l) = join "," l.
Proof.
  induction l as [|x l IH]; [reflexivity|].
  cbn [join]. rewrite <- IH. reflexivity.
Qed.

Lemma join_error_from (sep : string) (parts : list json) (e : exception) :
  Forall (fun x => forall e, toString x = Throws e -> e = TypeError) parts ->
  join sep parts = Throws e -> e = TypeError.
Proof.
  induction 1 as [|x l Hx _ IH]; [discriminate|].
  cbn [join].
  destruct (match x with JNull => Normal "" | _ => toString x end) as [sx|ex] eqn:Ex;
    cbn [bind].
  - destruct l as [|y l']; [discriminate|].
    destruct (join sep (y :: l')) as [r|er]; cbn [bind]; [discriminate|].
    intros [= <-]. apply IH. reflexivity.
  - intros [= <-]. apply Hx. destruct x; try exact Ex; discriminate.
Qed.

Lemma toString_error (v : json) (e : exception) :
  toString v = Throws e -> e = TypeError.
Proof.
  revert e. induction v as [| b | nz t | s | l IH | m] using json_elements_ind;
    intros e.
  - discriminate.
  - destruct b; discriminate.
  - discriminate.
  - discriminate.
  - rewrite toString_array. apply join_error_from. exact IH.
  - simpl. destruct (hasMember "toString" m); [intros [= <-]; reflexivity|discriminate].
Qed.

Lemma join_error (sep : string) (parts : list json) (e : exception) :
  join sep parts = Throws e -> e = TypeError.
Proof.
  apply join_error_from. apply Forall_forall. intros x _ e'.
  apply toString_error.
Qed.

Lemma parseJobLocation_error (j : json) (e : exception) :
  truthy j = true -> parseJobLocation j = Throws e -> e = TypeError.
Proof.
  intros T. unfold parseJobLocation.
  destruct (isString j); [discriminate|].
  rewrite (get_truthy j "address" T). cbn [bind]. unfold whenTruthy.
  destruct (prop j "address") as [addr|]; [|discriminate].
  destruct (truthy addr) eqn:Ta; [|discriminate].
  destruct (isString addr); [discriminate|].
  rewrite !(get_truthy addr _ Ta). cbn [bind].
  match goal with |- context [(0 <? List.length ?p)%nat] =>
    destruct (0 <? List.length p)%nat; [destruct (join ", " p) eqn:J|] end.
  - discriminate.
  - cbn [bind]. intros [= <-]. exact (join_error _ _ _ J).
  - destruct (prop addr "addressCountry") as [c|]; [|discriminate].
    destruct (truthy c); discriminate.
Qed.

Lemma update_location (jobLocation : option json) (r : Results) :
  whenTruthy jobLocation
    (fun jl => loc <- parseJobLocation jl ;;
               if truthy loc
               then updateField r Location loc 95 "JSON-LD Schema"
               else Normal r) r
  = if match jobLocation with
       | Some j =>
           negb (truthy j)
           || match parseJobLocation j with
              | Normal found => textLike (Some found)
              | Throws _ => false
              end
       | None => true
       end
    then Normal (merge r (only Location
                            (matchedIf
                               match jobLocation with
                               | Some j =>
                                   match parseJobLocation j with
                                   | Normal found => asText (Some found)
                                   | Throws _ => None
                                   end
                               | None => None
                               end 95 "JSON-LD Schema")))
    else Throws TypeError.
Proof.
  destruct jobLocation as [j|]; [|simpl; rewrite merge_only_nothing; reflexivity].
  unfold whenTruthy.
  destruct (truthy j) eqn:T.
  - cbn [negb orb].
    destruct (parseJobLocation j) as [found|e] eqn:E; cbn [bind].
    + exact (update_value (Some found) r Location 95 "JSON-LD Schema").
    + rewrite (parseJobLocation_error j e T E). reflexivity.
  - cbn [negb orb].
    destruct j as [| b | nz t | s | xs | members]; try discriminate;
      simpl; rewrite ?merge_only_nothing; try reflexivity.
    destruct s; [simpl; rewrite merge_only_nothing; reflexivity|discriminate].
Qed.

Lemma update_openGraph (o : option string) (r : Results) (f : Field) (c : Z)
  (src : string) :
  (if present o && (confidence (at_ r f) <? c)
   then updateField r f (text o) c src else Normal r)
  = Normal (merge r (only f (matchedIf o c src))).
Proof.
  destruct o as [s|]; simpl.
  - destruct s as [|a t].
    + simpl. rewrite merge_only_nothing. reflexivity.
    + cbn [isEmpty negb andb]. apply gated_update. lia.
  - rewrite merge_only_nothing. reflexivity.
Qed.

Lemma prop_object (m : list (string * json)) (key : string) :
  prop (JObj m) key = member key m.
Proof. reflexivity. Qed.

Lemma openGraph_merge (d : Document) (r : Results) :
  (let ogData := extractFromOpenGraph d in
   results <-
     (if present (ogTitle ogData) && (confidence (jobTitle r) <? 85)
      then updateField r JobTitle (text (ogTitle ogData)) 85 "OpenGraph Meta"
      else Normal r) ;;
   results <-
     (if present (ogSiteName ogData) && (confidence (company results) <? 85)
      then updateField results Company (text (ogSiteName ogData)) 85
             "OpenGraph Meta"
      else Normal results) ;;
   if present (ogDescription ogData)
      && (confidence (description results) <? 85)
   then updateField results Description (text (ogDescription ogData)) 85
          "OpenGraph Meta"
   else Normal results)
  = Normal (merge r (fun f => matchedIf (openGraphText d f) 85 "OpenGraph Meta")).
Proof.
  cbv zeta.
  rewrite (update_openGraph _ r JobTitle). cbv beta iota delta [bind].
  match goal with |- context [updateField ?r1 Company] =>
    rewrite (update_openGraph _ r1 Company) end.
  cbv beta iota delta [bind].
  match goal with |- context [updateField ?r2 Description] =>
    rewrite (update_openGraph _ r2 Description) end.
  rewrite !merge_merge. apply f_equal. apply merge_ext. intros f.
  destruct f; pointwise; unfold openGraphText; reflexivity.
Qed.

Lemma detectFromStructuredData_merge (d : Document) (r : Results) :
  detectFromStructuredData d r
  = if schemaOk d then Normal (merge r (structuredFinds d))
    else Throws TypeError.
Proof.
  unfold detectFromStructuredData, schemaOk, structuredFinds.
  destruct (findJobPostingSchema d) as [data|] eqn:F.
  - destruct (findJobPostingIn_object _ _ F) as [m [-> _]].
    unfold schemaIsText. rewrite !prop_object. cbn [get bind].
    rewrite update_company.
    set (c1 := match member "hiringOrganization" m with
               | Some o => negb (truthy o) || textLike (prop o "name")
               | None => true
               end).
    destruct c1; [|reflexivity].
    cbn [bind andb]. rewrite update_value.
    destruct (textLike (member "title" m)); [|reflexivity].
    cbn [bind andb]. rewrite update_location.
    set (c3 := match member "jobLocation" m with
               | Some j => negb (truthy j)
                           || match parseJobLocation j with
                              | Normal found => textLike (Some found)
                              | Throws _ => false
                              end
               | None => true
               end).
    destruct c3; [|reflexivity].
    cbn [bind andb]. rewrite update_value.
    destruct (textLike (member "description" m)); [|reflexivity].
    cbn [bind andb]. rewrite openGraph_merge.
    rewrite !merge_merge. apply f_equal. apply merge_ext. intros f.
    unfold schemaText. rewrite F, !prop_object.
    destruct f; pointwise; reflexivity.
  - cbn [bind]. rewrite openGraph_merge.
    apply f_equal. apply merge_ext. intros f.
    unfold schemaText. rewrite F. reflexivity.
Qed.

(** ** The matcher *)

Lemma repeatMatcher_answers m greedy :
  answers m ->
  forall fuel mn mx, answers (repeatMatcher m greedy fuel mn mx).
Proof.
  intros Hm fuel. induction fuel as [|fuel IH]; intros mn mx st k x;
    [discriminate|].
  cbn [repeatMatcher]. cbv zeta.
  assert (Hiter : forall b,
    m st (fun st' =>
            if b && (pos st' =? pos st)%nat then None
            else repeatMatcher m greedy fuel (Nat.pred mn)
                   (option_map Nat.pred mx) st' k) = Some x ->
    exists st', k st' = Some x).
  { intros b H. apply Hm in H. destruct H as [st1 H].
    destruct (b && (pos st1 =? pos st)%nat); [discriminate|].
    exact (IH _ _ _ _ _ H). }
  assert (Hk : k st = Some x -> exists st', k st' = Some x)
    by (intros H; exists st; exact H).
  assert (Hfree :
    match mn with
    | O =>
        if greedy
        then match m st (fun st' =>
                     if true && (pos st' =? pos st)%nat then None
                     else repeatMatcher m greedy fuel (Nat.pred mn)
                            (option_map Nat.pred mx) st' k) with
             | Some x => Some x
             | None => k st
             end
        else match k st with
             | Some x => Some x
             | None =>
                 m st (fun st' =>
                     if true && (pos st' =? pos st)%nat then None
                     else repeatMatcher m greedy fuel (Nat.pred mn)
                            (option_map Nat.pred mx) st' k)
             end
    | S _ => m st (fun st' =>
                     if false && (pos st' =? pos st)%nat then None
                     else repeatMatcher m greedy fuel (Nat.pred mn)
                            (option_map Nat.pred mx) st' k)
    end = Some x -> exists st', k st' = Some x).
  { destruct mn as [|mn']; [|exact (Hiter false)].
    destruct greedy.
    - destruct (m st _) eqn:E; [intros [= <-]; exact (Hiter true E)|exact Hk].
    - destruct (k st) eqn:E; [intros [= <-]; exists st; exact E|exact (Hiter true)]. }
  destruct mx as [[|n]|]; [exact Hk|exact Hfree|exact Hfree].
Qed.

(** A match is always one that the continuation accepted. *)
Lemma run_answers (r : regex) : answers (run r).
Proof.
  induction r as [| p | r1 IH1 r2 IH2 | r1 IH1 r2 IH2 | greedy mn mx r1 IH1
                 | n r1 IH1 | | |]; intros st k x; cbn [run].
  - intros H. exists st. exact H.
  - destruct (rest st) as [|c t]; [discriminate|].
    destruct (p c); [|discriminate]. intros H. eexists. exact H.
  - intros H. apply IH1 in H. destruct H as [st1 H]. apply IH2 in H. exact H.
  - destruct (run r1 st k) as [y|] eqn:E.
    + intros [= <-]. exact (IH1 _ _ _ E).
    + apply IH2.
  - apply repeatMatcher_answers. exact IH1.
  - intros H. apply IH1 in H. destruct H as [st1 H]. eexists. exact H.
  - destruct (prev st); [discriminate|]. intros H. exists st. exact H.
  - destruct (rest st); [|discriminate]. intros H. exists st. exact H.
  - destruct (xorb _ _); [|discriminate]. intros H. exists st. exact H.
Qed.

Lemma execFrom_result (r : regex) (t : string) (s : string) :
  forall before i m,
    execFrom r t before i s = Some m ->
    exists before' i' s',
      run r (MState before' i' s' []) (fun st => Some st) = Some (final m).
Proof.
  induction s as [|c s IH]; intros before i m; cbn [execFrom].
  - destruct (run r _ _) as [st|] eqn:E; [|discriminate].
    intros [= <-]. do 3 eexists. exact E.
  - destruct (run r _ _) as [st|] eqn:E.
    + intros [= <-]. do 3 eexists. exact E.
    + apply IH.
Qed.

(** A match of the page-title pattern has its group. *)
Lemma titlePattern_group (t : string) (m : found) :
  exec titlePattern t = Some m -> exists g, group 1 m = Some g.
Proof.
  intros H. apply execFrom_result in H. destruct H as [b [i [s H]]].
  unfold titlePattern in H. cbn [seqs run] in H.
  destruct b; cbn [prev] in H; [discriminate|].
  apply run_answers in H. destruct H as [st' H].
  injection H as H. unfold group. rewrite <- H. cbn [caps capture lookup].
  rewrite Nat.eqb_refl. eexists. reflexivity.
Qed.

(** ** Text analysis and fallbacks *)

Lemma update_found (o : option string) (r : Results) (f : Field) (c : Z)
  (src : string) :
  (if confidence (at_ r f) <? c
   then if present o then updateField r f (text o) c src else Normal r
   else Normal r)
  = Normal (merge r (only f (matchedIf o c src))).
Proof.
  destruct o as [s|]; cbn [present text matchedIf].
  - destruct s as [|a t].
    + cbn [isEmpty negb]. unfold matched. cbn [allWhiteSpace].
      rewrite merge_only_nothing. destruct (_ <? _); reflexivity.
    + cbn [isEmpty negb]. apply gated_update. lia.
  - rewrite merge_only_nothing. destruct (_ <? _); reflexivity.
Qed.

Lemma detectFromTextAnalysis_merge (d : Document) (r : Results) :
  detectFromTextAnalysis d r
  = match bodyText d with
    | Some _ => Normal (merge r (textMatches d))
    | None => Throws TypeError
    end.
Proof.
  unfold detectFromTextAnalysis, textMatches.
  destruct (bodyText d) as [body|]; [|reflexivity].
  cbv zeta.
  rewrite (update_found _ r Company). cbn [bind].
  match goal with |- context [updateField ?r1 JobTitle] =>
    rewrite (update_found _ r1 JobTitle) end.
  cbn [bind].
  match goal with |- context [updateField ?r2 Location] =>
    rewrite (update_found _ r2 Location) end.
  rewrite !merge_merge. apply f_equal. apply merge_ext. intros f.
  destruct f; pointwise; reflexivity.
Qed.

Lemma update_trimmed (g : string) (r : Results) (f : Field) (c gate : Z)
  (src : string) :
  c <= gate ->
  (if confidence (at_ r f) <? gate
   then if isEmpty (trim g) then Normal r
        else updateField r f (JStr (trim g)) c src
   else Normal r)
  = Normal (merge r (only f (matched g c src))).
Proof.
  intros Hc. rewrite isEmpty_trim. destruct (allWhiteSpace g) eqn:W.
  - rewrite (matched_blank _ _ _ W), merge_only_nothing.
    destruct (_ <? _); reflexivity.
  - rewrite <- matched_trim. apply gated_update. exact Hc.
Qed.

Lemma pageTitle_update (d : Document) (r : Results) :
  (if confidence (jobTitle r) <? 40
   then match exec titlePattern (title d) with
        | Some titleMatch =>
            match group 1 titleMatch with
            | Some g =>
                if isEmpty (trim g) then Normal r
                else updateField r JobTitle (JStr (trim g)) 40 "Page Title"
            | None => Throws TypeError
            end
        | None => Normal r
        end
   else Normal r)
  = Normal (merge r (only JobTitle (matchedIf (pageTitleText d) 40 "Page Title"))).
Proof.
  unfold pageTitleText.
  destruct (exec titlePattern (title d)) as [m|] eqn:E.
  - destruct (titlePattern_group _ _ E) as [g ->]. cbn [matchedIf].
    exact (update_trimmed g r JobTitle 40 40 "Page Title" (Z.le_refl _)).
  - cbn [matchedIf]. rewrite merge_only_nothing.
    destruct (_ <? _); reflexivity.
Qed.

Lemma firstH1_update (d : Document) (r : Results) :
  (if confidence (jobTitle r) <? 40
   then match h1Elements d with
        | firstH1 :: _ =>
            if isEmpty (trim (headingText firstH1)) then Normal r
            else updateField r JobTitle (JStr (trim (headingText firstH1)))
                   35 "First H1"
        | [] => Normal r
        end
   else Normal r)
  = Normal (merge r (only JobTitle (matchedIf (firstH1Text d) 35 "First H1"))).
Proof.
  unfold firstH1Text. destruct (h1Elements d) as [|h hs]; cbn [matchedIf].
  - rewrite merge_only_nothing. destruct (_ <? _); reflexivity.
  - apply (update_trimmed (headingText h) r JobTitle 35 40 "First H1"). lia.
Qed.

Lemma applyFallbacks_merge (d : Document) (r : Results) :
  applyFallbacks d r = Normal (merge r (fallbackMatches d)).
Proof.
  unfold applyFallbacks.
  rewrite pageTitle_update. cbn [bind].
  match goal with |- context [updateField ?r1 Company] =>
    change (confidence (company r1)) with (confidence (at_ r1 Company));
    rewrite (gated_update r1 Company (companyFromHost (hostname d)) 35 40
               "Domain Name") by lia
  end.
  cbn [bind]. rewrite firstH1_update.
  rewrite !merge_merge. apply f_equal. apply merge_ext. intros f.
  destruct f; pointwise; reflexivity.
Qed.

(** ** detect *)

Lemma detect_merge (d : Document) :
  detect d = if wellTyped d
             then Normal (output (merge initial (candidates d)))
             else Throws TypeError.
Proof.
  unfold detect, wellTyped. rewrite detectFromStructuredData_merge.
  fold (schemaOk d). destruct (schemaOk d); [|reflexivity].
  cbn [bind andb]. rewrite detectFromSemanticHTML_merge. cbn [bind].
  rewrite detectFromTextAnalysis_merge.
  destruct (bodyText d) as [body|] eqn:B; [|reflexivity].
  cbn [bind]. rewrite applyFallbacks_merge. cbn [bind].
  rewrite !merge_merge. do 2 apply f_equal. apply merge_ext. intros f.
  unfold candidates, structuredFinds. rewrite <- !app_assoc. reflexivity.
Qed.

(** ** What detect returns *)

Lemma candidates_ceiling (d : Document) (f : Field) (x : FieldResult) :
  In x (candidates d f) -> In (confidence x) ceilings.
Proof.
  unfold candidates, siteMatches, genericMatches, textMatches, fallbackMatches,
    selectorMatches, ariaMatches.
  rewrite !in_app_iff. intros H.
  assert (G : confidence x = 95 \/ confidence x = 85 \/ confidence x = 80
              \/ confidence x = 75 \/ confidence x = 70 \/ confidence x = 60
              \/ confidence x = 40 \/ confidence x = 35).
  { destruct H as [H|[H|[H|[H|[H|[H|H]]]]]].
    - apply matchedIf_confidence in H. tauto.
    - apply matchedIf_confidence in H. tauto.
    - destruct (sitePatternOf d); [|destruct H].
      apply selectorFinds_confidence in H. tauto.
    - destruct f; apply selectorFinds_confidence in H; tauto.
    - apply in_flat_map in H. destruct H as [el [_ H]]. unfold ariaFinds in H.
      destruct (labelNames f _); [|destruct H].
      apply matched_confidence in H. tauto.
    - destruct (bodyText d); [|destruct H].
      destruct f; try destruct H; apply matchedIf_confidence in H; tauto.
    - destruct f; try destruct H.
      + apply matched_confidence in H. tauto.
      + apply in_app_iff in H. destruct H as [H|H];
          apply matchedIf_confidence in H; tauto. }
  unfold ceilings. simpl. lia.
Qed.

Lemma candidates_positive (d : Document) (f : Field) (x : FieldResult) :
  In x (candidates d f) -> 0 < confidence x.
Proof.
  intros H. apply candidates_ceiling in H. unfold ceilings in H. simpl in H. lia.
Qed.

Lemma at_output (r : Results) (f : Field) :
  at_ (values (output r)) f = value (at_ r f)
  /\ at_ (confidences (output r)) f = confidence (at_ r f)
  /\ at_ (sources (output r)) f = source (at_ r f).
Proof. destruct f; repeat split; reflexivity. Qed.

Lemma at_initial (f : Field) : at_ initial f = undetected.
Proof. destruct f; reflexivity. Qed.

(** Each field of the output is the reduction of the field's finds. *)
Lemma detect_resolve (d : Document) (out : DetectionOutput) :
  detect d = Normal out ->
  forall f, at_ (values out) f = value (resolve (candidates d f))
            /\ at_ (confidences out) f = confidence (resolve (candidates d f))
            /\ at_ (sources out) f = source (resolve (candidates d f)).
Proof.
  rewrite detect_merge. destruct (wellTyped d); [|discriminate].
  intros [= <-] f. unfold resolve. rewrite <- (at_initial f), <- at_merge.
  apply at_output.
Qed.

Lemma detect_returns (d : Document) :
  wellTyped d = true -> detect d = Normal (output (merge initial (candidates d))).
Proof. intros H. rewrite detect_merge, H. reflexivity. Qed.

Lemma updateField_cases (r : Results) (f : Field) (v : json) (c : Z)
  (src : string) (r' : Results) :
  updateField r f v c src = Normal r' ->
  r' = r \/ exists s, r' = merge r (only f (matched s c src)).
Proof.
  destruct v as [| b | nz t | s | l | m].
  - intros [= <-]. left. reflexivity.
  - destruct b; [discriminate|]. intros [= <-]. left. reflexivity.
  - destruct nz; [discriminate|]. intros [= <-]. left. reflexivity.
  - rewrite updateField_text. intros [= <-]. right. exists s. reflexivity.
  - discriminate.
  - discriminate.
Qed.

Lemma merge_monotone (r : Results) (finds : Field -> list FieldResult) (g : Field) :
  confidence (at_ r g) <= confidence (at_ (merge r finds) g).
Proof. rewrite at_merge. apply fold_better_monotone. Qed.

(** C1.  For every document on which [detect] returns, each field's
    confidence is the highest confidence among the non-empty finds of
    the layers for that field, and its value and source are those of the
    first find, in layer order, that has that confidence.  No call of
    [updateField] and no layer lowers the confidence of any field, and a
    candidate whose confidence equals the field's current confidence
    leaves the results as they are. *)
Theorem detect_keeps_first_highest (d : Document) (out : DetectionOutput) :
  detect d = Normal out ->
  (forall f,
      at_ (confidences out) f = maxConfidence (candidates d f)
      /\ at_ (values out) f = value (winner (candidates d f))
      /\ at_ (sources out) f = source (winner (candidates d f)))
  /\ (forall r f v c src r',
         updateField r f v c src = Normal r' ->
         forall g, confidence (at_ r g) <= confidence (at_ r' g))
  /\ (forall r r',
         detectFromStructuredData d r = Normal r'
         \/ detectFromSemanticHTML d r = Normal r'
         \/ detectFromTextAnalysis d r = Normal r'
         \/ applyFallbacks d r = Normal r' ->
         forall g, confidence (at_ r g) <= confidence (at_ r' g))
  /\ (forall r f v src r',
         updateField r f v (confidence (at_ r f)) src = Normal r' -> r' = r).
Proof.
  intros H. repeat split.
  - destruct (detect_resolve d out H f) as [_ [E _]].
    rewrite E. apply resolve_confidence.
  - destruct (detect_resolve d out H f) as [E _].
    rewrite E, (resolve_winner _ (candidates_positive d f)). reflexivity.
  - destruct (detect_resolve d out H f) as [_ [_ E]].
    rewrite E, (resolve_winner _ (candidates_positive d f)). reflexivity.
  - intros r f v c src r' U g.
    destruct (updateField_cases _ _ _ _ _ _ U) as [->|[s ->]]; [lia|].
    apply merge_monotone.
  - intros r r' L g.
    rewrite detectFromStructuredData_merge, detectFromSemanticHTML_merge,
      detectFromTextAnalysis_merge, applyFallbacks_merge in L.
    destruct L as [L|[L|[L|L]]].
    + destruct (schemaOk d); [|discriminate].
      injection L as <-. apply merge_monotone.
    + injection L as <-. apply merge_monotone.
    + destruct (bodyText d); [|discriminate].
      injection L as <-. apply merge_monotone.
    + injection L as <-. apply merge_monotone.
  - intros r f v src r' U.
    destruct (updateField_cases _ _ _ _ _ _ U) as [->|[s ->]]; [reflexivity|].
    apply merge_only_keep. intros x Hx.
    apply matched_confidence in Hx. lia.
Qed.

Lemma detect_keeps_first_highest_witness :
  exists out,
    detect busyPage = Normal out
    /\ at_ (confidences out) Company = maxConfidence (candidates busyPage Company)
    /\ at_ (values out) Company = "Acme Careers"
    /\ at_ (values out) JobTitle = "Staff Engineer"
    /\ at_ (sources out) Location = "ARIA Label".
Proof.
  eexists. split; [vm_compute; reflexivity|].
  split; [|vm_compute; repeat split].
  exact (proj1 (proj1 (detect_keeps_first_highest busyPage _ eq_refl) Company)).
Defined.

(** ** updateField *)

(** C3.  [updateField] on a text value: a value that is empty or white
    space only leaves the results as they are; otherwise the candidate
    replaces the field's result exactly when its confidence is strictly
    greater than the current one, and what is stored is the value cut
    into its words and joined by single spaces, which is what trimming
    and collapsing the white-space runs gives.  The value
    ["  Acme   Corp\n"] is stored as ["Acme Corp"]. *)
Theorem updateField_rule (r : Results) (f : Field) (s : string) (c : Z)
  (src : string) :
  updateField r f (JStr s) c src
  = Normal (if allWhiteSpace s then r
            else if c >? confidence (at_ r f)
                 then assign r f {| value := unwords (words s);
                                    confidence := c;
                                    source := src |}
                 else r)
  /\ collapseWhiteSpace (trim s) = unwords (words s)
  /\ isBlank s = allWhiteSpace s
  /\ updateField initial Company (JStr ("  Acme   Corp" ++ newline)) 75
       "Semantic HTML"
     = Normal (assign initial Company
                 {| value := "Acme Corp"; confidence := 75;
                    source := "Semantic HTML" |}).
Proof.
  split; [|split; [exact (cleanValue_words s)|split;
                   [exact (isBlank_allWhiteSpace s)|reflexivity]]].
  rewrite updateField_text. unfold matched.
  destruct (allWhiteSpace s); [rewrite merge_only_nothing; reflexivity|].
  rewrite <- assign_merge. unfold better. cbn [confidence].
  destruct (c >? confidence (at_ r f)); [reflexivity|].
  destruct r, f; reflexivity.
Qed.

(** ** Fallbacks *)

(** C9.  [applyFallbacks] leaves a company result of confidence 40 or
    more as it is, and when it changes the company result the confidence
    was below 40 and the new result is the host-derived name at
    confidence 35. *)
Theorem hostname_fallback_below_40 (d : Document) (r : Results) :
  exists r',
    applyFallbacks d r = Normal r'
    /\ (40 <= confidence (company r) -> company r' = company r)
    /\ (company r' <> company r ->
        confidence (company r) < 40
        /\ company r' = {| value := unwords (words (companyFromHost (hostname d)));
                           confidence := 35;
                           source := "Domain Name" |}).
Proof.
  exists (merge r (fallbackMatches d)). split; [apply applyFallbacks_merge|].
  cbn [merge company fallbackMatches]. unfold matched.
  destruct (allWhiteSpace (companyFromHost (hostname d))); cbn [fold_left].
  - split; [reflexivity|]. intros H. exfalso. apply H. reflexivity.
  - unfold better. cbn [confidence].
    destruct (Z.gtb_spec 35 (confidence (company r))) as [Hlt|Hge].
    + split; [lia|]. intros _. split; [lia|reflexivity].
    + split; [reflexivity|]. intros H. exfalso. apply H. reflexivity.
Qed.

(** C10.  Every confidence that [detect] returns is 0 or one of 35, 40,
    60, 70, 75, 80, 85 and 95, so the indicator is medium only for 40 and
    60 and low only for 35. *)
Theorem confidence_values (d : Document) (out : DetectionOutput) (f : Field) :
  detect d = Normal out ->
  In (at_ (confidences out) f) (0 :: ceilings)
  /\ (Form.setConfidenceIndicator (at_ (confidences out) f) = Form.ConfidenceMedium ->
      at_ (confidences out) f = 40 \/ at_ (confidences out) f = 60)
  /\ (Form.setConfidenceIndicator (at_ (confidences out) f) = Form.ConfidenceLow ->
      at_ (confidences out) f = 35).
Proof.
  intros H. destruct (detect_resolve d out H f) as [_ [E _]]. rewrite E.
  assert (G : In (confidence (resolve (candidates d f))) (0 :: ceilings)).
  { unfold resolve.
    destruct (fold_better_in (candidates d f) undetected) as [->|I].
    - left. reflexivity.
    - right. exact (candidates_ceiling d f _ I). }
  split; [exact G|].
  unfold ceilings in G. simpl in G.
  unfold Form.setConfidenceIndicator.
  destruct G as [G|[G|[G|[G|[G|[G|[G|[G|[G|[]]]]]]]]]]; rewrite <- G; simpl;
    split; intros; try discriminate; auto.
Qed.

Lemma confidence_values_witness :
  exists out,
    detect busyPage = Normal out
    /\ In (at_ (confidences out) Location) (0 :: ceilings).
Proof.
  eexists. split; [vm_compute; reflexivity|].
  exact (proj1 (confidence_values busyPage _ Location eq_refl)).
Defined.

(** ** The job-title search *)

Lemma titleAmongH1_find (h1s : list Heading) :
  titleAmongH1 h1s
  = match find namesKeyword h1s with
    | Some h => Some (trim (headingText h))
    | None => None
    end.
Proof.
  induction h1s as [|h l IH]; [reflexivity|].
  cbn [titleAmongH1 find]. unfold namesKeyword at 1.
  destruct (containsJobKeyword (trim (headingText h)) jobKeywords);
    [reflexivity|exact IH].
Qed.

Lemma titleAmongHeadings_find (hs : list Heading) :
  titleAmongHeadings hs
  = match find (fun h => titleLength h && namesKeyword h
                         && above (fontSize h) (18 # 1)) hs with
    | Some h => Some (trim (headingText h))
    | None => None
    end.
Proof.
  induction hs as [|h l IH]; [reflexivity|].
  cbn [titleAmongHeadings find]. unfold titleLength at 1, namesKeyword at 1.
  destruct ((5 <? String.length (trim (headingText h)))%nat
            && (String.length (trim (headingText h)) <? 100)%nat
            && containsJobKeyword (trim (headingText h)) jobKeywords
            && above (fontSize h) (18 # 1)); [reflexivity|exact IH].
Qed.

Lemma find_skip_h1 (p : Heading -> bool) (hs : list Heading) :
  (forall h, In h hs -> isH1 h = true -> p h = false) ->
  find p hs = find (fun h => negb (isH1 h) && p h) hs.
Proof.
  induction hs as [|h l IH]; intros H; [reflexivity|].
  cbn [find]. destruct (isH1 h) eqn:E.
  - rewrite (H h (or_introl eq_refl) E). cbn [negb andb].
    apply IH. intros x Hx. apply H. right. exact Hx.
  - cbn [negb andb]. destruct (p h); [reflexivity|].
    apply IH. intros x Hx. apply H. right. exact Hx.
Qed.

(** C7, as the code has it.  The job-title search returns the trimmed
    text of the first [h1] that contains a keyword; when no [h1] does, it
    returns the trimmed text of the first heading other than an [h1]
    whose text is longer than 5 and shorter than 100 characters, contains
    a keyword, and is rendered above 18px; else nothing. *)
Theorem findJobTitle_scan (d : Document) :
  findJobTitle d (headings d)
  = match find namesKeyword (h1Elements d) with
    | Some h => Some (trim (headingText h))
    | None =>
        match find (fun h => negb (isH1 h)
                             && (titleLength h && namesKeyword h
                                 && above (fontSize h) (18 # 1)))
                   (headings d) with
        | Some h => Some (trim (headingText h))
        | None => None
        end
    end.
Proof.
  unfold findJobTitle. rewrite titleAmongH1_find, titleAmongHeadings_find.
  destruct (find namesKeyword (h1Elements d)) as [h|] eqn:F; [reflexivity|].
  rewrite <- find_skip_h1; [reflexivity|].
  intros h Hh Hh1.
  assert (K : namesKeyword h = false).
  { apply (find_none _ _ F). unfold h1Elements. apply filter_In. tauto. }
  rewrite K, andb_false_r. reflexivity.
Qed.

(** C7 as stated fails on a page whose first second-level heading is
    the four-character ["Lead"] at 20px: the search passes over it. *)
Lemma short_heading_passed_over :
  h1Elements shortHeadingPage = []
  /\ titleAsClaimed shortHeadingPage = Some "Lead"
  /\ findJobTitle shortHeadingPage (headings shortHeadingPage)
     = Some "Senior Engineer"
  /\ findJobTitle shortHeadingPage (headings shortHeadingPage)
     <> titleAsClaimed shortHeadingPage.
Proof. repeat split; try reflexivity. discriminate. Qed.

(** ** Structured data blocks *)

Lemma findJobPostingIn_skips_failed (e : exception) (l : list (completion json)) :
  findJobPostingIn (Throws e :: l) = findJobPostingIn l.
Proof. reflexivity. Qed.

(** C5 at the failing input: a block that is an array with [null] ahead
    of a posting yields no posting, and the page comes out undetected,
    while the same posting alone in its block is found. *)
Theorem null_entry_hides_posting :
  findJobPostingSchema nullFirstPage = None
  /\ detect nullFirstPage = Normal (output initial)
  /\ isJobPosting seniorEngineerPosting = true
  /\ findJobPostingSchema postingPage = Some seniorEngineerPosting.
Proof. repeat split; vm_compute; reflexivity. Qed.

(** ** Pages with nothing in the markup *)

Lemma selectorMatches_none (d : Document) (selectors : string) (c : Z)
  (src : string) :
  (forall selector, querySelector d selector = NoElement) ->
  selectorMatches d selectors c src = [].
Proof.
  intros H. unfold selectorMatches.
  induction (map trim (split "," selectors)) as [|s l IH]; [reflexivity|].
  cbn [flat_map]. unfold selectorFinds at 1. rewrite H, IH. reflexivity.
Qed.

Lemma schemaText_none (d : Document) (f : Field) :
  ldJson d = [] -> schemaText d f = None.
Proof.
  intros H. unfold schemaText, findJobPostingSchema. rewrite H. reflexivity.
Qed.

Lemma getMetaContent_none (d : Document) (p : string) :
  metas d = [] -> getMetaContent d p = None.
Proof. intros H. unfold getMetaContent. rewrite H. reflexivity. Qed.

Lemma openGraphText_none (d : Document) (f : Field) :
  metas d = [] -> openGraphText d f = None.
Proof.
  intros H. unfold openGraphText, extractFromOpenGraph.
  rewrite !(getMetaContent_none d _ H). destruct f; reflexivity.
Qed.

Lemma siteMatches_none (d : Document) (f : Field) :
  (forall selector, querySelector d selector = NoElement) ->
  siteMatches d f = [].
Proof.
  intros H. unfold siteMatches.
  destruct (sitePatternOf d); [apply selectorMatches_none; exact H|reflexivity].
Qed.

Lemma genericMatches_none (d : Document) (f : Field) :
  (forall selector, querySelector d selector = NoElement) ->
  genericMatches d f = [].
Proof.
  intros H. unfold genericMatches.
  destruct f; apply selectorMatches_none; exact H.
Qed.

Lemma ariaMatches_none (d : Document) (f : Field) :
  ariaLabelled d = [] -> ariaMatches d f = [].
Proof. intros H. unfold ariaMatches. rewrite H. reflexivity. Qed.

Lemma silent_candidates (d : Document) (f : Field) :
  silentMarkup d -> candidates d f = textMatches d f ++ fallbackMatches d f.
Proof.
  intros [Hld [Hm [Hq Ha]]]. unfold candidates.
  rewrite (schemaText_none d f Hld), (openGraphText_none d f Hm),
    (siteMatches_none d f Hq), (genericMatches_none d f Hq),
    (ariaMatches_none d f Ha).
  reflexivity.
Qed.

Lemma silent_wellTyped (d : Document) (body : string) :
  silentMarkup d -> bodyText d = Some body -> wellTyped d = true.
Proof.
  intros [Hld _] B. unfold wellTyped, schemaOk, findJobPostingSchema.
  rewrite Hld, B. reflexivity.
Qed.

(** A find that nothing later exceeds is the result. *)
Lemma resolve_first (x : FieldResult) (later : list FieldResult) :
  0 < confidence x ->
  (forall y, In y later -> confidence y <= confidence x) ->
  resolve (x :: later) = x.
Proof.
  intros Hx H. unfold resolve. cbn [fold_left].
  assert (E : better undetected x = x).
  { unfold better. change (confidence undetected) with 0.
    destruct (Z.gtb_spec (confidence x) 0); [reflexivity|lia]. }
  rewrite E. apply fold_better_keep. exact H.
Qed.

(** ** The page title and the host name *)

(** C2, as the code has it.  On a page with nothing in the markup and no
    text-pattern match, with the title ["DevOps Lead - Acme Careers"] and
    the host name ["jobs.acme.com"], [detect] returns the job title
    ["DevOps Lead"] at confidence 40 from the page title, and the company
    ["Jobs"] at confidence 35: the first label of the host name,
    capitalised. *)
Theorem title_and_host_fallbacks (d : Document) (body : string) :
  silentMarkup d ->
  bodyText d = Some body ->
  findCompanyName body (headings d) = None ->
  findJobTitle d (headings d) = None ->
  findLocation body = None ->
  title d = "DevOps Lead - Acme Careers" ->
  hostname d = "jobs.acme.com" ->
  exists out,
    detect d = Normal out
    /\ at_ (values out) JobTitle = "DevOps Lead"
    /\ at_ (confidences out) JobTitle = 40
    /\ at_ (sources out) JobTitle = "Page Title"
    /\ at_ (values out) Company = "Jobs"
    /\ at_ (confidences out) Company = 35
    /\ at_ (sources out) Company = "Domain Name"
    /\ companyFromHost "www.acme.com" = "Acme".
Proof.
  intros S B Hc Ht Hl Et Eh.
  exists (output (merge initial (candidates d))).
  split; [apply detect_returns; exact (silent_wellTyped d body S B)|].
  assert (J : at_ (merge initial (candidates d)) JobTitle
              = {| value := "DevOps Lead"; confidence := 40;
                   source := "Page Title" |}).
  { rewrite at_merge, (silent_candidates d JobTitle S).
    unfold textMatches, fallbackMatches, pageTitleText.
    rewrite B, Ht, Et. cbn [matchedIf app].
    change (fold_left better ?l (at_ initial JobTitle)) with (resolve l).
    replace (matchedIf (match exec titlePattern "DevOps Lead - Acme Careers" with
                        | Some m => group 1 m
                        | None => None
                        end) 40 "Page Title")
      with [{| value := "DevOps Lead"; confidence := 40; source := "Page Title" |}]
      by (vm_compute; reflexivity).
    apply resolve_first; [reflexivity|].
    intros y Hy. apply matchedIf_confidence in Hy. cbn [confidence]. lia. }
  assert (C : at_ (merge initial (candidates d)) Company
              = {| value := "Jobs"; confidence := 35; source := "Domain Name" |}).
  { rewrite at_merge, (silent_candidates d Company S).
    unfold textMatches, fallbackMatches. rewrite B, Hc, Eh.
    vm_compute. reflexivity. }
  destruct (at_output (merge initial (candidates d)) JobTitle) as [-> [-> ->]].
  destruct (at_output (merge initial (candidates d)) Company) as [-> [-> ->]].
  rewrite J, C. cbn [value confidence source].
  repeat (split; [reflexivity|]). vm_compute. reflexivity.
Qed.

Lemma title_and_host_fallbacks_witness :
  exists out,
    detect devOpsPage = Normal out
    /\ at_ (values out) JobTitle = "DevOps Lead"
    /\ at_ (confidences out) JobTitle = 40
    /\ at_ (sources out) JobTitle = "Page Title"
    /\ at_ (values out) Company = "Jobs"
    /\ at_ (confidences out) Company = 35
    /\ at_ (sources out) Company = "Domain Name"
    /\ companyFromHost "www.acme.com" = "Acme".
Proof.
  apply (title_and_host_fallbacks devOpsPage "").
  - repeat split.
  - reflexivity.
  - vm_compute. reflexivity.
  - vm_compute. reflexivity.
  - vm_compute. reflexivity.
  - reflexivity.
  - reflexivity.
Defined.

(** C2 as stated fails on the page of the claim: the company that
    [detect] returns for the host ["jobs.acme.com"] is ["Jobs"]. *)
Lemma devOps_company_is_not_Acme :
  silentMarkup devOpsPage
  /\ title devOpsPage = "DevOps Lead - Acme Careers"
  /\ hostname devOpsPage = "jobs.acme.com"
  /\ exists out,
       detect devOpsPage = Normal out
       /\ at_ (values out) JobTitle = "DevOps Lead"
       /\ at_ (confidences out) JobTitle = 40
       /\ at_ (confidences out) Company = 35
       /\ at_ (values out) Company = "Jobs"
       /\ at_ (values out) Company <> "Acme".
Proof.
  split; [repeat split|]. split; [reflexivity|]. split; [reflexivity|].
  eexists. split; [vm_compute; reflexivity|].
  repeat split. discriminate.
Qed.

(** ** A posting in structured data *)

Lemma candidates_at_most_95 (d : Document) (f : Field) (x : FieldResult) :
  In x (candidates d f) -> confidence x <= 95.
Proof.
  intros H. apply candidates_ceiling in H. unfold ceilings in H. simpl in H. lia.
Qed.

(** What the structured data gives for a field is the field's result. *)
Lemma schema_find_wins (d : Document) (f : Field) (s : string) :
  schemaText d f = Some s ->
  allWhiteSpace s = false ->
  resolve (candidates d f)
  = {| value := unwords (words s); confidence := 95; source := "JSON-LD Schema" |}.
Proof.
  intros E W.
  assert (C : candidates d f
              = {| value := unwords (words s); confidence := 95;
                   source := "JSON-LD Schema" |}
                :: (matchedIf (openGraphText d f) 85 "OpenGraph Meta"
                    ++ siteMatches d f ++ genericMatches d f ++ ariaMatches d f
                    ++ textMatches d f ++ fallbackMatches d f)).
  { unfold candidates. rewrite E. cbn [matchedIf]. unfold matched. rewrite W.
    reflexivity. }
  rewrite C. apply resolve_first; [reflexivity|].
  intros y Hy. cbn [confidence]. apply (candidates_at_most_95 d f).
  rewrite C. right. exact Hy.
Qed.



(** ** Text analysis on one sentence *)

(** C6, as the code has it.  On a page with nothing in the markup whose
    body text is the sentence ["Join Acme Inc as a Senior Engineer in
    Austin, TX"], [detect] returns the company ["Join Acme Inc"], which
    contains ["Acme Inc"], found by the pattern for a legal-entity
    suffix, and the location ["Austin, TX"], each at confidence 60 from
    the text analysis. *)
Theorem sentence_text_analysis (d : Document) :
  silentMarkup d ->
  bodyText d = Some joinAcme ->
  exists out,
    detect d = Normal out
    /\ at_ (values out) Company = "Join Acme Inc"
    /\ includes "Join Acme Inc" "Acme Inc" = true
    /\ companyAfterAt joinAcme = None
    /\ companyWithSuffix joinAcme = Some "Join Acme Inc"
    /\ at_ (confidences out) Company = 60
    /\ at_ (sources out) Company = "Text Analysis"
    /\ at_ (values out) Location = "Austin, TX"
    /\ at_ (confidences out) Location = 60
    /\ at_ (sources out) Location = "Text Analysis".
Proof.
  intros S B.
  exists (output (merge initial (candidates d))).
  split; [apply detect_returns; exact (silent_wellTyped d joinAcme S B)|].
  assert (A : companyAfterAt joinAcme = None) by (vm_compute; reflexivity).
  assert (X : companyWithSuffix joinAcme = Some "Join Acme Inc")
    by (vm_compute; reflexivity).
  assert (C : at_ (merge initial (candidates d)) Company
              = {| value := "Join Acme Inc"; confidence := 60;
                   source := "Text Analysis" |}).
  { rewrite at_merge, at_initial, (silent_candidates d Company S).
    unfold textMatches, fallbackMatches, findCompanyName. rewrite B, A, X.
    change (matchedIf (Some "Join Acme Inc") 60 "Text Analysis")
      with [{| value := "Join Acme Inc"; confidence := 60;
               source := "Text Analysis" |}].
    apply resolve_first; [reflexivity|].
    intros y Hy. apply matched_confidence in Hy. cbn [confidence]. lia. }
  assert (L : at_ (merge initial (candidates d)) Location
              = {| value := "Austin, TX"; confidence := 60;
                   source := "Text Analysis" |}).
  { rewrite at_merge, at_initial, (silent_candidates d Location S).
    unfold textMatches, fallbackMatches. rewrite B.
    vm_compute. reflexivity. }
  destruct (at_output (merge initial (candidates d)) Company) as [-> [-> ->]].
  destruct (at_output (merge initial (candidates d)) Location) as [-> [-> ->]].
  rewrite C, L. cbn [value confidence source].
  split; [reflexivity|]. split; [vm_compute; reflexivity|].
  split; [exact A|]. split; [exact X|]. repeat split.
Qed.

Lemma sentence_text_analysis_witness :
  exists out,
    detect joinAcmePage = Normal out
    /\ at_ (values out) Company = "Join Acme Inc"
    /\ includes "Join Acme Inc" "Acme Inc" = true
    /\ companyAfterAt joinAcme = None
    /\ companyWithSuffix joinAcme = Some "Join Acme Inc"
    /\ at_ (confidences out) Company = 60
    /\ at_ (sources out) Company = "Text Analysis"
    /\ at_ (values out) Location = "Austin, TX"
    /\ at_ (confidences out) Location = 60
    /\ at_ (sources out) Location = "Text Analysis".
Proof.
  apply (sentence_text_analysis joinAcmePage).
  - repeat split.
  - reflexivity.
Defined.

(** C6 as stated fails on a page whose body text contains the sentence
    after another one that names a city and state: the location that
    [detect] returns is the earlier one. *)
Lemma earlier_city_wins :
  silentMarkup afterBostonPage
  /\ (exists body, bodyText afterBostonPage = Some body
                   /\ includes body joinAcme = true)
  /\ exists out,
       detect afterBostonPage = Normal out
       /\ at_ (confidences out) Location = 60
       /\ at_ (values out) Location = "Boston, MA"
       /\ at_ (values out) Location <> "Austin, TX".
Proof.
  split; [repeat split|]. split.
  - eexists. split; [reflexivity|vm_compute; reflexivity].
  - eexists. split; [vm_compute; reflexivity|].
    repeat split. discriminate.
Qed.

(** ** Failures inside detection *)

Lemma findJobPostingIn_parsed (l : list (completion json)) :
  findJobPostingIn
    (filter (fun s => match s with Normal _ => true | Throws _ => false end) l)
  = findJobPostingIn l.
Proof.
  induction l as [|s l IH]; [reflexivity|].
  destruct s as [data|e]; cbn [filter]; [|exact IH].
  cbn [findJobPostingIn bind]. rewrite IH. reflexivity.
Qed.

Lemma withoutFailures_schema (d : Document) :
  findJobPostingSchema (withoutFailures d) = findJobPostingSchema d.
Proof. unfold findJobPostingSchema. apply findJobPostingIn_parsed. Qed.

Lemma withoutFailures_selector (d : Document) (c : Z) (src selector : string) :
  selectorFinds (withoutFailures d) c src selector = selectorFinds d c src selector.
Proof.
  unfold selectorFinds. cbn [querySelector withoutFailures].
  destruct (querySelector d selector); reflexivity.
Qed.

Lemma withoutFailures_selectors (d : Document) (selectors : string) (c : Z)
  (src : string) :
  selectorMatches (withoutFailures d) selectors c src
  = selectorMatches d selectors c src.
Proof.
  unfold selectorMatches.
  induction (map trim (split "," selectors)) as [|s l IH]; [reflexivity|].
  cbn [flat_map]. rewrite withoutFailures_selector, IH. reflexivity.
Qed.

Lemma withoutFailures_schemaText (d : Document) (f : Field) :
  schemaText (withoutFailures d) f = schemaText d f.
Proof. unfold schemaText. rewrite withoutFailures_schema. reflexivity. Qed.

Lemma withoutFailures_openGraph (d : Document) (f : Field) :
  openGraphText (withoutFailures d) f = openGraphText d f.
Proof. reflexivity. Qed.

Lemma withoutFailures_site (d : Document) (f : Field) :
  siteMatches (withoutFailures d) f = siteMatches d f.
Proof.
  unfold siteMatches.
  change (sitePatternOf (withoutFailures d)) with (sitePatternOf d).
  destruct (sitePatternOf d); [apply withoutFailures_selectors|reflexivity].
Qed.

Lemma withoutFailures_generic (d : Document) (f : Field) :
  genericMatches (withoutFailures d) f = genericMatches d f.
Proof. unfold genericMatches. destruct f; apply withoutFailures_selectors. Qed.

Lemma withoutFailures_aria (d : Document) (f : Field) :
  ariaMatches (withoutFailures d) f = ariaMatches d f.
Proof. reflexivity. Qed.

Lemma withoutFailures_text (d : Document) (f : Field) :
  textMatches (withoutFailures d) f = textMatches d f.
Proof. reflexivity. Qed.

Lemma withoutFailures_fallback (d : Document) (f : Field) :
  fallbackMatches (withoutFailures d) f = fallbackMatches d f.
Proof. reflexivity. Qed.

Lemma withoutFailures_candidates (d : Document) (f : Field) :
  candidates (withoutFailures d) f = candidates d f.
Proof.
  unfold candidates.
  rewrite withoutFailures_schemaText, withoutFailures_openGraph,
    withoutFailures_site, withoutFailures_generic, withoutFailures_aria,
    withoutFailures_text, withoutFailures_fallback.
  reflexivity.
Qed.

Lemma withoutFailures_wellTyped (d : Document) :
  wellTyped (withoutFailures d) = wellTyped d.
Proof.
  unfold wellTyped, schemaOk. rewrite withoutFailures_schema. reflexivity.
Qed.




(** * More of the detector *)

(** ** When detection throws *)

(** X1.  [detect] returns exactly on the well-typed documents (a body,
    and text or nothing under the stored properties of the chosen
    posting), and on every other document it throws a [TypeError], never
    another error. *)
Theorem detect_throws_exactly (d : Document) :
  ((exists out, detect d = Normal out) <-> wellTyped d = true)
  /\ (detect d = Throws TypeError <-> wellTyped d = false)
  /\ (forall e, detect d = Throws e -> e = TypeError).
Proof.
  rewrite detect_merge. destruct (wellTyped d).
  - split; [split; [reflexivity|eexists; reflexivity]|].
    split; [split; discriminate|discriminate].
  - split; [split; [intros [out H]; discriminate|discriminate]|].
    split; [split; reflexivity|]. intros e [= <-]. reflexivity.
Qed.

(** ** The choice of the posting *)

Lemma find_over_app {A : Type} (p : A -> bool) (l l' : list A) :
  find p (l ++ l') = match find p l with
                     | Some x => Some x
                     | None => find p l'
                     end.
Proof.
  induction l as [|a l IH]; [reflexivity|].
  cbn [app find]. destruct (p a); [reflexivity|exact IH].
Qed.

Lemma firstJobPosting_find (items : list json) :
  forallb (fun item => negb (isNull item)) items = true ->
  firstJobPosting items = Normal (find isJobPosting items).
Proof.
  induction items as [|x l IH]; [reflexivity|].
  cbn [forallb]. rewrite andb_true_iff. intros [Hx Hl].
  cbn [firstJobPosting find]. unfold isJobPosting at 1, prop.
  destruct x as [| b | nz t | s | xs | members]; try discriminate;
    cbn [get bind]; try (cbn [strictEqString]; exact (IH Hl)).
  destruct (strictEqString (member "@type" members) "JobPosting");
    [reflexivity|exact (IH Hl)].
Qed.

Lemma entries_cons (data : json) (l : list (completion json)) :
  entries (Normal data :: l) = itemsOf data ++ entries l.
Proof. reflexivity. Qed.

(** X2.  When no block holds a [null] entry, [findJobPostingSchema]
    returns the first entry typed ["JobPosting"] among the entries of
    all blocks that parse, taken in document order and, within an array
    block, in array order; blocks that fail to parse are passed over. *)
Theorem findJobPostingSchema_first (d : Document) :
  forallb (fun item => negb (isNull item)) (entries (ldJson d)) = true ->
  findJobPostingSchema d = find isJobPosting (entries (ldJson d)).
Proof.
  unfold findJobPostingSchema.
  induction (ldJson d) as [|script l IH]; [reflexivity|].
  destruct script as [data|e]; [|exact IH].
  rewrite entries_cons, forallb_app, andb_true_iff. intros [Hd Hl].
  cbn [findJobPostingIn bind]. rewrite (firstJobPosting_find _ Hd), find_over_app.
  destruct (find isJobPosting (itemsOf data)); [reflexivity|exact (IH Hl)].
Qed.

Lemma findJobPostingSchema_first_witness :
  findJobPostingSchema busyPage
  = Some (JObj [("@type", JStr "JobPosting"); ("title", JStr "  Staff   Engineer ")]).
Proof.
  rewrite (findJobPostingSchema_first busyPage); reflexivity.
Defined.

Lemma firstJobPosting_in (items : list json) (item : json) :
  firstJobPosting items = Normal (Some item) -> In item items.
Proof.
  induction items as [|x l IH]; [discriminate|].
  cbn [firstJobPosting].
  destruct (get x "@type") as [type|e]; [|discriminate]. cbn [bind].
  destruct (strictEqString type "JobPosting").
  - intros [= <-]. left. reflexivity.
  - intros H. right. exact (IH H).
Qed.

(** X3.  Whatever [findJobPostingSchema] returns is an entry of a block
    that parsed, is an object, and has the string ["JobPosting"] for its
    [@type]: an entry of another type, or with a type that is not
    exactly that string, is never chosen. *)
Theorem findJobPostingSchema_typed (d : Document) (item : json) :
  findJobPostingSchema d = Some item ->
  In item (entries (ldJson d))
  /\ isJobPosting item = true
  /\ exists members, item = JObj members
                     /\ member "@type" members = Some (JStr "JobPosting").
Proof.
  intros H. split.
  - unfold findJobPostingSchema in H.
    induction (ldJson d) as [|script l IH]; [discriminate|].
    destruct script as [data|e]; [|exact (IH H)].
    rewrite entries_cons. apply in_or_app.
    cbn [findJobPostingIn bind] in H.
    destruct (firstJobPosting (itemsOf data)) as [[x|]|e] eqn:F.
    + injection H as <-. left. exact (firstJobPosting_in _ _ F).
    + right. exact (IH H).
    + right. exact (IH H).
  - destruct (findJobPostingIn_object _ _ H) as [m [-> Hm]]. split.
    + unfold isJobPosting, prop. cbn [get]. rewrite Hm. reflexivity.
    + exists m. split; [reflexivity|exact Hm].
Qed.

Lemma findJobPostingSchema_typed_witness :
  In seniorEngineerPosting (entries (ldJson postingPage))
  /\ isJobPosting seniorEngineerPosting = true
  /\ exists members, seniorEngineerPosting = JObj members
                     /\ member "@type" members = Some (JStr "JobPosting").
Proof.
  exact (findJobPostingSchema_typed postingPage seniorEngineerPosting eq_refl).
Defined.

(** ** The first match of a layer *)

(** Among finds of one confidence above the current one, the first is
    kept. *)
Lemma fold_better_head (finds : list FieldResult) (cur : FieldResult) (c : Z) :
  (forall x, In x finds -> confidence x = c) ->
  confidence cur < c ->
  fold_left better finds cur = hd cur finds.
Proof.
  intros H Hc. destruct finds as [|x l]; [reflexivity|].
  cbn [fold_left hd].
  assert (Ex : confidence x = c) by (apply H; left; reflexivity).
  assert (B : better cur x = x).
  { unfold better. destruct (Z.gtb_spec (confidence x) (confidence cur));
      [reflexivity|lia]. }
  rewrite B. apply fold_better_keep. intros y Hy.
  rewrite (H y (or_intror Hy)). lia.
Qed.

Lemma selectorFinds_head (d : Document) (c : Z) (src : string)
  (l : list string) (cur : FieldResult) :
  hd cur (flat_map (selectorFinds d c src) l)
  = match find (hasText d) l with
    | Some selector => asResult (elementText d selector) c src
    | None => cur
    end.
Proof.
  induction l as [|s l IH]; [reflexivity|].
  cbn [flat_map find]. unfold selectorFinds at 1, hasText at 1, elementText, matched.
  destruct (querySelector d s) as [content| |] eqn:Q; try exact IH.
  destruct (allWhiteSpace content); [exact IH|].
  cbn [negb app hd]. rewrite Q. reflexivity.
Qed.

Lemma at_merge_other (r : Results) (f g : Field) (finds : list FieldResult) :
  g <> f -> at_ (merge r (only f finds)) g = at_ r g.
Proof.
  intros H. rewrite at_merge. unfold only.
  destruct f, g; try reflexivity; congruence.
Qed.

(** X4.  [trySelectors] changes no other field; it changes nothing when
    the field is already at the confidence offered or above; and
    otherwise the field becomes the normalised text of the first
    selector of the list that finds an element with text, a selector
    that throws or finds nothing being passed over, and stays as it is
    when there is no such selector. *)
Theorem trySelectors_first_text (d : Document) (r : Results) (f : Field)
  (selectors : string) (c : Z) (src : string) :
  (forall g, g <> f ->
             at_ (trySelectors d r f selectors c src) g = at_ r g)
  /\ (c <= confidence (at_ r f) -> trySelectors d r f selectors c src = r)
  /\ (confidence (at_ r f) < c ->
      at_ (trySelectors d r f selectors c src) f
      = match find (hasText d) (selectorList selectors) with
        | Some selector => asResult (elementText d selector) c src
        | None => at_ r f
        end).
Proof.
  rewrite trySelectors_merge. split; [|split].
  - intros g Hg. apply at_merge_other. exact Hg.
  - intros Hc. apply merge_only_keep. intros x Hx.
    apply selectorFinds_confidence in Hx. lia.
  - intros Hc. rewrite at_merge_only. unfold selectorMatches.
    rewrite (fold_better_head _ _ c); [apply selectorFinds_head| |exact Hc].
    intros x Hx. exact (selectorFinds_confidence _ _ _ _ _ Hx).
Qed.

Lemma ariaFinds_head (f : Field) (els : list Labelled) (cur : FieldResult) :
  hd cur (flat_map (ariaFinds f) els)
  = match find (labelled f) els with
    | Some el => asResult (labelledText el) 70 "ARIA Label"
    | None => cur
    end.
Proof.
  induction els as [|el l IH]; [reflexivity|].
  cbn [flat_map find]. unfold ariaFinds at 1, labelled at 1, matched.
  destruct (labelNames f (toLowerCase (ariaLabel el))); [|exact IH].
  destruct (allWhiteSpace (labelledText el)); [exact IH|reflexivity].
Qed.

(** X5.  [tryAriaLabels] always returns.  A field below confidence 70
    becomes the normalised text, at confidence 70, of the first labelled
    element whose label names the field and that has text; a field at 70
    or above, and the description in any case, stays as it is. *)
Theorem tryAriaLabels_first_labelled (d : Document) (r : Results) :
  exists r',
    tryAriaLabels d r = Normal r'
    /\ forall f,
         at_ r' f
         = if confidence (at_ r f) <? 70
           then match find (labelled f) (ariaLabelled d) with
                | Some el => asResult (labelledText el) 70 "ARIA Label"
                | None => at_ r f
                end
           else at_ r f.
Proof.
  exists (merge r (fun f => flat_map (ariaFinds f) (ariaLabelled d))).
  split; [apply tryAriaElements_merge|].
  intros f. rewrite at_merge.
  assert (C : forall x, In x (flat_map (ariaFinds f) (ariaLabelled d)) ->
                        confidence x = 70).
  { intros x Hx. apply in_flat_map in Hx. destruct Hx as [el [_ Hx]].
    unfold ariaFinds in Hx. destruct (labelNames f _); [|destruct Hx].
    exact (matched_confidence _ _ _ _ Hx). }
  destruct (Z.ltb_spec (confidence (at_ r f)) 70) as [Hlt|Hge].
  - rewrite (fold_better_head _ _ 70 C Hlt). apply ariaFinds_head.
  - apply fold_better_keep. intros x Hx. rewrite (C x Hx). exact Hge.
Qed.

(** ** Structured data against the rest of the page *)

(** X6.  A text that the chosen posting gives for a field is what
    [detect] returns for it, at confidence 95 and with the source
    ["JSON-LD Schema"], whatever the meta tags, the selectors, the
    labels, the text and the fallbacks of the page would give. *)
Theorem schema_text_is_returned (d : Document) (out : DetectionOutput)
  (f : Field) (s : string) :
  detect d = Normal out ->
  schemaText d f = Some s ->
  allWhiteSpace s = false ->
  at_ (values out) f = unwords (words s)
  /\ at_ (confidences out) f = 95
  /\ at_ (sources out) f = "JSON-LD Schema".
Proof.
  intros H E W. destruct (detect_resolve d out H f) as [-> [-> ->]].
  rewrite (schema_find_wins d f s E W). repeat split.
Qed.

Lemma schema_text_is_returned_witness :
  exists out,
    detect busyPage = Normal out
    /\ at_ (values out) JobTitle = "Staff Engineer"
    /\ at_ (confidences out) JobTitle = 95
    /\ at_ (sources out) JobTitle = "JSON-LD Schema".
Proof.
  eexists. split; [vm_compute; reflexivity|].
  exact (schema_text_is_returned busyPage _ JobTitle "  Staff   Engineer "
           eq_refl eq_refl eq_refl).
Defined.

(** ** Running a layer again *)

Lemma fold_better_again (finds : list FieldResult) (cur : FieldResult) :
  fold_left better finds (fold_left better finds cur)
  = fold_left better finds cur.
Proof.
  apply fold_better_keep. intros x Hx.
  rewrite fold_better_confidence.
  revert x Hx.
  generalize (confidence cur) as b.
  induction finds as [|a l IH]; intros b x Hx; [destruct Hx|].
  cbn [map fold_right]. destruct Hx as [<-|Hx]; [lia|].
  specialize (IH b x Hx). lia.
Qed.

Lemma merge_again (r : Results) (finds : Field -> list FieldResult) :
  merge (merge r finds) finds = merge r finds.
Proof. unfold merge. cbn [company jobTitle location description].
  rewrite !fold_better_again. reflexivity. Qed.

(** X7.  Each of the four layers is idempotent: run on its own result,
    it returns that result unchanged. *)
Theorem layers_idempotent (d : Document) (r r' : Results) :
  (detectFromStructuredData d r = Normal r' ->
   detectFromStructuredData d r' = Normal r')
  /\ (detectFromSemanticHTML d r = Normal r' ->
      detectFromSemanticHTML d r' = Normal r')
  /\ (detectFromTextAnalysis d r = Normal r' ->
      detectFromTextAnalysis d r' = Normal r')
  /\ (applyFallbacks d r = Normal r' -> applyFallbacks d r' = Normal r').
Proof.
  rewrite !detectFromStructuredData_merge, !detectFromSemanticHTML_merge,
    !detectFromTextAnalysis_merge, !applyFallbacks_merge.
  repeat split.
  - destruct (schemaOk d); [|discriminate].
    intros [= <-]. rewrite merge_again. reflexivity.
  - intros [= <-]. rewrite merge_again. reflexivity.
  - destruct (bodyText d); [|discriminate].
    intros [= <-]. rewrite merge_again. reflexivity.
  - intros [= <-]. rewrite merge_again. reflexivity.
Qed.

(** ** The indicator of a field *)

Lemma resolve_nil_iff (d : Document) (f : Field) :
  confidence (resolve (candidates d f)) = 0 <-> candidates d f = [].
Proof.
  split.
  - intros H. destruct (candidates d f) as [|x l] eqn:E; [reflexivity|].
    exfalso. rewrite resolve_confidence in H. unfold maxConfidence in H.
    cbn [map fold_right] in H.
    assert (P : 0 < confidence x)
      by (apply (candidates_positive d f); rewrite E; left; reflexivity).
    assert (G := fold_max_ge 0 (map confidence l)). lia.
  - intros ->. reflexivity.
Qed.

(** X8.  For what [detect] returns, the popup shows a field as not
    detected exactly when no layer has a find for it, and as high
    exactly when some find has confidence 70 or more, that is, comes from
    structured data, a selector or a label. *)
Theorem indicator_of_field (d : Document) (out : DetectionOutput) (f : Field) :
  detect d = Normal out ->
  (Form.setConfidenceIndicator (at_ (confidences out) f) = Form.ConfidenceNone
   <-> candidates d f = [])
  /\ (Form.setConfidenceIndicator (at_ (confidences out) f) = Form.ConfidenceHigh
      <-> exists x, In x (candidates d f) /\ 70 <= confidence x).
Proof.
  intros H. destruct (detect_resolve d out H f) as [_ [E _]]. rewrite E.
  assert (G : In (confidence (resolve (candidates d f))) (0 :: ceilings)).
  { unfold resolve.
    destruct (fold_better_in (candidates d f) undetected) as [->|I].
    - left. reflexivity.
    - right. exact (candidates_ceiling d f _ I). }
  split.
  - rewrite <- resolve_nil_iff. unfold Form.setConfidenceIndicator.
    unfold ceilings in G. simpl in G.
    destruct G as [G|[G|[G|[G|[G|[G|[G|[G|[G|[]]]]]]]]]]; rewrite <- G; simpl;
      split; intros; try discriminate; try reflexivity.
  - split.
    + intros I.
      assert (C : 70 <= confidence (resolve (candidates d f))).
      { revert I. unfold Form.setConfidenceIndicator.
        destruct (Z.geb_spec (confidence (resolve (candidates d f))) 70);
          [lia|].
        destruct (_ >=? 40); [discriminate|].
        destruct (_ >? 0); discriminate. }
      unfold resolve in C.
      destruct (fold_better_in (candidates d f) undetected) as [Eq|I'].
      * rewrite Eq in C. simpl in C. lia.
      * eexists. split; [exact I'|exact C].
    + intros [x [Hx Cx]]. unfold Form.setConfidenceIndicator.
      assert (M : confidence x <= confidence (resolve (candidates d f))).
      { rewrite resolve_confidence. unfold maxConfidence.
        clear - Hx. induction (candidates d f) as [|a l IH]; [destruct Hx|].
        cbn [map fold_right]. destruct Hx as [<-|Hx]; [lia|].
        specialize (IH Hx). lia. }
      destruct (Z.geb_spec (confidence (resolve (candidates d f))) 70);
        [reflexivity|lia].
Qed.

Lemma indicator_of_field_witness :
  exists out,
    detect busyPage = Normal out
    /\ Form.setConfidenceIndicator (at_ (confidences out) Description)
       = Form.ConfidenceNone
    /\ Form.setConfidenceIndicator (at_ (confidences out) Location)
       = Form.ConfidenceHigh.
Proof.
  eexists. split; [vm_compute; reflexivity|]. split.
  - apply (proj2 (proj1 (indicator_of_field busyPage _ Description eq_refl))).
    vm_compute. reflexivity.
  - apply (proj2 (proj2 (indicator_of_field busyPage _ Location eq_refl))).
    eexists. split; [left; reflexivity|]. vm_compute. discriminate.
Defined.

(** ** Stored values are in normal form *)

Lemma firstPiece_noWhiteSpace (s : string) : noWhiteSpace (firstPiece s) = true.
Proof.
  induction s as [|c t IH]; [reflexivity|].
  rewrite firstPiece_cons. destruct (isWhiteSpace c) eqn:W; [reflexivity|].
  cbn [noWhiteSpace]. rewrite W, IH. reflexivity.
Qed.

Lemma laterWords_words (s : string) :
  Forall (fun w => isWord w = true) (laterWords s)
  /\ Forall (fun w => isWord w = true) (words s).
Proof.
  induction s as [|c t [IH1 IH2]]; [split; constructor|].
  rewrite words_split, firstPiece_cons, laterWords_cons.
  destruct (isWhiteSpace c) eqn:W.
  - cbn [isEmpty]. split; exact IH2.
  - cbn [isEmpty]. split; [exact IH1|]. constructor; [|exact IH1].
    unfold isWord. cbn [isEmpty negb noWhiteSpace andb].
    rewrite W, firstPiece_noWhiteSpace. reflexivity.
Qed.

Lemma words_are_words (s : string) : Forall (fun w => isWord w = true) (words s).
Proof. exact (proj2 (laterWords_words s)). Qed.

Lemma pieces_app (w t : string) :
  noWhiteSpace w = true ->
  firstPiece (w ++ t) = (w ++ firstPiece t)%string
  /\ laterWords (w ++ t) = laterWords t.
Proof.
  induction w as [|c w IH]; [split; reflexivity|].
  cbn [noWhiteSpace]. rewrite andb_true_iff, negb_true_iff. intros [W H].
  destruct (IH H) as [IH1 IH2].
  cbn [append]. rewrite firstPiece_cons, laterWords_cons, W, IH1, IH2.
  split; reflexivity.
Qed.

Lemma append_empty (w : string) : (w ++ "")%string = w.
Proof. induction w as [|c w IH]; [reflexivity|]. cbn [append]. rewrite IH. reflexivity. Qed.

Lemma isEmpty_append (w t : string) :
  isEmpty w = false -> isEmpty (w ++ t) = false.
Proof. destruct w; [discriminate|reflexivity]. Qed.

Lemma words_unwords (ws : list string) :
  Forall (fun w => isWord w = true) ws -> words (unwords ws) = ws.
Proof.
  induction 1 as [|w l Hw Hl IH]; [reflexivity|].
  unfold isWord in Hw. apply andb_true_iff in Hw. destruct Hw as [Hn Hf].
  apply negb_true_iff in Hn.
  rewrite unwords_cons, words_split.
  destruct (pieces_app w (spaced l) Hf) as [-> ->].
  rewrite (isEmpty_append _ _ Hn).
  destruct l as [|w' l'].
  - cbn [spaced]. rewrite append_empty. reflexivity.
  - unfold spaced. rewrite firstPiece_cons, laterWords_cons.
    change (isWhiteSpace " ") with true. cbn iota.
    rewrite append_empty, IH. reflexivity.
Qed.

Lemma trimEnd_word_app (w t : string) :
  noWhiteSpace w = true -> trimEnd (w ++ t) = (w ++ trimEnd t)%string.
Proof.
  induction w as [|c w IH]; [reflexivity|].
  cbn [noWhiteSpace]. rewrite andb_true_iff, negb_true_iff. intros [W H].
  cbn [append]. rewrite trimEnd_cons, W, (IH H). reflexivity.
Qed.

Lemma allWhiteSpace_word_app (w t : string) :
  isWord w = true -> allWhiteSpace (w ++ t) = false.
Proof.
  unfold isWord. destruct w as [|c w]; [discriminate|].
  cbn [isEmpty negb noWhiteSpace andb append allWhiteSpace].
  rewrite andb_true_iff, negb_true_iff. intros [-> _]. reflexivity.
Qed.

Lemma trimEnd_unwords (ws : list string) :
  Forall (fun w => isWord w = true) ws -> trimEnd (unwords ws) = unwords ws.
Proof.
  induction 1 as [|w l Hw Hl IH]; [reflexivity|].
  assert (Hf : noWhiteSpace w = true)
    by (unfold isWord in Hw; apply andb_true_iff in Hw; tauto).
  rewrite unwords_cons, (trimEnd_word_app _ _ Hf). f_equal.
  destruct l as [|w' l']; [reflexivity|].
  unfold spaced. rewrite trimEnd_cons, IH.
  inversion Hl as [|? ? Hw' _]; subst.
  rewrite unwords_cons, (allWhiteSpace_word_app _ _ Hw'), andb_false_r.
  reflexivity.
Qed.

Lemma trimStart_unwords (ws : list string) :
  Forall (fun w => isWord w = true) ws -> trimStart (unwords ws) = unwords ws.
Proof.
  intros H. destruct H as [|w l Hw _]; [reflexivity|].
  rewrite unwords_cons. unfold isWord in Hw.
  destruct w as [|c w]; [discriminate|].
  cbn [isEmpty negb noWhiteSpace andb] in Hw.
  apply andb_true_iff in Hw. destruct Hw as [Hc _].
  apply negb_true_iff in Hc. cbn [append trimStart]. rewrite Hc. reflexivity.
Qed.

(** X9.  What [updateField] stores is in normal form: it is made of
    words separated by single spaces, trimming it or collapsing its
    white space changes nothing, and so a stored value that goes through
    [updateField] again is stored as it is. *)
Theorem stored_value_normal (s : string) :
  words (cleanValue s) = words s
  /\ trim (cleanValue s) = cleanValue s
  /\ collapseWhiteSpace (cleanValue s) = cleanValue s
  /\ cleanValue (cleanValue s) = cleanValue s.
Proof.
  assert (W := words_are_words s).
  assert (E1 : words (cleanValue s) = words s)
    by (rewrite cleanValue_words; apply words_unwords; exact W).
  assert (E2 : trim (cleanValue s) = cleanValue s).
  { rewrite cleanValue_words. unfold trim.
    rewrite (trimStart_unwords _ W). apply trimEnd_unwords. exact W. }
  assert (E4 : cleanValue (cleanValue s) = cleanValue s).
  { rewrite (cleanValue_words (cleanValue s)), E1. symmetry.
    apply cleanValue_words. }
  repeat split; try assumption.
  rewrite <- E2 at 1. exact E4.
Qed.

(** ** Two patterns on every input *)

(** A greedy repetition of one character class, in front of a
    continuation that accepts everything, reads all the leading
    characters of the class, and fails when they are fewer than the
    minimum. *)
Lemma repeat_class_greedy (p : ascii -> bool) (k : mstate -> option mstate) :
  (forall st, k st <> None) ->
  forall s fuel mn before i cs,
    (String.length s < fuel)%nat ->
    repeatMatcher (run (Char p)) true fuel mn None (MState before i s cs) k
    = if (mn <=? String.length (leading p s))%nat
      then k (MState (lastRead p before s)
                (i + String.length (leading p s)) (after p s) cs)
      else None.
Proof.
  intros Hk. induction s as [|c t IH]; intros fuel mn before i cs Hf.
  - destruct fuel as [|fuel]; [cbn in Hf; lia|].
    cbn [repeatMatcher run rest leading after lastRead String.length].
    rewrite Nat.add_0_r. destruct mn as [|mn]; reflexivity.
  - destruct fuel as [|fuel]; [cbn in Hf; lia|].
    cbn [String.length] in Hf.
    cbn [repeatMatcher run rest pos caps leading after lastRead].
    destruct (p c) eqn:P.
    + cbn [String.length]. rewrite (IH fuel); [|lia].
      replace (S i + String.length (leading p t))%nat
        with (i + S (String.length (leading p t)))%nat by lia.
      destruct mn as [|mn].
      * cbn [andb Nat.pred option_map Nat.leb].
        replace (S i =? i)%nat with false by (symmetry; apply Nat.eqb_neq; lia).
        destruct (k _) eqn:E; [reflexivity|]. exfalso. exact (Hk _ E).
      * cbn [andb Nat.pred option_map Nat.leb]. reflexivity.
    + cbn [String.length]. rewrite Nat.add_0_r.
      destruct mn as [|mn]; reflexivity.
Qed.

Lemma execFrom_not_at_start (r : regex) (t s : string) :
  forall c i, execFrom (Seq Bol r) t (Some c) i s = None.
Proof.
  induction s as [|a s IH]; intros c i; cbn [execFrom run prev]; [reflexivity|].
  apply IH.
Qed.

Lemma substring_leading (p : ascii -> bool) (s : string) :
  substring 0 (String.length (leading p s)) s = leading p s.
Proof.
  induction s as [|c t IH]; [reflexivity|].
  cbn [leading]. destruct (p c); [|reflexivity].
  cbn [String.length substring]. rewrite IH. reflexivity.
Qed.

Lemma pageTitle_leading (t : string) :
  match exec titlePattern t with
  | Some m => group 1 m
  | None => None
  end
  = if isEmpty (leading titleChar t) then None else Some (leading titleChar t).
Proof.
  unfold exec, titlePattern. cbn [seqs].
  assert (R : run (Seq Bol (Group 1 (plus (Char (notClass (oneOf "-|"))))))
                (MState None 0 t []) (fun st => Some st)
              = if (1 <=? String.length (leading titleChar t))%nat
                then Some (capture 1 0
                             (MState (lastRead titleChar None t)
                                (String.length (leading titleChar t))
                                (after titleChar t) []))
                else None).
  { cbn [run prev plus rest pos].
    rewrite (repeat_class_greedy titleChar
               (fun st' => Some (capture 1 0 st'))); [reflexivity| |lia].
    discriminate. }
  destruct t as [|c t'].
  - reflexivity.
  - cbn [execFrom]. rewrite R. cbn [leading].
    destruct (titleChar c) eqn:P.
    + cbn [String.length Nat.leb isEmpty]. unfold group.
      cbn [final caps capture lookup Nat.eqb pos input].
      rewrite Nat.sub_0_r.
      change (S (String.length (leading titleChar t')))
        with (String.length (String c (leading titleChar t'))).
      assert (S := substring_leading titleChar (String c t')).
      cbn [leading] in S. rewrite P in S. rewrite S. reflexivity.
    + cbn [String.length Nat.leb isEmpty].
      rewrite execFrom_not_at_start. reflexivity.
Qed.

Lemma prefix_cons (a b : ascii) (s t : string) :
  prefix (String a s) (String b t) = Ascii.eqb b a && prefix s t.
Proof.
  cbn [prefix]. destruct (ascii_dec a b) as [E|E];
    destruct (Ascii.eqb_spec b a) as [F|F]; try reflexivity; congruence.
Qed.

Lemma replace_www (host : string) :
  replace (seqs [Bol; lit "www."]) "" host = withoutWww host.
Proof.
  unfold replace, exec, withoutWww. cbn [seqs lit].
  destruct host as [|c1 h1]; [reflexivity|].
  cbn [execFrom run prev rest pos caps]. unfold Regex.only.
  rewrite execFrom_not_at_start, prefix_cons.
  destruct (Ascii.eqb c1 "w"); [|reflexivity].
  destruct h1 as [|c2 h2];
    [cbn [execFrom run prev rest pos caps andb prefix]; reflexivity|].
  rewrite prefix_cons.
  destruct (Ascii.eqb c2 "w"); [|reflexivity].
  destruct h2 as [|c3 h3];
    [cbn [execFrom run prev rest pos caps andb prefix]; reflexivity|].
  rewrite prefix_cons.
  destruct (Ascii.eqb c3 "w"); [|reflexivity].
  destruct h3 as [|c4 h4];
    [cbn [execFrom run prev rest pos caps andb prefix]; reflexivity|].
  rewrite prefix_cons.
  destruct (Ascii.eqb c4 "."); [|reflexivity].
  cbn [andb index final pos String.length substring append Nat.sub].
  destruct h4; reflexivity.
Qed.

Lemma first_label (s : string) : hd "" (split "." s) = leading notDot s.
Proof.
  induction s as [|c t IH]; [reflexivity|].
  cbn [split leading]. unfold notDot at 1.
  destruct (Ascii.eqb c "."); cbn [negb hd]; [reflexivity|].
  rewrite <- IH. destruct (split "." t); reflexivity.
Qed.

Lemma companyFromHost_label (host : string) :
  companyFromHost host = capitalize (leading notDot (withoutWww host)).
Proof. unfold companyFromHost. rewrite replace_www, first_label. reflexivity. Qed.

(** ** The fallbacks *)

(** X10.  [applyFallbacks] always returns, and the job title it leaves
    is: the title already there when that has confidence 40 or more;
    else what the page title holds before its first hyphen or bar, at
    confidence 40, when that part is not blank; else, for a title below
    35, the text of the first [h1] at confidence 35 when there is one
    that is not blank; else the title already there. *)
Theorem applyFallbacks_jobTitle (d : Document) (r : Results) :
  exists r',
    applyFallbacks d r = Normal r'
    /\ at_ r' JobTitle
       = if 40 <=? confidence (at_ r JobTitle) then at_ r JobTitle
         else if negb (allWhiteSpace (leading titleChar (title d)))
         then asResult (leading titleChar (title d)) 40 "Page Title"
         else if 35 <=? confidence (at_ r JobTitle) then at_ r JobTitle
         else match h1Elements d with
              | firstH1 :: _ =>
                  if allWhiteSpace (headingText firstH1) then at_ r JobTitle
                  else asResult (headingText firstH1) 35 "First H1"
              | [] => at_ r JobTitle
              end.
Proof.
  exists (merge r (fallbackMatches d)). split; [apply applyFallbacks_merge|].
  rewrite at_merge. cbn [fallbackMatches]. unfold pageTitleText.
  rewrite pageTitle_leading.
  set (cur := at_ r JobTitle). set (t := leading titleChar (title d)).
  assert (B : forall x, better cur x
                        = if confidence x >? confidence cur then x else cur)
    by reflexivity.
  assert (T : matchedIf (if isEmpty t then None else Some t) 40 "Page Title"
              = if allWhiteSpace t then []
                else [asResult t 40 "Page Title"]).
  { destruct t; reflexivity. }
  rewrite T. clear T.
  assert (H : matchedIf (firstH1Text d) 35 "First H1"
              = match h1Elements d with
                | firstH1 :: _ =>
                    if allWhiteSpace (headingText firstH1) then []
                    else [asResult (headingText firstH1) 35 "First H1"]
                | [] => []
                end).
  { unfold firstH1Text. destruct (h1Elements d); reflexivity. }
  rewrite H. clear H.
  destruct (Z.leb_spec 40 (confidence cur)) as [H40|H40].
  - apply fold_better_keep. intros x Hx. apply in_app_or in Hx.
    destruct Hx as [Hx|Hx].
    + destruct (allWhiteSpace t); [destruct Hx|].
      destruct Hx as [<-|[]]. unfold asResult. cbn [confidence]. lia.
    + destruct (h1Elements d) as [|h l]; [destruct Hx|].
      destruct (allWhiteSpace (headingText h)); [destruct Hx|].
      destruct Hx as [<-|[]]. unfold asResult. cbn [confidence]. lia.
  - destruct (allWhiteSpace t); cbn [negb app].
    + destruct (Z.leb_spec 35 (confidence cur)) as [H35|H35].
      * apply fold_better_keep. intros x Hx.
        destruct (h1Elements d) as [|h l]; [destruct Hx|].
        destruct (allWhiteSpace (headingText h)); [destruct Hx|].
        destruct Hx as [<-|[]]. unfold asResult. cbn [confidence]. lia.
      * destruct (h1Elements d) as [|h l]; [reflexivity|].
        destruct (allWhiteSpace (headingText h)); [reflexivity|].
        cbn [fold_left]. rewrite B. unfold asResult at 1 2. cbn [confidence].
        destruct (Z.gtb_spec 35 (confidence cur)); [reflexivity|lia].
    + cbn [fold_left]. rewrite B. unfold asResult at 1 2. cbn [confidence].
      destruct (Z.gtb_spec 40 (confidence cur)); [|lia].
      apply fold_better_keep. intros x Hx.
      destruct (h1Elements d) as [|h l]; [destruct Hx|].
      destruct (allWhiteSpace (headingText h)); [destruct Hx|].
      destruct Hx as [<-|[]]. unfold asResult. cbn [confidence]. lia.
Qed.

(** X11.  [applyFallbacks] leaves the location and the description as
    they are, and changes the company only when it is below confidence
    35 (a company at 35 to 39 passes the test on 40 and is then kept by
    [updateField]): it becomes the first label of the host name, a
    leading ["www."] dropped, with its first letter in upper case, at
    confidence 35, unless that label is blank. *)
Theorem applyFallbacks_company (d : Document) (r : Results) :
  exists r',
    applyFallbacks d r = Normal r'
    /\ at_ r' Location = at_ r Location
    /\ at_ r' Description = at_ r Description
    /\ at_ r' Company
       = let label := capitalize (leading notDot (withoutWww (hostname d))) in
         if (confidence (at_ r Company) <? 35) && negb (allWhiteSpace label)
         then asResult label 35 "Domain Name"
         else at_ r Company.
Proof.
  exists (merge r (fallbackMatches d)). split; [apply applyFallbacks_merge|].
  rewrite !at_merge. cbn [fallbackMatches fold_left].
  split; [reflexivity|]. split; [reflexivity|].
  rewrite companyFromHost_label. cbv zeta.
  set (label := capitalize (leading notDot (withoutWww (hostname d)))).
  unfold matched. destruct (allWhiteSpace label).
  - rewrite andb_false_r. reflexivity.
  - rewrite andb_true_r. cbn [fold_left negb]. unfold better.
    cbn [confidence].
    destruct (Z.ltb_spec (confidence (at_ r Company)) 35);
      destruct (Z.gtb_spec 35 (confidence (at_ r Company)));
      try reflexivity; lia.
Qed.

(** ** The shape of a returned field *)

Lemma words_nonblank (s : string) : allWhiteSpace s = false -> words s <> [].
Proof.
  induction s as [|c t IH]; [discriminate|].
  cbn [allWhiteSpace]. rewrite words_split, firstPiece_cons, laterWords_cons.
  destruct (isWhiteSpace c); cbn [andb isEmpty]; [exact IH|discriminate].
Qed.

Lemma unwords_nonempty (s : string) :
  allWhiteSpace s = false -> unwords (words s) <> "".
Proof.
  intros H. assert (N := words_nonblank s H). assert (F := words_are_words s).
  destruct (words s) as [|w l]; [congruence|].
  rewrite unwords_cons. inversion F as [|? ? Hw _]; subst.
  unfold isWord in Hw. destruct w; [discriminate|]. discriminate.
Qed.

Lemma matched_shape (raw : string) (c : Z) (src : string) (x : FieldResult) :
  In x (matched raw c src) ->
  allWhiteSpace raw = false /\ x = asResult raw c src.
Proof.
  unfold matched. destruct (allWhiteSpace raw); [intros []|].
  intros [<-|[]]. split; reflexivity.
Qed.

Lemma matchedIf_shape (raw : option string) (c : Z) (src : string)
  (x : FieldResult) :
  In x (matchedIf raw c src) ->
  exists s, allWhiteSpace s = false /\ x = asResult s c src.
Proof.
  destruct raw as [s|]; [|intros []]. intros H. exists s.
  exact (matched_shape _ _ _ _ H).
Qed.

Lemma selectorFinds_shape d c src l x :
  In x (flat_map (selectorFinds d c src) l) ->
  exists s, allWhiteSpace s = false /\ x = asResult s c src.
Proof.
  intros H. apply in_flat_map in H. destruct H as [sel [_ H]].
  unfold selectorFinds in H. destruct (querySelector d sel) as [content| |];
    try destruct H.
  exists content. exact (matched_shape _ _ _ _ H).
Qed.

(** Every find of a layer is a text that is not blank, in normal form,
    under one of the stamps of its field. *)
Lemma candidates_shape (d : Document) (f : Field) (x : FieldResult) :
  In x (candidates d f) ->
  exists s c src,
    allWhiteSpace s = false /\ x = asResult s c src
    /\ In (src, c) (layerStamps f).
Proof.
  unfold candidates, siteMatches, genericMatches, textMatches, fallbackMatches,
    selectorMatches, ariaMatches.
  rewrite !in_app_iff. intros H.
  destruct H as [H|[H|[H|[H|[H|[H|H]]]]]].
  - apply matchedIf_shape in H. destruct H as [raw [W E]].
    exists raw, 95, "JSON-LD Schema". repeat split; try assumption.
    destruct f; left; reflexivity.
  - assert (L : f <> Location).
    { intros ->. destruct H. }
    apply matchedIf_shape in H. destruct H as [raw [W E]].
    exists raw, 85, "OpenGraph Meta". repeat split; try assumption.
    destruct f; try congruence; right; left; reflexivity.
  - destruct (sitePatternOf d); [|destruct H].
    apply selectorFinds_shape in H. destruct H as [raw [W E]].
    exists raw, 80, "Known Site Pattern". repeat split; try assumption.
    destruct f; cbn; tauto.
  - destruct f; apply selectorFinds_shape in H; destruct H as [raw [W E]];
      [exists raw, 75, "Semantic HTML"|exists raw, 75, "Semantic HTML"
      |exists raw, 75, "Semantic HTML"|exists raw, 70, "Semantic HTML"];
      repeat split; try assumption; cbn; tauto.
  - apply in_flat_map in H. destruct H as [el [_ H]]. unfold ariaFinds in H.
    destruct (labelNames f _) eqn:N; [|destruct H].
    apply matched_shape in H. destruct H as [W E].
    exists (labelledText el), 70, "ARIA Label". repeat split; try assumption.
    destruct f; try discriminate; cbn; tauto.
  - destruct (bodyText d); [|destruct H].
    destruct f; try destruct H; apply matchedIf_shape in H;
      destruct H as [raw [W E]]; exists raw, 60, "Text Analysis";
      repeat split; try assumption; cbn; tauto.
  - destruct f; try destruct H.
    + apply matched_shape in H. destruct H as [W E].
      exists (companyFromHost (hostname d)), 35, "Domain Name".
      repeat split; try assumption. cbn; tauto.
    + apply in_app_iff in H. destruct H as [H|H];
        apply matchedIf_shape in H; destruct H as [raw [W E]];
        [exists raw, 40, "Page Title"|exists raw, 35, "First H1"];
        repeat split; try assumption; cbn; tauto.
Qed.

Lemma resolve_shape (d : Document) (f : Field) :
  resolve (candidates d f) = undetected
  \/ exists s c src,
       allWhiteSpace s = false
       /\ resolve (candidates d f) = asResult s c src
       /\ In (src, c) (layerStamps f).
Proof.
  unfold resolve.
  destruct (fold_better_in (candidates d f) undetected) as [E|I];
    [left; exact E|right; exact (candidates_shape d f _ I)].
Qed.

Lemma stamps_positive (f : Field) (src : string) (c : Z) :
  In (src, c) (layerStamps f) -> 0 < c /\ src <> "".
Proof.
  destruct f; cbn; intros H;
    repeat (destruct H as [[= <- <-]|H]; [split; [lia|discriminate]|]);
    destruct H.
Qed.

(** X12.  In what [detect] returns, a field is either not detected, with
    the empty value, confidence 0 and no source, or detected, with a
    value that is not empty, a confidence above 0 and a source label; so
    an empty value, confidence 0 and an empty source go together.  Every
    value is in normal form. *)
Theorem detect_field_shape (d : Document) (out : DetectionOutput) (f : Field) :
  detect d = Normal out ->
  ((at_ (values out) f = "" <-> at_ (confidences out) f = 0)
   /\ (at_ (sources out) f = "" <-> at_ (confidences out) f = 0)
   /\ 0 <= at_ (confidences out) f)
  /\ cleanValue (at_ (values out) f) = at_ (values out) f.
Proof.
  intros H. destruct (detect_resolve d out H f) as [-> [-> ->]].
  destruct (resolve_shape d f) as [->|[s [c [src [W [-> I]]]]]].
  - cbn. repeat split; intros; try reflexivity; lia.
  - apply stamps_positive in I. destruct I as [P N].
    assert (V := unwords_nonempty s W).
    unfold asResult. cbn [value confidence source].
    split; [|rewrite (cleanValue_words (unwords (words s)));
             rewrite (words_unwords _ (words_are_words s)); reflexivity].
    repeat split; intros; try congruence; lia.
Qed.

Lemma detect_field_shape_witness :
  exists out,
    detect busyPage = Normal out
    /\ (at_ (values out) Description = "" <-> at_ (confidences out) Description = 0)
    /\ cleanValue (at_ (values out) JobTitle) = at_ (values out) JobTitle.
Proof.
  eexists. split; [vm_compute; reflexivity|]. split.
  - exact (proj1 (proj1 (detect_field_shape busyPage _ Description eq_refl))).
  - exact (proj2 (detect_field_shape busyPage _ JobTitle eq_refl)).
Defined.

(** X13.  The source label of a detected field fixes its confidence:
    95 for the posting, 85 for the meta tags, 80 for the selectors of a
    known site, 75 for the generic selectors (70 for the description),
    70 for a label, 60 for the text, 40 for the page title and 35 for
    the host name and the first [h1].  The location never comes from the
    meta tags or a fallback, and the description never from a label,
    the text or a fallback. *)
Theorem detect_source_confidence (d : Document) (out : DetectionOutput)
  (f : Field) :
  detect d = Normal out ->
  at_ (confidences out) f <> 0 ->
  In (at_ (sources out) f, at_ (confidences out) f) (layerStamps f).
Proof.
  intros H. destruct (detect_resolve d out H f) as [_ [-> ->]].
  destruct (resolve_shape d f) as [->|[s [c [src [W [-> I]]]]]].
  - cbn. congruence.
  - intros _. exact I.
Qed.

Lemma detect_source_confidence_witness :
  exists out,
    detect busyPage = Normal out
    /\ In (at_ (sources out) Company, at_ (confidences out) Company)
         (layerStamps Company).
Proof.
  eexists. split; [vm_compute; reflexivity|].
  apply (detect_source_confidence busyPage _ Company eq_refl).
  vm_compute. discriminate.
Defined.

(** * The service worker *)

Import ServiceWorker.

(** ** Which errors are retried *)

Lemma prefix_head (m : ascii) (n h : string) :
  prefix (String m n) h = true -> exists t, h = String m t.
Proof.
  destruct h as [|c t]; [discriminate|]. cbn [prefix].
  destruct (ascii_dec m c) as [->|]; [|discriminate].
  intros _. exists t. reflexivity.
Qed.

Lemma includes_head (m : ascii) (n h : string) :
  includes h (String m n) = true -> In m (list_ascii_of_string h).
Proof.
  induction h as [|c t IH].
  - cbn. discriminate.
  - cbn [includes]. destruct (prefix (String m n) (String c t)) eqn:P.
    + intros _. apply prefix_head in P. destruct P as [t' [= -> _]].
      left. reflexivity.
    + intros H. right. exact (IH H).
Qed.

Lemma lowerChar_not_upper (c : ascii) : isUpper (lowerChar c) = false.
Proof.
  destruct c as [[] [] [] [] [] [] [] []]; vm_compute; reflexivity.
Qed.

Lemma toLowerCase_not_upper (s : string) (c : ascii) :
  In c (list_ascii_of_string (toLowerCase s)) -> isUpper c = false.
Proof.
  induction s as [|a t IH]; [intros []|].
  cbn [toLowerCase list_ascii_of_string]. intros [<-|H].
  - apply lowerChar_not_upper.
  - exact (IH H).
Qed.

Lemma includes_upper (m : ascii) (n s : string) :
  isUpper m = true -> includes (toLowerCase s) (String m n) = false.
Proof.
  intros U. destruct (includes (toLowerCase s) (String m n)) eqn:I;
    [|reflexivity].
  apply includes_head, toLowerCase_not_upper in I. congruence.
Qed.

Lemma isRetryableError_text (s : string) :
  isRetryableError (Some (JStr s))
  = Normal (includes (toLowerCase s) "network error"
            || includes (toLowerCase s) "timeout"
            || includes (toLowerCase s) "rate limit").
Proof.
  unfold isRetryableError, retryablePatterns. cbn [existsb truthy].
  rewrite (includes_upper "E" "CONNRESET" s eq_refl),
    (includes_upper "E" "TIMEDOUT" s eq_refl), !orb_false_r, orb_assoc.
  destruct s as [|c t]; reflexivity.
Qed.

(** X14.  The error text is compared in lower case, so of the five
    patterns only three can match: an error is retryable exactly when
    its text, in any case, holds ["network error"], ["timeout"] or
    ["rate limit"].  The patterns ["ECONNRESET"] and ["ETIMEDOUT"] never
    match, and an error with just that text is not retried. *)
Theorem isRetryableError_patterns (s : string) :
  isRetryableError (Some (JStr s))
  = Normal (includes (toLowerCase s) "network error"
            || includes (toLowerCase s) "timeout"
            || includes (toLowerCase s) "rate limit")
  /\ includes (toLowerCase s) "ECONNRESET" = false
  /\ includes (toLowerCase s) "ETIMEDOUT" = false
  /\ isRetryableError (Some (JStr "ECONNRESET")) = Normal false
  /\ isRetryableError (Some (JStr "read ETIMEDOUT")) = Normal false.
Proof.
  split; [apply isRetryableError_text|].
  split; [apply includes_upper; reflexivity|].
  split; [apply includes_upper; reflexivity|].
  split; vm_compute; reflexivity.
Qed.

(** ** The text for a status *)

Lemma digits_text (d : Decimal.uint) :
  Forall (fun c => isDigit c = true)
    (list_ascii_of_string (NilEmpty.string_of_uint d)).
Proof.
  induction d; cbn [NilEmpty.string_of_uint list_ascii_of_string];
    constructor; try assumption; reflexivity.
Qed.

Lemma statusText_digits (status : nat) :
  Forall (fun c => isDigit c = true) (list_ascii_of_string (statusText status)).
Proof.
  unfold statusText, JsNumber.decimal, NilZero.string_of_uint.
  destruct (Nat.to_uint status) eqn:E; try (rewrite <- E; apply digits_text).
  repeat constructor.
Qed.

Lemma lowerChar_digit (c : ascii) : isDigit c = true -> lowerChar c = c.
Proof.
  destruct c as [[] [] [] [] [] [] [] []]; vm_compute; congruence.
Qed.

Lemma toLowerCase_app (a b : string) :
  toLowerCase (a ++ b) = (toLowerCase a ++ toLowerCase b)%string.
Proof. induction a as [|c t IH]; [reflexivity|]. cbn. rewrite IH. reflexivity. Qed.

Lemma toLowerCase_digits (b : string) :
  Forall (fun c => isDigit c = true) (list_ascii_of_string b) ->
  toLowerCase b = b.
Proof.
  induction b as [|c t IH]; [reflexivity|].
  cbn [list_ascii_of_string toLowerCase]. intros H. inversion H; subst.
  rewrite lowerChar_digit, IH; auto.
Qed.

(** A pattern without digits is found in a text followed by digits only
    when it is found in the text. *)
Lemma prefix_before_digits (b : string) :
  Forall (fun c => isDigit c = true) (list_ascii_of_string b) ->
  forall n a,
    Forall (fun c => isDigit c = false) (list_ascii_of_string n) ->
    prefix n (a ++ b) = prefix n a.
Proof.
  intros Hb. induction n as [|m n IH]; intros a Hn.
  - destruct a, b; reflexivity.
  - cbn [list_ascii_of_string] in Hn. inversion Hn as [|? ? Hm Hn']; subst.
    destruct a as [|c a].
    + cbn [append]. destruct b as [|d b]; [reflexivity|].
      cbn [prefix]. destruct (ascii_dec m d) as [->|]; [|reflexivity].
      cbn [list_ascii_of_string] in Hb. inversion Hb; subst. congruence.
    + cbn [append prefix]. destruct (ascii_dec m c); [|reflexivity].
      apply IH. exact Hn'.
Qed.

Lemma includes_digits (b : string) (m : ascii) (n : string) :
  Forall (fun c => isDigit c = true) (list_ascii_of_string b) ->
  isDigit m = false ->
  includes b (String m n) = false.
Proof.
  intros Hb Hm. destruct (includes b (String m n)) eqn:I; [|reflexivity].
  apply includes_head in I. rewrite Forall_forall in Hb.
  specialize (Hb m I). congruence.
Qed.

Lemma includes_before_digits (a b : string) (m : ascii) (n : string) :
  Forall (fun c => isDigit c = true) (list_ascii_of_string b) ->
  Forall (fun c => isDigit c = false) (list_ascii_of_string (String m n)) ->
  includes (a ++ b) (String m n) = includes a (String m n).
Proof.
  intros Hb Hn. induction a as [|c a IH].
  - cbn [append]. rewrite includes_digits; [reflexivity|exact Hb|].
    cbn [list_ascii_of_string] in Hn. inversion Hn; assumption.
  - change (String c a ++ b)%string with (String c (a ++ b)).
    cbn [includes].
    change (String c (a ++ b)) with (String c a ++ b)%string.
    rewrite (prefix_before_digits b Hb (String m n) (String c a) Hn), IH.
    reflexivity.
Qed.

Lemma default_text_not_retryable (status : nat) :
  isRetryableError
    (Some (JStr ("Request failed with status " ++ statusText status)))
  = Normal false.
Proof.
  rewrite isRetryableError_text.
  rewrite toLowerCase_app,
    (toLowerCase_digits _ (statusText_digits status)).
  rewrite !includes_before_digits
    by (try apply statusText_digits; repeat constructor).
  vm_compute. reflexivity.
Qed.

(** X15.  A failed request is retried only when the status is 429, or
    when the status is none of 401, 403, 404 and 422 and the body of the
    response carries an error message of its own, which then decides.
    So a wrong key, a missing table, a refused access and an invalid
    request are never retried, and neither is a failure without message,
    such as a bare 500. *)
Theorem parseErrorMessage_retryable (data : json) (status : nat) (msg : json) :
  parseErrorMessage data status = Normal msg ->
  (status = 429%nat -> isRetryableError (Some msg) = Normal true)
  /\ (isRetryableError (Some msg) <> Normal false ->
      status = 429%nat
      \/ (~ In status [401; 404; 403; 422]%nat
          /\ exists error,
               get data "error" = Normal (Some error)
               /\ get error "message" = Normal (Some msg))).
Proof.
  unfold parseErrorMessage.
  destruct (Nat.eqb_spec status 401) as [->|N1];
    [intros [= <-]; split; [discriminate|]; intros H; exfalso; apply H;
     vm_compute; reflexivity|].
  destruct (Nat.eqb_spec status 404) as [->|N2];
    [intros [= <-]; split; [discriminate|]; intros H; exfalso; apply H;
     vm_compute; reflexivity|].
  destruct (Nat.eqb_spec status 403) as [->|N3];
    [intros [= <-]; split; [discriminate|]; intros H; exfalso; apply H;
     vm_compute; reflexivity|].
  destruct (Nat.eqb_spec status 422) as [->|N4].
  { destruct (get data "error") as [error|]; [|discriminate]. cbn [bind].
    destruct (whenTruthy error _ false) as [[]|]; cbn [bind];
      try discriminate; intros [= <-]; (split; [discriminate|]);
      intros H; exfalso; apply H; vm_compute; reflexivity. }
  destruct (Nat.eqb_spec status 429) as [->|N5];
    [intros [= <-]; split; [intros _; vm_compute; reflexivity|];
     intros _; left; reflexivity|].
  destruct (get data "error") as [error|] eqn:E; [|discriminate]. cbn [bind].
  intros H. split; [intros; contradiction|]. intros R. right. split.
  { cbn [In]. intros [?|[?|[?|[?|[]]]]]; congruence. }
  assert (D : Normal (JStr ("Request failed with status " ++ statusText status))
              = Normal msg -> False).
  { intros Heq.
    assert (Em : msg = JStr ("Request failed with status " ++ statusText status))
      by congruence.
    rewrite Em, default_text_not_retryable in R. congruence. }
  unfold whenTruthy in H.
  destruct error as [e|]; cbn [bind] in H; [|destruct (D H)].
  destruct (truthy e); cbn [bind] in H; [|destruct (D H)].
  destruct (get e "message") as [message|] eqn:M; [|discriminate].
  cbn [bind] in H.
  destruct message as [m|]; [|destruct (D H)].
  destruct (truthy m); [|destruct (D H)].
  injection H as <-. exists e. split; [reflexivity|exact M].
Qed.

Lemma parseErrorMessage_retryable_witness :
  isRetryableError
    (Some (JStr "Rate limit exceeded. Please wait a moment and try again."))
  = Normal true.
Proof.
  exact (proj1 (parseErrorMessage_retryable (JObj []) 429 _ eq_refl) eq_refl).
Defined.

(** ** The retry loop *)

Section Loop.

Variable typeErrorMessage : string.
Variable fn : nat -> settled.

Lemma attemptsFrom_return (maxRetries : nat) (result : json) :
  forall k remaining attempt lastError waits,
    (k < remaining)%nat ->
    (attempt + remaining = maxRetries)%nat ->
    (forall i, (i < k)%nat ->
               exists failed,
                 attemptOnce typeErrorMessage (fn (attempt + i)) = Retry failed) ->
    attemptOnce typeErrorMessage (fn (attempt + k)) = Return result ->
    attemptsFrom typeErrorMessage fn maxRetries remaining attempt lastError waits
    = (Some result,
       waits ++ map (fun attempt => 2 ^ Z.of_nat attempt * 1000) (seq attempt k)).
Proof.
  induction k as [|k IH]; intros remaining attempt lastError waits Hk Hm Hr Hf.
  - destruct remaining as [|later]; [lia|]. cbn [attemptsFrom].
    rewrite Nat.add_0_r in Hf. rewrite Hf. cbn [seq map].
    rewrite app_nil_r. reflexivity.
  - destruct remaining as [|later]; [lia|]. cbn [attemptsFrom].
    destruct (Hr 0%nat ltac:(lia)) as [failed F].
    rewrite Nat.add_0_r in F. rewrite F.
    destruct (Z.ltb_spec (Z.of_nat attempt) (Z.of_nat maxRetries - 1)); [|lia].
    rewrite (IH later (S attempt) (Some failed)).
    + cbn [seq map]. rewrite <- app_assoc. reflexivity.
    + lia.
    + lia.
    + intros i Hi. destruct (Hr (S i) ltac:(lia)) as [e He].
      exists e. rewrite <- He. f_equal. f_equal. lia.
    + rewrite <- Hf. f_equal. f_equal. lia.
Qed.

Lemma attemptsFrom_exhausted (maxRetries : nat) (failed : nat -> json) :
  forall remaining attempt lastError waits,
    (attempt + remaining = maxRetries)%nat ->
    (forall i, (attempt <= i < maxRetries)%nat ->
               attemptOnce typeErrorMessage (fn i) = Retry (failed i)) ->
    attemptsFrom typeErrorMessage fn maxRetries remaining attempt lastError waits
    = (match remaining with
       | O => lastError
       | S _ => Some (failed (maxRetries - 1)%nat)
       end,
       waits ++ map (fun attempt => 2 ^ Z.of_nat attempt * 1000)
                  (seq attempt (remaining - 1))).
Proof.
  induction remaining as [|later IH]; intros attempt lastError waits Hm Hr.
  - cbn. rewrite app_nil_r. reflexivity.
  - cbn [attemptsFrom]. rewrite (Hr attempt) by lia.
    rewrite (IH (S attempt)); [|lia|intros i Hi; apply Hr; lia].
    destruct later as [|later].
    + destruct (Z.ltb_spec (Z.of_nat attempt) (Z.of_nat maxRetries - 1)); [lia|].
      cbn. rewrite app_nil_r. do 3 f_equal. lia.
    + destruct (Z.ltb_spec (Z.of_nat attempt) (Z.of_nat maxRetries - 1)); [|lia].
      cbn [Nat.sub seq map]. rewrite Nat.sub_0_r, <- app_assoc. reflexivity.
Qed.

End Loop.





(** * Draft storage *)

Import DraftStorage.

Lemma toInt32_range (z : Z) : - 2 ^ 31 <= toInt32 z < 2 ^ 31.
Proof.
  unfold toInt32. assert (H := Z.mod_pos_bound (z + 2 ^ 31) (2 ^ 32)). lia.
Qed.

Lemma toInt32_small (z : Z) : - 2 ^ 31 <= z < 2 ^ 31 -> toInt32 z = z.
Proof. intros H. unfold toInt32. rewrite Z.mod_small; lia. Qed.

Lemma toInt32_mod (z : Z) : toInt32 z mod 2 ^ 32 = z mod 2 ^ 32.
Proof.
  unfold toInt32. rewrite Zminus_mod_idemp_l. f_equal. lia.
Qed.

Lemma toInt32_congruent (a b : Z) :
  a mod 2 ^ 32 = b mod 2 ^ 32 -> toInt32 a = toInt32 b.
Proof.
  intros H. unfold toInt32.
  rewrite (Z.add_mod a), (Z.add_mod b), H by lia. reflexivity.
Qed.

Lemma toInt32_wraps (z : Z) : exists q, toInt32 z = z + q * 2 ^ 32.
Proof.
  exists (- ((z + 2 ^ 31) / 2 ^ 32)). unfold toInt32.
  rewrite Z.mod_eq by lia. lia.
Qed.

(** One turn of the loop of [_simpleHash]. *)
Lemma hash_step (hash char : Z) :
  bitAnd (shiftLeft hash 5 - hash + char) (shiftLeft hash 5 - hash + char)
  = toInt32 (31 * hash + char).
Proof.
  unfold bitAnd. rewrite Z.land_diag. apply toInt32_congruent.
  unfold shiftLeft. rewrite Z.shiftl_mul_pow2 by lia.
  destruct (toInt32_wraps hash) as [q1 ->].
  destruct (toInt32_wraps ((hash + q1 * 2 ^ 32) * 2 ^ 5)) as [q2 ->].
  replace ((hash + q1 * 2 ^ 32) * 2 ^ 5 + q2 * 2 ^ 32 - hash + char)
    with (31 * hash + char + (32 * q1 + q2) * 2 ^ 32) by lia.
  apply Z_mod_plus_full.
Qed.

Lemma hashFrom_range (str : string) :
  forall hash, - 2 ^ 31 <= hash < 2 ^ 31 ->
               - 2 ^ 31 <= hashFrom hash str < 2 ^ 31.
Proof.
  induction str as [|c t IH]; intros hash H; [exact H|].
  cbn [hashFrom]. cbv zeta. rewrite hash_step. apply IH, toInt32_range.
Qed.

Lemma hashFrom_congruent (str : string) :
  forall hash p,
    hash mod 2 ^ 32 = p mod 2 ^ 32 ->
    hashFrom hash str mod 2 ^ 32
    = fold_left (fun h c => 31 * h + Z.of_N (code c))
        (list_ascii_of_string str) p mod 2 ^ 32.
Proof.
  induction str as [|c t IH]; intros hash p H; [exact H|].
  cbn [hashFrom list_ascii_of_string fold_left]. cbv zeta.
  rewrite hash_step. apply IH. rewrite toInt32_mod.
  rewrite (Z.add_mod (31 * hash)), (Z.add_mod (31 * p)) by lia.
  rewrite (Z.mul_mod 31 hash), (Z.mul_mod 31 p), H by lia. reflexivity.
Qed.

(** X18.  The number that [_simpleHash] prints is the polynomial hash of
    the code units with multiplier 31, 0 for the empty string, wrapped
    to a signed 32-bit integer: the shift and the subtraction multiply
    by 31, and wrapping at every turn gives what wrapping once at the
    end gives. *)
Theorem simpleHash_polynomial (str : string) :
  hashFrom 0 str
  = toInt32 (fold_left (fun h c => 31 * h + Z.of_N (code c))
               (list_ascii_of_string str) 0)
  /\ _simpleHash str
     = toString36
         (Z.abs (toInt32 (fold_left (fun h c => 31 * h + Z.of_N (code c))
                            (list_ascii_of_string str) 0))).
Proof.
  assert (E : hashFrom 0 str
              = toInt32 (fold_left (fun h c => 31 * h + Z.of_N (code c))
                           (list_ascii_of_string str) 0)).
  { rewrite <- (toInt32_small (hashFrom 0 str))
      by (apply hashFrom_range; lia).
    apply toInt32_congruent, hashFrom_congruent. reflexivity. }
  split; [exact E|]. unfold _simpleHash. rewrite E. reflexivity.
Qed.

(** ** The key *)

Lemma digit36_keyChar (d : Z) : 0 <= d < 36 -> isDigit (digit36 d) || isLower (digit36 d) = true.
Proof.
  intros H.
  assert (A : forallb (fun n => isDigit (digit36 (Z.of_nat n)) || isLower (digit36 (Z.of_nat n))) (seq 0 36) = true)
    by (vm_compute; reflexivity).
  rewrite forallb_forall in A. specialize (A (Z.to_nat d)).
  rewrite Z2Nat.id in A by lia. apply A, in_seq. lia.
Qed.

Lemma digits36_chars (fuel : nat) :
  forall n printed,
    0 <= n ->
    Forall (fun c => isDigit c || isLower c = true) (list_ascii_of_string printed) ->
    Forall (fun c => isDigit c || isLower c = true)
      (list_ascii_of_string (digits36 fuel n printed)).
Proof.
  induction fuel as [|fuel IH]; intros n printed Hn Hp; [exact Hp|].
  cbn [digits36]. cbv zeta.
  assert (P : Forall (fun c => isDigit c || isLower c = true)
                (list_ascii_of_string (String (digit36 (n mod 36)) printed))).
  { cbn [list_ascii_of_string]. constructor; [|exact Hp].
    apply digit36_keyChar, Z.mod_pos_bound. lia. }
  destruct (n / 36 =? 0); [exact P|].
  apply IH; [apply Z.div_pos; lia|exact P].
Qed.

Lemma digits36_length (fuel : nat) :
  forall k n printed,
    0 <= n < 36 ^ Z.of_nat (S k) ->
    (String.length printed + Nat.min 1 fuel
     <= String.length (digits36 fuel n printed)
     <= String.length printed + S k)%nat.
Proof.
  induction fuel as [|fuel IH]; intros k n printed Hn; [cbn; lia|].
  cbn [digits36]. cbv zeta.
  destruct (Z.eqb_spec (n / 36) 0) as [E|E]; [cbn [String.length]; lia|].
  destruct k as [|k].
  { exfalso. apply E. apply Z.div_small. cbn in Hn. lia. }
  assert (Hq : 0 <= n / 36 < 36 ^ Z.of_nat (S k)).
  { split; [apply Z.div_pos; lia|].
    apply Z.div_lt_upper_bound; [lia|].
    replace (Z.of_nat (S (S k))) with (Z.of_nat (S k) + 1) in Hn by lia.
    rewrite Z.pow_add_r in Hn by lia. lia. }
  specialize (IH k (n / 36) (String (digit36 (n mod 36)) printed) Hq).
  cbn [String.length] in IH. lia.
Qed.

(** X19.  The hash that [_simpleHash] prints has between one and six
    characters, each a digit or a lower-case letter, and no sign; so a
    storage key is ["draft_"] followed by at most six such characters. *)
Theorem simpleHash_shape (str : string) :
  (1 <= String.length (_simpleHash str) <= 6)%nat
  /\ Forall (fun c => isDigit c || isLower c = true)
       (list_ascii_of_string (_simpleHash str))
  /\ _getStorageKey str = ("draft_" ++ _simpleHash str)%string
  /\ (String.length (_getStorageKey str) <= 12)%nat.
Proof.
  assert (R := hashFrom_range str 0 ltac:(lia)).
  assert (A : 0 <= Z.abs (hashFrom 0 str) < 36 ^ Z.of_nat 6).
  { change (36 ^ Z.of_nat 6) with 2176782336. change (2 ^ 31) with 2147483648 in R.
    lia. }
  assert (L := digits36_length (S (Z.to_nat (Z.log2 (Z.abs (hashFrom 0 str)))))
                 5 _ "" A).
  cbn [String.length Nat.min] in L.
  assert (L6 : (1 <= String.length (_simpleHash str) <= 6)%nat)
    by (unfold _simpleHash, toString36; lia).
  split; [exact L6|]. split.
  - unfold _simpleHash, toString36. apply digits36_chars; [lia|constructor].
  - split; [reflexivity|]. unfold _getStorageKey.
    change ("draft_" ++ _simpleHash str)%string
      with (String "d" (String "r" (String "a" (String "f" (String "t"
             (String "_" (_simpleHash str))))))).
    cbn [String.length]. lia.
Qed.

(** ** Keys that collide *)

Lemma digitValue_digit36 (d : Z) : 0 <= d < 36 -> digitValue (digit36 d) = d.
Proof.
  intros H.
  assert (A : forallb (fun n => digitValue (digit36 (Z.of_nat n)) =? Z.of_nat n)
                (seq 0 36) = true)
    by (vm_compute; reflexivity).
  rewrite forallb_forall in A. specialize (A (Z.to_nat d)).
  rewrite Z2Nat.id in A by lia. apply Z.eqb_eq, A, in_seq. lia.
Qed.

Lemma digits36_number (fuel : nat) :
  forall n printed,
    0 <= n < 36 ^ Z.of_nat fuel ->
    numberFrom 0 (digits36 fuel n printed) = numberFrom n printed.
Proof.
  induction fuel as [|fuel IH]; intros n printed Hn.
  - cbn in Hn. assert (n = 0) as -> by lia. reflexivity.
  - cbn [digits36]. cbv zeta.
    assert (M := Z.mod_pos_bound n 36 ltac:(lia)).
    assert (D := Z.div_mod n 36 ltac:(lia)).
    destruct (Z.eqb_spec (n / 36) 0) as [E|E].
    + cbn [numberFrom]. rewrite digitValue_digit36 by exact M.
      f_equal. lia.
    + rewrite IH.
      * cbn [numberFrom]. rewrite digitValue_digit36 by exact M.
        f_equal. lia.
      * split; [apply Z.div_pos; lia|].
        apply Z.div_lt_upper_bound; [lia|].
        replace (Z.of_nat (S fuel)) with (Z.of_nat fuel + 1) in Hn by lia.
        rewrite Z.pow_add_r in Hn by lia. lia.
Qed.

Lemma toString36_number (n : Z) : 0 <= n -> numberFrom 0 (toString36 n) = n.
Proof.
  intros H. unfold toString36. apply digits36_number. split; [exact H|].
  rewrite Nat2Z.inj_succ, Z2Nat.id by apply Z.log2_nonneg.
  destruct (Z.eq_dec n 0) as [->|N]; [cbn; lia|].
  assert (L := Z.log2_spec n ltac:(lia)).
  assert (P : 2 ^ Z.succ (Z.log2 n) <= 36 ^ Z.succ (Z.log2 n)).
  { apply Z.pow_le_mono_l. lia. }
  lia.
Qed.

(** X20.  Reading the printed hash back in base 36 gives the absolute
    value of the hash, so nothing but the sign is lost in printing: two
    addresses get the same storage key exactly when their hashes are
    equal or opposite. *)
Theorem storage_keys_collide (a b : string) :
  numberFrom 0 (_simpleHash a) = Z.abs (hashFrom 0 a)
  /\ (_getStorageKey a = _getStorageKey b
      <-> (hashFrom 0 a = hashFrom 0 b \/ hashFrom 0 a = - hashFrom 0 b)).
Proof.
  assert (N : forall s, numberFrom 0 (_simpleHash s) = Z.abs (hashFrom 0 s)).
  { intros s. unfold _simpleHash. apply toString36_number, Z.abs_nonneg. }
  split; [apply N|]. unfold _getStorageKey. split.
  - intros H. injection H as H.
    assert (E : Z.abs (hashFrom 0 a) = Z.abs (hashFrom 0 b))
      by (rewrite <- !N, H; reflexivity).
    lia.
  - intros H. unfold _simpleHash.
    replace (Z.abs (hashFrom 0 a)) with (Z.abs (hashFrom 0 b)) by lia.
    reflexivity.
Qed.

(** * The form page *)

Import FormPage.

Lemma trim_unwords (s : string) : trim (unwords (words s)) = unwords (words s).
Proof.
  unfold trim. rewrite (trimStart_unwords _ (words_are_words s)).
  apply trimEnd_unwords, words_are_words.
Qed.

Lemma orEmpty_id (s : string) : orEmpty s = s.
Proof. destruct s; reflexivity. Qed.

(** What the form holds for a field once [detect]'s result is shown:
    the value, which trimming leaves as it is and which is empty exactly
    at confidence 0. *)
Lemma shown_field (d : Document) (out : DetectionOutput) (f : Field) :
  detect d = Normal out ->
  trim (at_ (showForm out) f) = at_ (values out) f
  /\ isEmpty (at_ (values out) f) = (at_ (confidences out) f =? 0).
Proof.
  intros H.
  assert (S : at_ (showForm out) f = at_ (values out) f)
    by (destruct f; apply orEmpty_id).
  rewrite S. destruct (detect_resolve d out H f) as [-> [-> _]].
  destruct (resolve_shape d f) as [->|[s [c [src [W [-> I]]]]]].
  - split; reflexivity.
  - apply stamps_positive in I. destruct I as [P _].
    assert (V := unwords_nonempty s W).
    unfold asResult. cbn [value confidence]. split; [apply trim_unwords|].
    destruct (Z.eqb_spec c 0); [lia|].
    destruct (unwords (words s)); [congruence|reflexivity].
Qed.

(** X21.  A form submitted as [showForm] filled it from the result of
    [detect] is refused exactly when the company, the job title or the
    location was not detected; otherwise the record sent carries the
    three detected values unchanged, and a [Summary] with the detected
    description exactly when one was detected. *)
Theorem submit_as_detected (d : Document) (out : DetectionOutput)
  (jobId : string) (now : Clock) (currentUrl : string) :
  detect d = Normal out ->
  handleSubmit jobId now currentUrl (showForm out)
  = if (at_ (confidences out) Company =? 0)
       || (at_ (confidences out) JobTitle =? 0)
       || (at_ (confidences out) Location =? 0)
    then Refused "Please fill in required fields"
    else Sent (JObj ([("JobID", JStr jobId);
                      ("Company", JStr (at_ (values out) Company));
                      ("Title", JStr (at_ (values out) JobTitle));
                      ("Location", JStr (at_ (values out) Location));
                      ("Status", JStr "New");
                      ("Last Updated", JStr (lastUpdated now));
                      ("Score", JNum false "0");
                      ("Source", JStr "Browser");
                      ("Link", JStr currentUrl)]
                       ++ if at_ (confidences out) Description =? 0 then []
                          else [("Summary",
                                 JStr (at_ (values out) Description))])).
Proof.
  intros H. unfold handleSubmit.
  destruct (shown_field d out Company H) as [T1 E1].
  destruct (shown_field d out JobTitle H) as [T2 E2].
  destruct (shown_field d out Location H) as [T3 E3].
  destruct (shown_field d out Description H) as [T4 E4].
  cbn [at_] in *. cbv zeta. rewrite T1, T2, T3, T4, E1, E2, E3, E4.
  destruct (_ || _ || _); [reflexivity|].
  destruct (description (confidences out) =? 0);
    [rewrite app_nil_r|]; reflexivity.
Qed.

Lemma submit_as_detected_witness :
  exists out,
    detect busyPage = Normal out
    /\ handleSubmit "id" (Build_Clock 2024 0 5 9 30 0) "https://careers.acme.example/1"
         (showForm out)
       = Sent (JObj [("JobID", JStr "id");
                     ("Company", JStr "Acme Careers");
                     ("Title", JStr "Staff Engineer");
                     ("Location", JStr "Austin, TX");
                     ("Status", JStr "New");
                     ("Last Updated", JStr "2024-01-05 09:30:00");
                     ("Score", JNum false "0");
                     ("Source", JStr "Browser");
                     ("Link", JStr "https://careers.acme.example/1")]).
Proof.
  eexists. split; [vm_compute; reflexivity|].
  etransitivity.
  - apply (submit_as_detected busyPage). vm_compute. reflexivity.
  - vm_compute. reflexivity.
Defined.

(** ** The time of a submission *)

Lemma padStart_twoDigits (n : nat) :
  (n < 100)%nat -> padStart 2 "0" (JsNumber.decimal n) = twoDigits n.
Proof.
  intros H.
  assert (A : forallb (fun n => String.eqb (padStart 2 "0" (JsNumber.decimal n))
                                  (twoDigits n)) (seq 0 100) = true)
    by (vm_compute; reflexivity).
  rewrite forallb_forall in A. apply String.eqb_eq, A, in_seq. lia.
Qed.

Lemma length_append (a b : string) :
  String.length (a ++ b) = (String.length a + String.length b)%nat.
Proof. induction a as [|c t IH]; [reflexivity|]. cbn. rewrite IH. reflexivity. Qed.

(** X22.  The time sent as [Last Updated] has the fixed layout
    [YYYY-MM-DD HH:MM:SS]: the month counted from 1 and every part after
    the year written with exactly two digits, a leading zero where
    needed; so it is 15 characters longer than the year, 19 characters
    for a year of four digits. *)
Theorem lastUpdated_layout (now : Clock) :
  (month now < 12)%nat -> (date now < 32)%nat -> (hours now < 24)%nat ->
  (minutes now < 60)%nat -> (seconds now < 60)%nat ->
  lastUpdated now
  = (JsNumber.decimal (fullYear now) ++ "-" ++ twoDigits (month now + 1)
       ++ "-" ++ twoDigits (date now) ++ " " ++ twoDigits (hours now)
       ++ ":" ++ twoDigits (minutes now) ++ ":" ++ twoDigits (seconds now))%string
  /\ String.length (lastUpdated now)
     = (String.length (JsNumber.decimal (fullYear now)) + 15)%nat.
Proof.
  intros Hm Hd Hh Hmi Hs.
  assert (E : lastUpdated now
              = (JsNumber.decimal (fullYear now) ++ "-"
                   ++ twoDigits (month now + 1)
                   ++ "-" ++ twoDigits (date now) ++ " "
                   ++ twoDigits (hours now)
                   ++ ":" ++ twoDigits (minutes now) ++ ":"
                   ++ twoDigits (seconds now))%string).
  { unfold lastUpdated. cbv zeta.
    rewrite !padStart_twoDigits by lia. reflexivity. }
  split; [exact E|]. rewrite E, length_append. reflexivity.
Qed.

Lemma lastUpdated_layout_witness :
  lastUpdated (Build_Clock 2024 0 5 9 30 0) = "2024-01-05 09:30:00"
  /\ String.length (lastUpdated (Build_Clock 2024 0 5 9 30 0)) = 19%nat.
Proof.
  split.
  - rewrite (proj1 (lastUpdated_layout (Build_Clock 2024 0 5 9 30 0)
                      ltac:(cbn; lia) ltac:(cbn; lia) ltac:(cbn; lia)
                      ltac:(cbn; lia) ltac:(cbn; lia))).
    vm_compute. reflexivity.
  - rewrite (proj2 (lastUpdated_layout (Build_Clock 2024 0 5 9 30 0)
                      ltac:(cbn; lia) ltac:(cbn; lia) ltac:(cbn; lia)
                      ltac:(cbn; lia) ltac:(cbn; lia))).
    vm_compute. reflexivity.
Defined.

(** * The options page *)

Import Options.

Lemma repeat_class_exact (p : ascii -> bool) (k : mstate -> option mstate) :
  forall n s fuel before i cs,
    (n < fuel)%nat ->
    repeatMatcher (run (Char p)) true fuel n (Some n) (MState before i s cs) k
    = match counted p n before s with
      | Some (before', s') => k (MState before' (i + n) s' cs)
      | None => None
      end.
Proof.
  induction n as [|n IH]; intros s fuel before i cs Hf;
    (destruct fuel as [|fuel]; [lia|]).
  - cbn [repeatMatcher counted]. rewrite Nat.add_0_r. reflexivity.
  - cbn [repeatMatcher counted run rest pos caps Nat.pred option_map andb].
    destruct s as [|c t]; [reflexivity|].
    destruct (p c); [|reflexivity].
    rewrite IH by lia. replace (S i + n)%nat with (i + S n)%nat by lia.
    reflexivity.
Qed.

Lemma counted_all (p : ascii -> bool) :
  forall n before s,
    match counted p n before s with
    | Some (_, EmptyString) => true
    | _ => false
    end
    = (String.length s =? n)%nat && forallb p (list_ascii_of_string s).
Proof.
  induction n as [|n IH]; intros before s.
  - cbn [counted]. destruct s; reflexivity.
  - cbn [counted]. destruct s as [|c t]; [reflexivity|].
    cbn [String.length list_ascii_of_string forallb Nat.eqb].
    destruct (p c).
    + rewrite IH. reflexivity.
    + rewrite andb_false_r. reflexivity.
Qed.

Lemma baseId_test (s : string) :
  test baseIdPattern s
  = match s with
    | String c1 (String c2 (String c3 t)) =>
        Ascii.eqb c1 "a" && Ascii.eqb c2 "p" && Ascii.eqb c3 "p"
        && (String.length t =? 14)%nat
        && forallb isAlnum (list_ascii_of_string t)
    | _ => false
    end.
Proof.
  unfold test, exec, baseIdPattern. cbn [seqs lit].
  destruct s as [|c1 s]; [reflexivity|].
  cbn [execFrom run prev rest pos caps]. unfold Regex.only.
  rewrite execFrom_not_at_start.
  destruct (Ascii.eqb c1 "a"); [|destruct s as [|? [|? ?]]; reflexivity].
  destruct s as [|c2 s]; [reflexivity|].
  destruct (Ascii.eqb c2 "p"); [|destruct s; reflexivity].
  destruct s as [|c3 t]; [reflexivity|].
  destruct (Ascii.eqb c3 "p"); [|reflexivity].
  cbn [andb].
  match goal with
  | |- context [repeatMatcher ?m true ?f 14%nat (Some 14%nat) ?st ?k] =>
      change m with (run (Char isAlnum))
  end.
  rewrite repeat_class_exact by lia.
  fold isAlnum. rewrite <- (counted_all isAlnum 14 (Some c3) t).
  destruct (counted isAlnum 14 (Some c3) t) as [[before' [|c s']]|];
    reflexivity.
Qed.

(** X23.  [saveSettings] hands settings to the storage exactly when,
    once trimmed, the key and the table name are not empty and the base
    id is ["app"] followed by exactly 14 letters or digits; what it
    stores are the trimmed inputs.  Every other input is refused with a
    status. *)
Theorem saveSettings_stores (apiKeyInput baseIdInput tableNameInput : string)
  (apiKey baseId tableName : string) :
  saveSettings apiKeyInput baseIdInput tableNameInput
  = Store apiKey baseId tableName
  <-> (apiKey = trim apiKeyInput /\ baseId = trim baseIdInput
       /\ tableName = trim tableNameInput
       /\ apiKey <> "" /\ tableName <> ""
       /\ exists rest,
            baseId = ("app" ++ rest)%string
            /\ String.length rest = 14%nat
            /\ forallb isAlnum (list_ascii_of_string rest) = true).
Proof.
  unfold saveSettings. cbv zeta. rewrite baseId_test. split.
  - destruct (trim apiKeyInput) as [|a1 a] eqn:A; [discriminate|].
    destruct (trim baseIdInput) as [|c1 [|c2 [|c3 t]]] eqn:B;
      try discriminate.
    + destruct (trim tableNameInput); discriminate.
    + destruct (trim tableNameInput); discriminate.
    + destruct (trim tableNameInput) as [|t1 tn] eqn:T; [discriminate|].
      cbn [isEmpty orb].
      destruct (Ascii.eqb_spec c1 "a") as [->|]; [|discriminate].
      destruct (Ascii.eqb_spec c2 "p") as [->|]; [|discriminate].
      destruct (Ascii.eqb_spec c3 "p") as [->|]; [|discriminate].
      cbn [andb]. destruct (Nat.eqb_spec (String.length t) 14) as [L|];
        [|discriminate].
      cbn [andb]. destruct (forallb isAlnum (list_ascii_of_string t)) eqn:F;
        [|discriminate].
      cbn [negb]. intros [= <- <- <-].
      repeat split; try discriminate. exists t. repeat split; assumption.
  - intros [Ea [Eb [Et [Na [Nt [rest [B [L F]]]]]]]].
    rewrite <- Ea, <- Eb, <- Et, B. cbn [append]. rewrite L, F.
    destruct apiKey; [congruence|]. destruct tableName; [congruence|].
    reflexivity.
Qed.

(** * The layers against each other *)

Import SitePages.

(** What the layers after the structured data find has confidence 80 at
    most. *)
Lemma markup_at_most_80 (d : Document) (f : Field) (x : FieldResult) :
  In x (siteMatches d f ++ genericMatches d f ++ ariaMatches d f
          ++ textMatches d f ++ fallbackMatches d f) ->
  confidence x <= 80.
Proof.
  unfold siteMatches, genericMatches, textMatches, fallbackMatches,
    selectorMatches, ariaMatches.
  rewrite !in_app_iff. intros H.
  destruct H as [H|[H|[H|[H|H]]]].
  - destruct (sitePatternOf d); [|destruct H].
    apply selectorFinds_confidence in H. lia.
  - destruct f; apply selectorFinds_confidence in H; lia.
  - apply in_flat_map in H. destruct H as [el [_ H]]. unfold ariaFinds in H.
    destruct (labelNames f _); [|destruct H].
    apply matched_confidence in H. lia.
  - destruct (bodyText d); [|destruct H].
    destruct f; try destruct H; apply matchedIf_confidence in H; lia.
  - destruct f; try destruct H.
    + apply matched_confidence in H. lia.
    + apply in_app_iff in H. destruct H as [H|H];
        apply matchedIf_confidence in H; lia.
Qed.

(** X24.  When the posting gives no text for a field, or there is no
    posting, a meta tag that has text for the field decides it: [detect]
    returns that text, at confidence 85 with the source
    ["OpenGraph Meta"], whatever the selectors, the labels, the text and
    the fallbacks would give. *)
Theorem openGraph_text_is_returned (d : Document) (out : DetectionOutput)
  (f : Field) (s : string) :
  detect d = Normal out ->
  (forall t, schemaText d f = Some t -> allWhiteSpace t = true) ->
  openGraphText d f = Some s ->
  allWhiteSpace s = false ->
  at_ (values out) f = unwords (words s)
  /\ at_ (confidences out) f = 85
  /\ at_ (sources out) f = "OpenGraph Meta".
Proof.
  intros H N E W. destruct (detect_resolve d out H f) as [-> [-> ->]].
  assert (C : candidates d f
              = asResult s 85 "OpenGraph Meta"
                  :: (siteMatches d f ++ genericMatches d f ++ ariaMatches d f
                      ++ textMatches d f ++ fallbackMatches d f)).
  { unfold candidates. rewrite E.
    assert (M : matchedIf (schemaText d f) 95 "JSON-LD Schema" = []).
    { destruct (schemaText d f) as [t|]; [|reflexivity].
      cbn [matchedIf]. apply matched_blank, N. reflexivity. }
    rewrite M. cbn [matchedIf app]. unfold matched. rewrite W. reflexivity. }
  rewrite C, resolve_first; [repeat split|cbn; lia|].
  intros y Hy. apply markup_at_most_80 in Hy. cbn. lia.
Qed.

Lemma openGraph_text_is_returned_witness :
  exists out,
    detect busyPage = Normal out
    /\ at_ (values out) Company = "Acme Careers"
    /\ at_ (confidences out) Company = 85
    /\ at_ (sources out) Company = "OpenGraph Meta".
Proof.
  eexists. split; [vm_compute; reflexivity|].
  apply (openGraph_text_is_returned busyPage _ Company "Acme Careers").
  - vm_compute. reflexivity.
  - intros t. vm_compute. discriminate.
  - vm_compute. reflexivity.
  - vm_compute. reflexivity.
Defined.

(** ** The selectors of a known site *)

Lemma site_source (d : Document) (f : Field) (x : FieldResult) :
  In x (candidates d f) ->
  source x = "Known Site Pattern" ->
  sitePatternOf d <> None /\ confidence x = 80.
Proof.
  unfold candidates, siteMatches, genericMatches, textMatches, fallbackMatches,
    selectorMatches, ariaMatches.
  rewrite !in_app_iff. intros H S.
  destruct H as [H|[H|[H|[H|[H|[H|H]]]]]].
  - apply matchedIf_shape in H. destruct H as [raw [_ ->]]. discriminate.
  - apply matchedIf_shape in H. destruct H as [raw [_ ->]]. discriminate.
  - destruct (sitePatternOf d); [|destruct H].
    apply selectorFinds_confidence in H. split; [discriminate|exact H].
  - destruct f; apply selectorFinds_shape in H; destruct H as [raw [_ ->]];
      discriminate.
  - apply in_flat_map in H. destruct H as [el [_ H]]. unfold ariaFinds in H.
    destruct (labelNames f _); [|destruct H].
    apply matched_shape in H. destruct H as [_ ->]. discriminate.
  - destruct (bodyText d); [|destruct H].
    destruct f; try destruct H; apply matchedIf_shape in H;
      destruct H as [raw [_ ->]]; discriminate.
  - destruct f; try destruct H.
    + apply matched_shape in H. destruct H as [_ ->]. discriminate.
    + apply in_app_iff in H. destruct H as [H|H];
        apply matchedIf_shape in H; destruct H as [raw [_ ->]]; discriminate.
Qed.

(** X25.  A field that [detect] returns with the source
    ["Known Site Pattern"] has confidence 80, and the host name of the
    page, in lower case, holds ["linkedin.com"], ["indeed.com"] or
    ["glassdoor.com"]: on every other host the selectors of the known
    sites are not tried. *)
Theorem known_site_source (d : Document) (out : DetectionOutput) (f : Field) :
  detect d = Normal out ->
  at_ (sources out) f = "Known Site Pattern" ->
  at_ (confidences out) f = 80
  /\ (includes (toLowerCase (hostname d)) "linkedin.com"
      || includes (toLowerCase (hostname d)) "indeed.com"
      || includes (toLowerCase (hostname d)) "glassdoor.com" = true).
Proof.
  intros H. destruct (detect_resolve d out H f) as [_ [-> ->]].
  intros S. unfold resolve in *.
  destruct (fold_better_in (candidates d f) undetected) as [E|I].
  - rewrite E in S. discriminate.
  - destruct (site_source d f _ I S) as [P C]. split; [exact C|].
    unfold sitePatternOf in P. cbv zeta in P.
    destruct (includes (toLowerCase (hostname d)) "linkedin.com");
      [reflexivity|].
    destruct (includes (toLowerCase (hostname d)) "indeed.com");
      [reflexivity|].
    destruct (includes (toLowerCase (hostname d)) "glassdoor.com");
      [reflexivity|congruence].
Qed.

Lemma known_site_source_witness :
  exists out,
    detect linkedinPage = Normal out
    /\ at_ (values out) JobTitle = "Data Engineer"
    /\ at_ (confidences out) JobTitle = 80.
Proof.
  eexists. split; [vm_compute; reflexivity|]. split; [vm_compute; reflexivity|].
  apply (known_site_source linkedinPage _ JobTitle).
  - vm_compute. reflexivity.
  - vm_compute. reflexivity.
Defined.

(** * Drafts *)

Import Drafts.

Lemma restored_form (form : PerField string) :
  restored (formObject form) "company" = Normal (company form)
  /\ restored (formObject form) "jobTitle" = Normal (jobTitle form)
  /\ restored (formObject form) "location" = Normal (location form)
  /\ restored (formObject form) "description" = Normal (description form).
Proof.
  destruct form as [c j l d]. unfold restored, formObject. cbn.
  repeat split; [destruct c|destruct j|destruct l|destruct d]; reflexivity.
Qed.

Lemma getDraft_set (_normalizeUrl : string -> string) (url url' : string)
  (draft : json) (stored : Storage) :
  getDraft _normalizeUrl true url'
    (set (keyOf _normalizeUrl url) draft stored)
  = if String.eqb (keyOf _normalizeUrl url') (keyOf _normalizeUrl url)
    then if truthy draft then Some draft else None
    else getDraft _normalizeUrl true url' stored.
Proof.
  unfold getDraft, set.
  destruct (String.eqb (keyOf _normalizeUrl url') (keyOf _normalizeUrl url));
    reflexivity.
Qed.

(** X26.  A draft saved from the form comes back as it was typed: after
    [saveCurrentDraft] on a form with at least one field that is not
    blank, [restoreDraft] for the same address, and for every address
    with the same storage key, fills the form with exactly the saved
    values, white space included, while the draft of an address with
    another key is what it was.  A form with blank fields only saves
    nothing. *)
Theorem draft_round_trip (_normalizeUrl : string -> string)
  (timestamp url : string) (form : PerField string) (confidence : json)
  (stored : Storage) :
  url <> "" ->
  (existsb (fun val => negb (isEmpty (trim val)))
     [company form; jobTitle form; location form; description form] = true ->
   forall url',
     url' <> "" ->
     (keyOf _normalizeUrl url' = keyOf _normalizeUrl url ->
      restoreDraft _normalizeUrl true (Some url')
        (saveCurrentDraft _normalizeUrl true timestamp (Some url) form
           confidence stored)
      = Normal (Some form))
     /\ (keyOf _normalizeUrl url' <> keyOf _normalizeUrl url ->
         getDraft _normalizeUrl true url'
           (saveCurrentDraft _normalizeUrl true timestamp (Some url) form
              confidence stored)
         = getDraft _normalizeUrl true url' stored))
  /\ (existsb (fun val => negb (isEmpty (trim val)))
        [company form; jobTitle form; location form; description form] = false ->
      saveCurrentDraft _normalizeUrl true timestamp (Some url) form
        confidence stored
      = stored).
Proof.
  intros U. unfold saveCurrentDraft.
  destruct url as [|u0 u]; [congruence|]. cbn [isEmpty]. split.
  - intros D url' U'. rewrite D. unfold saveDraft. cbn [snd]. cbv zeta. split.
    + intros K. unfold restoreDraft.
      destruct url' as [|v0 v]; [congruence|]. cbn [isEmpty].
      rewrite getDraft_set, K, String.eqb_refl. cbn [truthy get member bind].
      cbn [String.eqb Ascii.eqb Bool.eqb andb member].
      change (truthy (formObject form)) with true. cbv iota.
      destruct (restored_form form) as [-> [-> [-> ->]]]. cbn [bind].
      destruct form; reflexivity.
    + intros K. rewrite getDraft_set.
      destruct (String.eqb_spec (keyOf _normalizeUrl url')
                  (keyOf _normalizeUrl (String u0 u))); [congruence|reflexivity].
  - intros D. rewrite D. reflexivity.
Qed.

Lemma draft_round_trip_witness :
  restoreDraft (fun url => url) true (Some "https://jobs.example/1")
    (saveCurrentDraft (fun url => url) true "2024-01-05T09:30:00.000Z"
       (Some "https://jobs.example/1")
       (Build_PerField " Acme" "" "" "") JNull (fun _ => None))
  = Normal (Some (Build_PerField " Acme" "" "" "")).
Proof.
  apply (proj1 (draft_round_trip (fun url => url) "2024-01-05T09:30:00.000Z"
                  "https://jobs.example/1" (Build_PerField " Acme" "" "" "")
                  JNull (fun _ => None) ltac:(discriminate))).
  - vm_compute. reflexivity.
  - discriminate.
  - reflexivity.
Defined.

Lemma keyOf_prefix (_normalizeUrl : string -> string) (url : string) :
  prefix "draft_" (keyOf _normalizeUrl url) = true.
Proof.
  unfold keyOf, _getStorageKey.
  set (hash := _simpleHash (_normalizeUrl url)).
  change ("draft_" ++ hash)%string
    with (String "d" (String "r" (String "a" (String "f" (String "t"
           (String "_" hash)))))).
  cbn [prefix]. repeat (destruct (ascii_dec _ _); [|congruence]).
  destruct hash; reflexivity.
Qed.

(** X27.  After [clearAllDrafts] no address has a draft, and what the
    storage holds under a key that does not start with ["draft_"] is
    kept; after [clearDraft] the address, and every address with the
    same key, has no draft, and the drafts under other keys are what
    they were.  A call that the storage rejects changes nothing. *)
Theorem drafts_cleared (_normalizeUrl : string -> string) (url : string)
  (stored : Storage) :
  (forall url',
     getDraft _normalizeUrl true url' (snd (clearAllDrafts true stored)) = None)
  /\ (forall key,
        prefix "draft_" key = false ->
        snd (clearAllDrafts true stored) key = stored key)
  /\ (forall url',
        getDraft _normalizeUrl true url'
          (snd (clearDraft _normalizeUrl true url stored))
        = if String.eqb (keyOf _normalizeUrl url') (keyOf _normalizeUrl url)
          then None
          else getDraft _normalizeUrl true url' stored)
  /\ clearAllDrafts false stored = (false, stored)
  /\ clearDraft _normalizeUrl false url stored = (false, stored).
Proof.
  split; [|split; [|split; [|split; reflexivity]]].
  - intros url'. unfold getDraft, clearAllDrafts, removeAll. cbn [snd].
    rewrite keyOf_prefix. reflexivity.
  - intros key H. unfold clearAllDrafts, removeAll. cbn [snd]. rewrite H.
    reflexivity.
  - intros url'. unfold getDraft, clearDraft, remove. cbn [snd].
    destruct (String.eqb (keyOf _normalizeUrl url') (keyOf _normalizeUrl url));
      reflexivity.
Qed.
